(** * Budget application: recurring transactions, month ledgers, categories

    A shallow embedding of the state-handling code of [src/index.tsx]:
    the month timeline ([monthlyData]), the recurring templates and the
    category registry ([globalState]), the handlers that change them and
    the start-up code that restores them from [localStorage].

    Conventions of the embedding.
    - A JavaScript [number] is only stored, copied and compared with [===]
      by the code modelled here, so the development is parametric in its
      carrier (class [JsNumber]); [NaN], which the handlers test for with
      [isNaN], is the [None] of an [option number].
    - An optional property ([isRecurring?], [recurringId?]) is an [option].
    - [monthlyData], a JavaScript object used as a dictionary from month
      keys to ledgers, is a [gmap string MonthlyData]; the loops over
      [Object.keys(monthlyData)] treat every key on its own, so the order
      of the keys is not part of the model.
    - The DOM is reduced to the values the handlers read from it (the form
      fields) and the answers of [confirm]; [alert] is a returned outcome.
    - [Date.now()], [Math.random()], [JSON.parse], [String.toLowerCase],
      [String.trim] and [String.localeCompare] belong to the platform and
      are inputs or section variables. *)

From Stdlib Require Import Ascii.
From stdpp Require Import gmap strings list fin_maps sorting pretty.

Local Open Scope string_scope.
Local Open Scope nat_scope.
Local Open Scope list_scope.

(** ** Numbers *)

(** The carrier of JavaScript numbers other than [NaN]. [num_falsy] tells
    the numbers that count as false in a condition (the zeros). *)
Class JsNumber := {
  number : Type;
  number_eq_dec :: EqDecision number;
  num_falsy : number → bool;
}.

(** ** Parsing

    [JSON.parse(savedData) as T] has three outcomes: the exception on text
    that is not valid; a value that is false as a condition ([null],
    [false], [0] or the empty string), which [JSON.parse] returns like any
    other value; and a value that is true as a condition. The code trusts
    the cast, and so does the model: a value that is true as a condition is
    taken to be of the type [T]. *)
Inductive Parsed (T : Type) :=
| ParseThrows
| ParsedFalsy
| ParsedValue (v : T).
Arguments ParseThrows {T}.
Arguments ParsedFalsy {T}.
Arguments ParsedValue {T} v.

Section Model.
Context `{JsNumber}.

(** ** Type definitions (index.tsx, lines 13-21) *)

Record IncomeSource := mkIncomeSource {
  i_id : number;
  i_description : string;
  i_amount : number;
  i_isRecurring : option bool;
  i_recurringId : option number;
}.

Record Expense := mkExpense {
  e_id : number;
  e_description : string;
  e_amount : number;
  e_category : string;
  e_isRecurring : option bool;
  e_recurringId : option number;
}.

Record RealExpense := mkRealExpense {
  r_id : number;
  r_description : string;
  r_amount : number;
  r_date : string;
  r_linkedCategory : string;
}.

Record Category := mkCategory {
  name : string;
  color : string;
}.

Inductive TransactionType := expense | income.

(** [EditingRecurringTransaction]: the template being edited, tagged with
    its type; [null] is the [None] of the option in [State]. *)
Inductive EditingRecurringTransaction :=
| EditingExpense (e : Expense)
| EditingIncome (i : IncomeSource).

Record MonthlyData := mkMonthlyData {
  realIncome : list IncomeSource;
  plannedExpenses : list Expense;
  realExpenses : list RealExpense;
}.

(** ** State (lines 27-49)

    [globalState], the part of [uiState] that the modelled handlers read
    or write, and [monthlyData], in one record. *)
Record State := mkState {
  categories : list Category;
  recurringIncomes : list IncomeSource;
  recurringExpenses : list Expense;
  selectedMonth : string;
  editingRecurringTransaction : option EditingRecurringTransaction;
  recurringModalType : TransactionType;
  monthlyData : gmap string MonthlyData;
}.

Definition editing_type (ed : EditingRecurringTransaction) : TransactionType :=
  match ed with EditingExpense _ => expense | EditingIncome _ => income end.

Definition editing_id (ed : EditingRecurringTransaction) : number :=
  match ed with EditingExpense e => e_id e | EditingIncome i => i_id i end.

Definition with_monthlyData (st : State) (md : gmap string MonthlyData) : State :=
  mkState (categories st) (recurringIncomes st) (recurringExpenses st)
    (selectedMonth st) (editingRecurringTransaction st)
    (recurringModalType st) md.

Definition with_categories (st : State) (cs : list Category) : State :=
  mkState cs (recurringIncomes st) (recurringExpenses st)
    (selectedMonth st) (editingRecurringTransaction st)
    (recurringModalType st) (monthlyData st).

(** JavaScript's [a >= b] on strings compares code units from the left;
    on the ASCII month keys ["YYYY-MM"] that is [String.leb b a]. *)
Definition str_ge (a b : string) : bool := String.leb b a.

(** ** Seeding a month (lines 70-84)

    [idI n] and [idE n] are the values of [Date.now() + Math.random()]
    drawn for the [n]-th income and the [n]-th expense template. *)
Definition instanceOfIncome (newId : number) (i : IncomeSource) : IncomeSource :=
  {| i_id := newId;
     i_description := i_description i;
     i_amount := i_amount i;
     i_isRecurring := Some true;
     i_recurringId := Some (i_id i) |}.

Definition instanceOfExpense (newId : number) (e : Expense) : Expense :=
  {| e_id := newId;
     e_description := e_description e;
     e_amount := e_amount e;
     e_category := e_category e;
     e_isRecurring := Some true;
     e_recurringId := Some (e_id e) |}.

Definition createMonthDataFromRecurring (idI idE : nat → number) (st : State)
  : MonthlyData :=
  {| realIncome := imap (λ n i, instanceOfIncome (idI n) i) (recurringIncomes st);
     plannedExpenses := imap (λ n e, instanceOfExpense (idE n) e) (recurringExpenses st);
     realExpenses := [] |}.

(** The two places that materialize a month: [initializeState]
    (lines 131-134) for the selected month and the month navigation
    (lines 712-726) for the month [newMonthKey] that [Date] arithmetic
    computes from the selected one. A ledger is an object and therefore
    truthy, so [!monthlyData[k]] holds exactly when the key is absent. *)
Definition ensureMonth (idI idE : nat → number) (k : string) (st : State) : State :=
  match monthlyData st !! k with
  | Some _ => st
  | None => with_monthlyData st
              (<[k := createMonthDataFromRecurring idI idE st]> (monthlyData st))
  end.

Definition ensureCurrentMonth (idI idE : nat → number) (st : State) : State :=
  ensureMonth idI idE (selectedMonth st) st.

Definition navigateMonth (idI idE : nat → number) (newMonthKey : string)
  (st : State) : State :=
  let st' := ensureMonth idI idE newMonthKey st in
  mkState (categories st') (recurringIncomes st') (recurringExpenses st')
    newMonthKey (editingRecurringTransaction st') (recurringModalType st')
    (monthlyData st').

(** ** The recurring-transaction form (lines 597-658)

    What the handler reads from the DOM: the description, the amount as
    [parseFloat] returns it ([None] for [NaN]) and the selected category. *)
Record RecurringForm := mkRecurringForm {
  f_description : string;
  f_amount : option number;
  f_category : string;
}.

(** [{ ...old, description, amount }] and
    [Object.assign(old, { description, amount })]. *)
Definition setIncomeFields (description : string) (amount : number)
  (old : IncomeSource) : IncomeSource :=
  {| i_id := i_id old;
     i_description := description;
     i_amount := amount;
     i_isRecurring := i_isRecurring old;
     i_recurringId := i_recurringId old |}.

Definition setExpenseFields (description : string) (amount : number)
  (category : string) (old : Expense) : Expense :=
  {| e_id := e_id old;
     e_description := description;
     e_amount := amount;
     e_category := category;
     e_isRecurring := e_isRecurring old;
     e_recurringId := e_recurringId old |}.

(** [const index = l.findIndex(p); if (index !== -1) l[index] = f(l[index])]. *)
Definition updateAtFirst {A} (P : A → Prop) `{∀ x, Decision (P x)}
  (f : A → A) (l : list A) : list A :=
  match list_find P l with
  | Some (index, old) => <[index := f old]> l
  | None => l
  end.

(** The body of [Object.keys(monthlyData).forEach(monthKey => { if
    (monthKey >= currentMonthKey) { ... } })]: [f] is applied to the
    ledgers from the pivot month on and the others are left alone. *)
Definition fromMonth (currentMonthKey : string)
  (f : string → MonthlyData → MonthlyData) (md : gmap string MonthlyData)
  : gmap string MonthlyData :=
  map_imap (λ monthKey data,
    Some (if str_ge monthKey currentMonthKey then f monthKey data else data)) md.

Definition with_realIncome (data : MonthlyData) (l : list IncomeSource) : MonthlyData :=
  mkMonthlyData l (plannedExpenses data) (realExpenses data).

Definition with_plannedExpenses (data : MonthlyData) (l : list Expense) : MonthlyData :=
  mkMonthlyData (realIncome data) l (realExpenses data).

(** [now] is the value of [Date.now()] taken for a new template and
    [instId monthKey] the value of [Date.now() + Math.random()] taken for
    the instance pushed into the ledger of [monthKey]. *)
Definition handleRecurringFormSubmit (form : RecurringForm) (now : number)
  (instId : string → number) (st : State) : State :=
  let description := f_description form in
  match f_amount form with
  | None => st
  | Some amount =>
    if bool_decide (description = "") then st else
    let currentMonthKey := selectedMonth st in
    match editingRecurringTransaction st with
    | Some ed =>
      (* --- UPDATE LOGIC --- *)
      let id := editing_id ed in
      match editing_type ed with
      | income =>
        mkState (categories st)
          (updateAtFirst (λ i, i_id i = id)
             (setIncomeFields description amount) (recurringIncomes st))
          (recurringExpenses st)
          (selectedMonth st) None (recurringModalType st)
          (fromMonth currentMonthKey (λ _ data,
             with_realIncome data
               (updateAtFirst (λ i, i_recurringId i = Some id)
                  (setIncomeFields description amount) (realIncome data)))
             (monthlyData st))
      | expense =>
        let category := f_category form in
        mkState (categories st)
          (recurringIncomes st)
          (updateAtFirst (λ e, e_id e = id)
             (setExpenseFields description amount category) (recurringExpenses st))
          (selectedMonth st) None (recurringModalType st)
          (fromMonth currentMonthKey (λ _ data,
             with_plannedExpenses data
               (updateAtFirst (λ e, e_recurringId e = Some id)
                  (setExpenseFields description amount category)
                  (plannedExpenses data)))
             (monthlyData st))
      end
    | None =>
      (* --- ADD LOGIC --- *)
      match recurringModalType st with
      | income =>
        let newRecurring := mkIncomeSource now description amount None None in
        mkState (categories st)
          (recurringIncomes st ++ [newRecurring])
          (recurringExpenses st)
          (selectedMonth st) None (recurringModalType st)
          (fromMonth currentMonthKey (λ monthKey data,
             with_realIncome data
               (realIncome data ++ [instanceOfIncome (instId monthKey) newRecurring]))
             (monthlyData st))
      | expense =>
        let category := f_category form in
        let newRecurring := mkExpense now description amount category None None in
        mkState (categories st)
          (recurringIncomes st)
          (recurringExpenses st ++ [newRecurring])
          (selectedMonth st) None (recurringModalType st)
          (fromMonth currentMonthKey (λ monthKey data,
             with_plannedExpenses data
               (plannedExpenses data ++ [instanceOfExpense (instId monthKey) newRecurring]))
             (monthlyData st))
      end
    end
  end.

(** ** Deleting a template (lines 660-682) *)
Definition handleDeleteRecurring (id : number) (type : TransactionType)
  (st : State) : State :=
  let currentMonthKey := selectedMonth st in
  let md := fromMonth currentMonthKey (λ _ data,
              match type with
              | income =>
                with_realIncome data
                  (filter (λ i, i_recurringId i ≠ Some id) (realIncome data))
              | expense =>
                with_plannedExpenses data
                  (filter (λ e, e_recurringId e ≠ Some id) (plannedExpenses data))
              end) (monthlyData st) in
  match type with
  | income =>
    mkState (categories st)
      (filter (λ i, i_id i ≠ id) (recurringIncomes st))
      (recurringExpenses st)
      (selectedMonth st) (editingRecurringTransaction st)
      (recurringModalType st) md
  | expense =>
    mkState (categories st)
      (recurringIncomes st)
      (filter (λ e, e_id e ≠ id) (recurringExpenses st))
      (selectedMonth st) (editingRecurringTransaction st)
      (recurringModalType st) md
  end.

(** ** Categories *)

(** Platform string functions used on category names. *)
Variable toLowerCase : string → string.
Variable trim : string → string.
Variable localeCompare : string → string → Z.

(** [Array.prototype.sort] with the comparator
    [(a, b) => a.name.localeCompare(b.name)] (lines 60-62). The built-in
    sort is stable; it is modelled by the stable insertion sort, with which
    every stable sort agrees when the comparator is consistent. *)
Fixpoint insertCategory (c : Category) (l : list Category) : list Category :=
  match l with
  | [] => [c]
  | d :: l' =>
    if bool_decide (localeCompare (name d) (name c) < 0)%Z
    then d :: insertCategory c l'
    else c :: d :: l'
  end.

Definition sortCategoryList (l : list Category) : list Category :=
  foldr insertCategory [] l.

Definition sortCategories (st : State) : State :=
  with_categories st (sortCategoryList (categories st)).

(** The neutral colour of lines 149 and 832. *)
Definition defaultColor : string := "#94a3b8".

(** [getCategoryColor] (line 149): the colour of the first category of that
    name, and the neutral colour when there is none or when its colour is
    the empty string. *)

Definition getCategoryColor (categoryName : string) (st : State) : string :=
  match list_find (λ c, name c = categoryName) (categories st) with
  | Some (_, c) => if bool_decide (color c = "") then defaultColor else color c
  | None => defaultColor
  end.

(** What a handler shows with [alert], if anything. *)
Inductive AddCategoryAlert := InvalidOrDuplicateCategory.

(** [handleAddCategory] (lines 827-838); [value] is the content of the
    input [new-category-name]. *)
Definition handleAddCategory (value : string) (st : State)
  : State * option AddCategoryAlert :=
  let name' := trim value in
  if bool_decide (name' ≠ "")
     && negb (bool_decide (Exists (λ c, toLowerCase (name c) = toLowerCase name')
                             (categories st)))
  then (sortCategories
          (with_categories st (categories st ++ [mkCategory name' defaultColor])),
        None)
  else (st, Some InvalidOrDuplicateCategory).

(** The [change] listener on the colour inputs (lines 815-823);
    [categoryName] is [target.dataset.categoryName], which has to be a
    non-empty string, and [newColor] is [target.value]. *)
Definition handleColorChange (categoryName newColor : string) (st : State) : State :=
  if bool_decide (categoryName = "") then st
  else with_categories st
         (updateAtFirst (λ c, name c = categoryName)
            (λ c, mkCategory (name c) newColor) (categories st)).

(** [handleDeleteCategory] (lines 840-860). The three usage classes, in the
    order in which the message lists them. *)
Inductive UsageClass := PlannedUsage | RealUsage | RecurringUsage.

#[global] Instance UsageClass_eq_dec : EqDecision UsageClass.
Proof. solve_decision. Defined.

Definition usageLabel (u : UsageClass) : string :=
  match u with
  | PlannedUsage => "dépenses planifiées"
  | RealUsage => "dépenses réelles"
  | RecurringUsage => "dépenses récurrentes"
  end.

Definition isUsedInPlanned (categoryName : string) (st : State) : bool :=
  existsb (λ kd : string * MonthlyData,
     existsb (λ e, bool_decide (e_category e = categoryName)) (plannedExpenses kd.2))
    (map_to_list (monthlyData st)).

Definition isUsedInReal (categoryName : string) (st : State) : bool :=
  existsb (λ kd : string * MonthlyData,
     existsb (λ e, bool_decide (r_linkedCategory e = categoryName)) (realExpenses kd.2))
    (map_to_list (monthlyData st)).

Definition isUsedInRecurring (categoryName : string) (st : State) : bool :=
  existsb (λ e, bool_decide (e_category e = categoryName)) (recurringExpenses st).

Inductive DeleteCategoryOutcome :=
| CategoryInUse (usageInfo : list UsageClass)
| NotConfirmed
| CategoryDeleted.

(** [confirmed] is the answer of the [confirm] dialog, which is only shown
    when the category is not in use. *)
Definition handleDeleteCategory (categoryName : string) (confirmed : bool)
  (st : State) : State * DeleteCategoryOutcome :=
  let usedInPlanned := isUsedInPlanned categoryName st in
  let usedInReal := isUsedInReal categoryName st in
  let usedInRecurring := isUsedInRecurring categoryName st in
  if usedInPlanned || usedInRecurring || usedInReal then
    let usageInfo :=
      ((if usedInPlanned then [PlannedUsage] else []) ++
       (if usedInReal then [RealUsage] else []) ++
       (if usedInRecurring then [RecurringUsage] else []))%list in
    (st, CategoryInUse usageInfo)
  else if confirmed then
    (with_categories st (filter (λ c, name c ≠ categoryName) (categories st)),
     CategoryDeleted)
  else (st, NotConfirmed).

(** ** Persisted state (lines 52-58 and 88-129) *)

(** A value as [JSON.parse] yields it. The migration reads the ledgers
    through [as any], so it is modelled on untyped objects: a ledger is a
    finite map from property names to values. *)
#[warnings="-register-all"]
Inductive jsval :=
| JNull
| JBool (b : bool)
| JNum (n : number)
| JStr (s : string)
| JArr (items : list jsval)
| JObj (props : list (string * jsval)).

(** The value of [v] as a condition; objects and arrays, the empty ones
    included, are true. *)
Definition truthy (v : jsval) : bool :=
  match v with
  | JNull => false
  | JBool b => b
  | JNum n => negb (num_falsy n)
  | JStr s => negb (bool_decide (s = ""))
  | JArr _ | JObj _ => true
  end.

(** [month.p] as a condition; a property that is absent reads as
    [undefined], which is false. *)
Definition truthyProp (month : gmap string jsval) (p : string) : bool :=
  match month !! p with
  | Some v => truthy v
  | None => false
  end.

(** The body of the migration loop (lines 121-128) for one ledger. *)
Definition migrateMonth (month : gmap string jsval) : gmap string jsval :=
  let month1 :=
    match month !! "expenses" with
    | Some v =>
      if truthy v && negb (truthyProp month "plannedExpenses")
      then delete "expenses" (<["plannedExpenses" := v]> month)
      else month
    | None => month
    end in
  if negb (truthyProp month1 "realExpenses")
  then <["realExpenses" := JArr []]> month1
  else month1.

(** [Object.keys(monthlyData).forEach(key => ...)] (lines 120-129). *)
Definition migrate (md : gmap string (gmap string jsval))
  : gmap string (gmap string jsval) :=
  migrateMonth <$> md.

(** [JSON.parse(savedData) as T], one parser for each type the code loads
    (see [Parsed] above for its three outcomes). *)
Variable parseIncomes : string → Parsed (list IncomeSource).
Variable parseExpenses : string → Parsed (list Expense).
Variable parseCategories : string → Parsed (list Category).
Variable parseMonthlyData : string → Parsed (gmap string (gmap string jsval)).

(** [loadFromStorage] (lines 88-98) and the storage it leaves. The function
    returns [null] for a blob that is absent or empty (line 90) and for
    one that does not parse, which it removes (lines 93-97); otherwise it
    returns what [JSON.parse] returned (line 92) and leaves the blob in
    place. Every caller applies [|| default] to the result (lines 104-117),
    which takes [null] and a parsed value that is false as a condition
    alike: both are the [None] of the result. *)
Definition loadFromStorage {T} (parse : string → Parsed T) (key : string)
  (storage : gmap string string) : option T * gmap string string :=
  match storage !! key with
  | None => (None, storage)
  | Some savedData =>
    if bool_decide (savedData = "") then (None, storage)
    else match parse savedData with
         | ParsedValue v => (Some v, storage)
         | ParsedFalsy => (None, storage)
         | ParseThrows => (None, delete key storage)
         end
  end.

Definition defaultCategories : list Category :=
  [ mkCategory "Animaux" "#10b981"; mkCategory "Assurance" "#06b6d4";
    mkCategory "Cadeaux et association caritative" "#8b5cf6";
    mkCategory "Enfants" "#d946ef";
    mkCategory "Épargne ou investissements" "#f97316";
    mkCategory "Logement" "#ef4444"; mkCategory "Loisirs" "#ec4899";
    mkCategory "Prêts" "#84cc16"; mkCategory "Repas" "#eab308";
    mkCategory "Soins personnels" "#6366f1"; mkCategory "Taxes" "#78716c";
    mkCategory "Transport" "#64748b" ].

(** What [initializeState] has restored when it reaches line 130: the three
    global lists, the migrated ledgers as objects, and the storage. The
    rest of the code reads these ledgers at the type [MonthlyData]; the
    last step of [initializeState] is [ensureCurrentMonth] above. The flag
    [isInitialized] lets the body run once, and the model is that run. *)
Record Restored := mkRestored {
  rs_recurringIncomes : list IncomeSource;
  rs_recurringExpenses : list Expense;
  rs_categories : list Category;
  rs_monthlyData : gmap string (gmap string jsval);
  rs_storage : gmap string string;
}.

Definition initializeState (storage : gmap string string) : Restored :=
  let '(incomes, storage1) := loadFromStorage parseIncomes "recurringIncomes" storage in
  let '(expenses, storage2) := loadFromStorage parseExpenses "recurringExpenses" storage1 in
  let '(cats, storage3) := loadFromStorage parseCategories "categories" storage2 in
  let '(months, storage4) := loadFromStorage parseMonthlyData "monthlyData" storage3 in
  {| rs_recurringIncomes := default [] incomes;
     rs_recurringExpenses := default [] expenses;
     rs_categories := sortCategoryList (default defaultCategories cats);
     rs_monthlyData := migrate (default ∅ months);
     rs_storage := storage4 |}.

End Model.

(** * The entries of the selected month and the remaining listeners

    The handlers that the month's own entries go through, the listeners
    that start an edit or ask for a deletion, the writing of the storage
    and the month keys. *)

Section Entries.
Context `{JsNumber}.

(** ** The month keys (lines 64-68)

    [year] is [date.getFullYear()] and [monthIndex] is [date.getMonth()],
    both integers; the template literal prints the year in decimal and
    [padStart(2, '0')] fills the month up to two characters. *)
Definition padStart2 (s : string) : string :=
  match s with
  | EmptyString => "00"
  | String a EmptyString => String "0" (String a EmptyString)
  | _ => s
  end.

Definition getMonthKey (year monthIndex : Z) : string :=
  pretty year +:+ "-" +:+ padStart2 (pretty (monthIndex + 1)%Z).

(** ** Accessors for the selected month (lines 139-142); a list is true as
    a condition, so the [|| []] stands for a month without ledger. *)
Definition getCurrentIncomes (st : State) : list IncomeSource :=
  match monthlyData st !! selectedMonth st with
  | Some data => realIncome data
  | None => []
  end.

Definition getCurrentPlannedExpenses (st : State) : list Expense :=
  match monthlyData st !! selectedMonth st with
  | Some data => plannedExpenses data
  | None => []
  end.

Definition getCurrentRealExpenses (st : State) : list RealExpense :=
  match monthlyData st !! selectedMonth st with
  | Some data => realExpenses data
  | None => []
  end.

(** ** The state of the session

    [State] with the fields of [uiState] that the handlers below read or
    write. The type [EditingTransaction] of the source is the same union as
    [EditingRecurringTransaction]. [editingRealExpense] refers to the
    record of the list itself; the code reads its [id], which no handler
    rewrites, and its fields when it renders the form. *)
Record Session := mkSession {
  app : State;
  editingTransaction : option EditingRecurringTransaction;
  transactionModalType : TransactionType;
  editingRealExpense : option RealExpense;
}.

Definition with_app (s : Session) (st : State) : Session :=
  mkSession st (editingTransaction s) (transactionModalType s)
    (editingRealExpense s).

Definition with_editingRecurring (st : State)
  (ed : option EditingRecurringTransaction) : State :=
  mkState (categories st) (recurringIncomes st) (recurringExpenses st)
    (selectedMonth st) ed (recurringModalType st) (monthlyData st).

(** [monthlyData[uiState.selectedMonth] = data]. *)
Definition setCurrentMonth (st : State) (data : MonthlyData) : State :=
  with_monthlyData st (<[selectedMonth st := data]> (monthlyData st)).

Definition with_realExpenses (data : MonthlyData) (l : list RealExpense)
  : MonthlyData :=
  mkMonthlyData (realIncome data) (plannedExpenses data) l.

(** [closeModal] (lines 519-527) and [cancelRealExpenseEdit] (529-532). *)
Definition closeModal (s : Session) : Session :=
  mkSession (with_editingRecurring (app s) None) None
    (transactionModalType s) (editingRealExpense s).

Definition cancelRealExpenseEdit (s : Session) : Session :=
  mkSession (app s) (editingTransaction s) (transactionModalType s) None.

(** ** Planned transactions of the month (lines 566-595)

    The handler stores the amount that [parseFloat] returned without
    testing it; the model covers the submissions whose amount is a number
    of the carrier. A month without ledger makes the accessors return a new
    empty array: nothing is found in it and what is pushed onto it is
    lost. *)
Record TransactionForm := mkTransactionForm {
  tf_description : string;
  tf_amount : number;
  tf_category : string;
}.

Definition handleTransactionFormSubmit (form : TransactionForm) (now : number)
  (s : Session) : Session :=
  let st := app s in
  let description := tf_description form in
  let amount := tf_amount form in
  let category := tf_category form in
  let type := match editingTransaction s with
              | Some ed => editing_type ed
              | None => transactionModalType s
              end in
  let st' :=
    match monthlyData st !! selectedMonth st with
    | None => st
    | Some data =>
      match type, editingTransaction s with
      | expense, Some ed =>
        setCurrentMonth st (with_plannedExpenses data
          (updateAtFirst (λ e, e_id e = editing_id ed)
             (setExpenseFields description amount category)
             (plannedExpenses data)))
      | expense, None =>
        setCurrentMonth st (with_plannedExpenses data
          (plannedExpenses data ++
             [mkExpense now description amount category (Some false) None]))
      | income, Some ed =>
        setCurrentMonth st (with_realIncome data
          (updateAtFirst (λ i, i_id i = editing_id ed)
             (setIncomeFields description amount) (realIncome data)))
      | income, None =>
        setCurrentMonth st (with_realIncome data
          (realIncome data ++
             [mkIncomeSource now description amount (Some false) None]))
      end
    end in
  closeModal (with_app s st').

(** The listeners of the pencil and bin buttons of a planned entry
    (lines 741-762). An assignment to [monthlyData[selectedMonth].p] throws
    a [TypeError] when the month has no ledger: that is the [None]. *)
Definition clickEditExpense (id : number) (s : Session) : Session :=
  match list_find (λ e, e_id e = id) (getCurrentPlannedExpenses (app s)) with
  | Some (_, e) =>
    mkSession (app s) (Some (EditingExpense e)) (transactionModalType s)
      (editingRealExpense s)
  | None => s
  end.

Definition clickEditIncome (id : number) (s : Session) : Session :=
  match list_find (λ i, i_id i = id) (getCurrentIncomes (app s)) with
  | Some (_, i) =>
    mkSession (app s) (Some (EditingIncome i)) (transactionModalType s)
      (editingRealExpense s)
  | None => s
  end.

Definition clickDeleteExpense (id : number) (confirmed : bool) (s : Session)
  : option Session :=
  if confirmed then
    match monthlyData (app s) !! selectedMonth (app s) with
    | Some data =>
      Some (with_app s (setCurrentMonth (app s) (with_plannedExpenses data
              (filter (λ e, e_id e ≠ id) (plannedExpenses data)))))
    | None => None
    end
  else Some s.

Definition clickDeleteIncome (id : number) (s : Session) : option Session :=
  match monthlyData (app s) !! selectedMonth (app s) with
  | Some data =>
    Some (with_app s (setCurrentMonth (app s) (with_realIncome data
            (filter (λ i, i_id i ≠ id) (realIncome data)))))
  | None => None
  end.

(** ** Real expenses (lines 534-563, 684-690 and 788-801) *)
Record RealExpenseForm := mkRealExpenseForm {
  rf_description : string;
  rf_amount : option number;
  rf_date : string;
  rf_linkedCategory : string;
}.

Inductive RealExpenseAlert := FillAllFields.

Definition setRealExpenseFields (description : string) (amount : number)
  (date linkedCategory : string) (old : RealExpense) : RealExpense :=
  {| r_id := r_id old;
     r_description := description;
     r_amount := amount;
     r_date := date;
     r_linkedCategory := linkedCategory |}.

Definition handleAddRealExpense (form : RealExpenseForm) (now : number)
  (s : Session) : Session * option RealExpenseAlert :=
  let description := rf_description form in
  let date := rf_date form in
  let linkedCategory := rf_linkedCategory form in
  match rf_amount form with
  | None => (s, Some FillAllFields)
  | Some amount =>
    if bool_decide (description = "") || bool_decide (date = "")
       || bool_decide (linkedCategory = "")
    then (s, Some FillAllFields)
    else
      let st := app s in
      let st' :=
        match monthlyData st !! selectedMonth st with
        | None => st
        | Some data =>
          match editingRealExpense s with
          | Some editing =>
            setCurrentMonth st (with_realExpenses data
              (updateAtFirst (λ e, r_id e = r_id editing)
                 (setRealExpenseFields description amount date linkedCategory)
                 (realExpenses data)))
          | None =>
            setCurrentMonth st (with_realExpenses data
              (realExpenses data ++
                 [mkRealExpense now description amount date linkedCategory]))
          end
        end in
      (cancelRealExpenseEdit (with_app s st'), None)
  end.

Definition handleDeleteRealExpense (id : number) (s : Session) : option Session :=
  match monthlyData (app s) !! selectedMonth (app s) with
  | Some data =>
    Some (with_app s (setCurrentMonth (app s) (with_realExpenses data
            (filter (λ e, r_id e ≠ id) (realExpenses data)))))
  | None => None
  end.

Definition clickEditRealExpense (id : number) (s : Session) : Session :=
  match list_find (λ e, r_id e = id) (getCurrentRealExpenses (app s)) with
  | Some (_, e) =>
    mkSession (app s) (editingTransaction s) (transactionModalType s) (Some e)
  | None => s
  end.

Definition clickDeleteRealExpense (id : number) (confirmed : bool) (s : Session)
  : option Session :=
  if confirmed then handleDeleteRealExpense id s else Some s.

(** ** The listeners of the recurring manager (lines 767-785) *)
Definition clickEditRecurring (id : number) (type : TransactionType) (st : State)
  : State :=
  match type with
  | income =>
    match list_find (λ i, i_id i = id) (recurringIncomes st) with
    | Some (_, item) =>
      mkState (categories st) (recurringIncomes st) (recurringExpenses st)
        (selectedMonth st) (Some (EditingIncome item)) income (monthlyData st)
    | None => st
    end
  | expense =>
    match list_find (λ e, e_id e = id) (recurringExpenses st) with
    | Some (_, item) =>
      mkState (categories st) (recurringIncomes st) (recurringExpenses st)
        (selectedMonth st) (Some (EditingExpense item)) expense (monthlyData st)
    | None => st
    end
  end.

Definition clickDeleteRecurring (id : number) (type : TransactionType)
  (confirmed : bool) (st : State) : State :=
  if confirmed then handleDeleteRecurring id type st else st.

(** ** Writing the storage (lines 53-58); [JSON.stringify] at the four
    types is a parameter. *)
Variable stringifyMonthlyData : gmap string MonthlyData → string.
Variable stringifyIncomes : list IncomeSource → string.
Variable stringifyExpenses : list Expense → string.
Variable stringifyCategories : list Category → string.

Definition saveDataToLocalStorage (st : State) (storage : gmap string string)
  : gmap string string :=
  <["categories" := stringifyCategories (categories st)]>
    (<["recurringExpenses" := stringifyExpenses (recurringExpenses st)]>
       (<["recurringIncomes" := stringifyIncomes (recurringIncomes st)]>
          (<["monthlyData" := stringifyMonthlyData (monthlyData st)]> storage))).

End Entries.

(** * Vocabulary of the properties *)

Section Vocabulary.
Context `{JsNumber}.

(** An instance is the projection of a template [t]. *)
Definition incomeInstanceOf (t i : IncomeSource) : Prop :=
  i_recurringId i = Some (i_id t) ∧ i_isRecurring i = Some true ∧
  i_description i = i_description t ∧ i_amount i = i_amount t.

Definition expenseInstanceOf (t e : Expense) : Prop :=
  e_recurringId e = Some (e_id t) ∧ e_isRecurring e = Some true ∧
  e_description e = e_description t ∧ e_amount e = e_amount t ∧
  e_category e = e_category t.

(** The instances of a ledger that are linked to the template [id]. *)
Definition incomesLinkedTo (id : number) (data : MonthlyData) : list IncomeSource :=
  filter (λ i, i_recurringId i = Some id) (realIncome data).

Definition expensesLinkedTo (id : number) (data : MonthlyData) : list Expense :=
  filter (λ e, e_recurringId e = Some id) (plannedExpenses data).

(** A ledger seeded from the templates of [st]: one instance for each
    template, in the order of the templates, and no real expense. *)
Definition seededFrom (st : State) (data : MonthlyData) : Prop :=
  Forall2 incomeInstanceOf (recurringIncomes st) (realIncome data) ∧
  Forall2 expenseInstanceOf (recurringExpenses st) (plannedExpenses data) ∧
  realExpenses data = [].

(** [l'] is [l] with [f] applied to the first element that satisfies [P],
    if there is one, and to nothing else. *)
Definition firstUpdated {A} (P : A → Prop) `{∀ x, Decision (P x)}
  (f : A → A) (l l' : list A) : Prop :=
  length l' = length l ∧
  ∀ n x, l !! n = Some x →
    l' !! n = Some (if decide (P x ∧ Forall (λ y, ¬ P y) (take n l))
                    then f x else x).

(** The order in which [sortCategories] leaves the registry. *)
Definition nameLe (localeCompare : string → string → Z) (a b : Category)
  : Prop :=
  (localeCompare (name a) (name b) ≤ 0)%Z.

(** A ledger on which the migration has nothing left to do. *)
Definition settled (month : gmap string jsval) : Prop :=
  truthyProp month "realExpenses" = true ∧
  (truthyProp month "expenses" = false ∨
   truthyProp month "plannedExpenses" = true).

(** The blob stored under a key parses to [v]. *)
Definition blobYields {T} (parse : string → Parsed T) (blob : option string)
  (v : T) : Prop :=
  ∃ savedData,
    blob = Some savedData ∧ savedData ≠ "" ∧ parse savedData = ParsedValue v.

(** The blob is absent, empty or does not parse. *)
Definition blobUnusable {T} (parse : string → Parsed T) (blob : option string)
  : Prop :=
  blob = None ∨ blob = Some "" ∨
  ∃ savedData, blob = Some savedData ∧ parse savedData = ParseThrows.

(** The blob parses, to a value that is false as a condition. *)
Definition blobFalsy {T} (parse : string → Parsed T) (blob : option string)
  : Prop :=
  ∃ savedData,
    blob = Some savedData ∧ savedData ≠ "" ∧ parse savedData = ParsedFalsy.

(** What the caller of [loadFromStorage] has before its [|| default], as a
    function of the blob alone. *)
Definition blobValue {T} (parse : string → Parsed T) (blob : option string)
  : option T :=
  match blob with
  | Some savedData =>
    if bool_decide (savedData = "") then None
    else match parse savedData with
         | ParsedValue v => Some v
         | ParsedFalsy | ParseThrows => None
         end
  | None => None
  end.

End Vocabulary.

(** * Vocabulary of the invariants *)

Section InvariantVocabulary.
Context `{JsNumber}.

(** The selected month has a ledger. *)
Definition monthReady (st : State) : Prop :=
  is_Some (monthlyData st !! selectedMonth st).

(** A ledger holds at most one instance for each template id. *)
Definition linkedOnce (data : MonthlyData) : Prop :=
  ∀ id, length (incomesLinkedTo id data) ≤ 1 ∧
        length (expensesLinkedTo id data) ≤ 1.

(** The templates of a store have distinct ids and every ledger holds at
    most one instance for each id. *)
Definition wellLinked (st : State) : Prop :=
  NoDup (i_id <$> recurringIncomes st) ∧
  NoDup (e_id <$> recurringExpenses st) ∧
  ∀ k data, monthlyData st !! k = Some data → linkedOnce data.

(** [now] is the id of no template and no instance is linked to it. *)
Definition freshTemplateId (now : number) (st : State) : Prop :=
  (now ∉ i_id <$> recurringIncomes st) ∧
  (now ∉ e_id <$> recurringExpenses st) ∧
  ∀ k data, monthlyData st !! k = Some data →
    incomesLinkedTo now data = [] ∧ expensesLinkedTo now data = [].

(** The entries of a ledger that are linked to no template. *)
Definition manualIncomes (data : MonthlyData) : list IncomeSource :=
  filter (λ i, i_recurringId i = None) (realIncome data).

Definition manualExpenses (data : MonthlyData) : list Expense :=
  filter (λ e, e_recurringId e = None) (plannedExpenses data).

(** A category of that name is in the registry. *)
Definition registered (c : string) (st : State) : Prop :=
  ∃ cat, cat ∈ categories st ∧ name cat = c.

(** The name is used by a planned expense, a real expense or a recurring
    expense template. *)
Definition categoryReferenced (c : string) (st : State) : Prop :=
  (∃ k data e, monthlyData st !! k = Some data ∧
               e ∈ plannedExpenses data ∧ e_category e = c) ∨
  (∃ k data e, monthlyData st !! k = Some data ∧
               e ∈ realExpenses data ∧ r_linkedCategory e = c) ∨
  (∃ e, e ∈ recurringExpenses st ∧ e_category e = c).

Definition referencesResolved (st : State) : Prop :=
  ∀ c, categoryReferenced c st → registered c st.

(** No two categories have the same name up to case. *)
Definition namesDistinct (toLowerCase : string → string) (st : State) : Prop :=
  NoDup ((λ c, toLowerCase (name c)) <$> categories st).

(** Chronological order of two months given by year and month index. *)
Definition monthLe (y1 m1 y2 m2 : Z) : Prop :=
  (y1 < y2 ∨ (y1 = y2 ∧ m1 ≤ m2))%Z.

(** The objects that the typed records are: the properties of the type
    definitions (lines 13-21), an optional property being present when it
    is set. [encodeLedger] is the ledger as the migration reads it. *)
Definition optionalProp {A} (p : string) (f : A → jsval) (x : option A)
  : list (string * jsval) :=
  match x with
  | Some a => [(p, f a)]
  | None => []
  end.

Definition encodeIncome (i : IncomeSource) : jsval :=
  JObj ([("id", JNum (i_id i)); ("description", JStr (i_description i));
         ("amount", JNum (i_amount i))]
        ++ optionalProp "isRecurring" JBool (i_isRecurring i)
        ++ optionalProp "recurringId" JNum (i_recurringId i)).

Definition encodeExpense (e : Expense) : jsval :=
  JObj ([("id", JNum (e_id e)); ("description", JStr (e_description e));
         ("amount", JNum (e_amount e)); ("category", JStr (e_category e))]
        ++ optionalProp "isRecurring" JBool (e_isRecurring e)
        ++ optionalProp "recurringId" JNum (e_recurringId e)).

Definition encodeRealExpense (e : RealExpense) : jsval :=
  JObj [("id", JNum (r_id e)); ("description", JStr (r_description e));
        ("amount", JNum (r_amount e)); ("date", JStr (r_date e));
        ("linkedCategory", JStr (r_linkedCategory e))].

Definition encodeCategory (c : Category) : jsval :=
  JObj [("name", JStr (name c)); ("color", JStr (color c))].

Definition encodeLedger (data : MonthlyData) : gmap string jsval :=
  {[ "realIncome" := JArr (encodeIncome <$> realIncome data);
     "plannedExpenses" := JArr (encodeExpense <$> plannedExpenses data);
     "realExpenses" := JArr (encodeRealExpense <$> realExpenses data) ]}.

(** A blob on which [loadFromStorage] removes nothing. *)
Definition cleanBlob {T} (parse : string → Parsed T) (blob : option string)
  : Prop :=
  match blob with
  | Some savedData => savedData = "" ∨ parse savedData ≠ ParseThrows
  | None => True
  end.

(** The decimal print of a year of four digits. *)
Definition fourDigits (year : Z) : string :=
  String (pretty_N_char (Z.to_N (year / 1000)))
    (String (pretty_N_char (Z.to_N ((year / 100) `mod` 10)))
       (String (pretty_N_char (Z.to_N ((year / 10) `mod` 10)))
          (String (pretty_N_char (Z.to_N (year `mod` 10))) ""))).

End InvariantVocabulary.

(** * Sample data

    Explicit states on which the properties are run further down, with
    integers for the numbers and simple stand-ins for the platform
    functions. *)

Definition Z_number : JsNumber :=
  {| number := Z; num_falsy := λ z, bool_decide (z = 0%Z) |}.

Section Samples.
#[local] Existing Instance Z_number.

(** Lower case on the letters [A]-[Z]. *)
Definition lowerAscii (a : Ascii.ascii) : Ascii.ascii :=
  let n := Ascii.N_of_ascii a in
  if ((65 <=? n) && (n <=? 90))%N then Ascii.ascii_of_N (n + 32) else a.

Fixpoint sampleToLowerCase (s : string) : string :=
  match s with
  | EmptyString => EmptyString
  | String a s' => String (lowerAscii a) (sampleToLowerCase s')
  end.

(** [trim] on the space character. *)
Fixpoint trimStart (s : string) : string :=
  match s with
  | String a s' => if Ascii.eqb a " "%char then trimStart s' else s
  | EmptyString => EmptyString
  end.

Fixpoint trimEnd (s : string) : string :=
  match s with
  | EmptyString => EmptyString
  | String a s' =>
    match trimEnd s' with
    | EmptyString => if Ascii.eqb a " "%char then EmptyString else String a EmptyString
    | t => String a t
    end
  end.

Definition sampleTrim (s : string) : string := trimEnd (trimStart s).

(** Comparison by code units. *)
Definition sampleLocaleCompare (a b : string) : Z :=
  match String.compare a b with
  | Lt => (-1)%Z
  | Eq => 0%Z
  | Gt => 1%Z
  end.

(** ** A stand-in for [JSON.stringify] and [JSON.parse]

    Compact JSON without white space, with integers for the numbers and
    with strings that hold no quote and no backslash: what the sample data
    needs. Text outside this fragment is refused like text that is not
    valid. *)
Definition quoteChar : Ascii.ascii := Ascii.ascii_of_nat 34.

Definition quoted (s : string) : string :=
  String quoteChar (s +:+ String quoteChar "").

Fixpoint joinWith (sep : string) (l : list string) : string :=
  match l with
  | [] => ""
  | [x] => x
  | x :: l' => x +:+ sep +:+ joinWith sep l'
  end.

Fixpoint sampleStringify (v : jsval) : string :=
  match v with
  | JNull => "null"
  | JBool b => if b then "true" else "false"
  | JNum n => pretty (n : Z)
  | JStr s => quoted s
  | JArr items => "[" +:+ joinWith "," (map sampleStringify items) +:+ "]"
  | JObj props =>
    "{" +:+ joinWith ","
              (map (λ '(k, w), quoted k +:+ ":" +:+ sampleStringify w) props)
        +:+ "}"
  end.

Definition isDigit (a : Ascii.ascii) : bool :=
  let n := Ascii.N_of_ascii a in ((48 <=? n) && (n <=? 57))%N.

Fixpoint readDigits (acc : Z) (s : string) : Z * string :=
  match s with
  | String a s' =>
    if isDigit a
    then readDigits (10 * acc + Z.of_N (Ascii.N_of_ascii a - 48))%Z s'
    else (acc, s)
  | EmptyString => (acc, s)
  end.

(** The characters up to the closing quote, and the text after it. *)
Fixpoint readString (s : string) : option (string * string) :=
  match s with
  | EmptyString => None
  | String a s' =>
    if Ascii.eqb a quoteChar then Some ("", s')
    else match readString s' with
         | Some (t, rest) => Some (String a t, rest)
         | None => None
         end
  end.

Fixpoint readValue (gas : nat) (s : string) {struct gas}
  : option (jsval * string) :=
  match gas with
  | 0 => None
  | S gas =>
    match s with
    | String "n" (String "u" (String "l" (String "l" rest))) =>
      Some (JNull, rest)
    | String "t" (String "r" (String "u" (String "e" rest))) =>
      Some (JBool true, rest)
    | String "f" (String "a" (String "l" (String "s" (String "e" rest)))) =>
      Some (JBool false, rest)
    | String "[" (String "]" rest) => Some (JArr [], rest)
    | String "[" rest =>
      match readItems gas rest with
      | Some (items, rest') => Some (JArr items, rest')
      | None => None
      end
    | String "{" (String "}" rest) => Some (JObj [], rest)
    | String "{" rest =>
      match readProps gas rest with
      | Some (props, rest') => Some (JObj props, rest')
      | None => None
      end
    | String "-" (String a rest) =>
      if isDigit a
      then let '(n, rest') := readDigits 0 (String a rest) in
           Some (JNum (- n)%Z, rest')
      else None
    | String a rest =>
      if isDigit a
      then let '(n, rest') := readDigits 0 s in Some (JNum n, rest')
      else if Ascii.eqb a quoteChar
      then match readString rest with
           | Some (t, rest') => Some (JStr t, rest')
           | None => None
           end
      else None
    | EmptyString => None
    end
  end
with readItems (gas : nat) (s : string) {struct gas}
  : option (list jsval * string) :=
  match gas with
  | 0 => None
  | S gas =>
    match readValue gas s with
    | Some (v, String "," rest) =>
      match readItems gas rest with
      | Some (items, rest') => Some (v :: items, rest')
      | None => None
      end
    | Some (v, String "]" rest) => Some ([v], rest)
    | _ => None
    end
  end
with readProps (gas : nat) (s : string) {struct gas}
  : option (list (string * jsval) * string) :=
  match gas with
  | 0 => None
  | S gas =>
    match s with
    | String a rest =>
      if Ascii.eqb a quoteChar
      then match readString rest with
           | Some (k, String ":" rest1) =>
             match readValue gas rest1 with
             | Some (v, String "," rest2) =>
               match readProps gas rest2 with
               | Some (props, rest') => Some ((k, v) :: props, rest')
               | None => None
               end
             | Some (v, String "}" rest2) => Some ([(k, v)], rest2)
             | _ => None
             end
           | _ => None
           end
      else None
    | EmptyString => None
    end
  end.

Definition sampleParseJson (s : string) : option jsval :=
  match readValue (S (String.length s)) s with
  | Some (v, EmptyString) => Some v
  | _ => None
  end.

(** The typed reading of a parsed value. *)
Definition propOf (props : list (string * jsval)) (p : string) : option jsval :=
  snd <$> (snd <$> list_find (λ kv, kv.1 = p) props).

Definition optionalBool (props : list (string * jsval)) (p : string)
  : option bool :=
  match propOf props p with
  | Some (JBool b) => Some b
  | _ => None
  end.

Definition optionalNum (props : list (string * jsval)) (p : string)
  : option number :=
  match propOf props p with
  | Some (JNum n) => Some n
  | _ => None
  end.

Definition decodeIncome (v : jsval) : option IncomeSource :=
  match v with
  | JObj props =>
    match propOf props "id", propOf props "description", propOf props "amount" with
    | Some (JNum id), Some (JStr description), Some (JNum amount) =>
      Some (mkIncomeSource id description amount
              (optionalBool props "isRecurring") (optionalNum props "recurringId"))
    | _, _, _ => None
    end
  | _ => None
  end.

Definition decodeExpense (v : jsval) : option Expense :=
  match v with
  | JObj props =>
    match propOf props "id", propOf props "description", propOf props "amount",
          propOf props "category" with
    | Some (JNum id), Some (JStr description), Some (JNum amount),
      Some (JStr category) =>
      Some (mkExpense id description amount category
              (optionalBool props "isRecurring") (optionalNum props "recurringId"))
    | _, _, _, _ => None
    end
  | _ => None
  end.

Definition decodeCategory (v : jsval) : option Category :=
  match v with
  | JObj props =>
    match propOf props "name", propOf props "color" with
    | Some (JStr n), Some (JStr c) => Some (mkCategory n c)
    | _, _ => None
    end
  | _ => None
  end.

Definition decodeList {T} (decode : jsval → option T) (v : jsval)
  : option (list T) :=
  match v with
  | JArr items => mapM decode items
  | _ => None
  end.

Definition decodeObject (v : jsval) : option (gmap string jsval) :=
  match v with
  | JObj props => Some (list_to_map props)
  | _ => None
  end.

Definition decodeMonthlyData (v : jsval)
  : option (gmap string (gmap string jsval)) :=
  match v with
  | JObj months =>
    list_to_map <$> mapM (λ '(k, w), (λ o, (k, o)) <$> decodeObject w) months
  | _ => None
  end.

(** [JSON.parse(text) as T] on the fragment: the three outcomes of
    [Parsed]. A value of another shape than [T] is outside the typed
    model; the stand-in refuses it. *)
Definition sampleParseAs {T} (decode : jsval → option T) (text : string)
  : Parsed T :=
  match sampleParseJson text with
  | None => ParseThrows
  | Some v =>
    if truthy v
    then match decode v with
         | Some x => ParsedValue x
         | None => ParseThrows
         end
    else ParsedFalsy
  end.

Definition sampleParseIncomes : string → Parsed (list IncomeSource) :=
  sampleParseAs (decodeList decodeIncome).

Definition sampleParseExpenses : string → Parsed (list Expense) :=
  sampleParseAs (decodeList decodeExpense).

Definition sampleParseCategories : string → Parsed (list Category) :=
  sampleParseAs (decodeList decodeCategory).

Definition sampleParseMonthlyData
  : string → Parsed (gmap string (gmap string jsval)) :=
  sampleParseAs decodeMonthlyData.

Definition sampleStringifyIncomes (l : list IncomeSource) : string :=
  sampleStringify (JArr (encodeIncome <$> l)).

Definition sampleStringifyExpenses (l : list Expense) : string :=
  sampleStringify (JArr (encodeExpense <$> l)).

Definition sampleStringifyCategories (l : list Category) : string :=
  sampleStringify (JArr (encodeCategory <$> l)).

Definition sampleStringifyMonthlyData (md : gmap string MonthlyData) : string :=
  sampleStringify
    (JObj (map_to_list ((λ data, JObj (map_to_list (encodeLedger data))) <$> md))).

Definition salary : IncomeSource := mkIncomeSource 1%Z "Salaire" 2000%Z None None.
Definition rent : Expense := mkExpense 2%Z "Loyer" 800%Z "Logement" None None.

(** March 2024 holds the instances of both templates and one real expense;
    February 2024 is an older month without recurring entries. *)
Definition march : MonthlyData :=
  {| realIncome := [instanceOfIncome 11%Z salary];
     plannedExpenses := [instanceOfExpense 12%Z rent];
     realExpenses := [mkRealExpense 13%Z "Courses" 60%Z "2024-03-04" "Repas"] |}.

Definition february : MonthlyData :=
  {| realIncome := [mkIncomeSource 21%Z "Prime" 150%Z (Some false) None];
     plannedExpenses := [];
     realExpenses := [] |}.

Definition sampleState : State :=
  {| categories := [mkCategory "Logement" "#ef4444"; mkCategory "Loisirs" "#ec4899";
                    mkCategory "Repas" "#eab308"];
     recurringIncomes := [salary];
     recurringExpenses := [rent];
     selectedMonth := "2024-03";
     editingRecurringTransaction := None;
     recurringModalType := income;
     monthlyData := {[ "2024-02" := february; "2024-03" := march ]} |}.

Definition sampleIds (n : nat) : number := (100 + Z.of_nat n)%Z.

Definition sampleInstId (monthKey : string) : number :=
  (1000 + Z.of_nat (String.length monthKey))%Z.

Definition bonusForm : RecurringForm := mkRecurringForm "Bonus" (Some 300%Z) "".

Definition editingSalary : State :=
  {| categories := categories sampleState;
     recurringIncomes := [salary];
     recurringExpenses := [rent];
     selectedMonth := "2024-03";
     editingRecurringTransaction := Some (EditingIncome salary);
     recurringModalType := income;
     monthlyData := monthlyData sampleState |}.

Definition raiseForm : RecurringForm := mkRecurringForm "Paie" (Some 2100%Z) "".

(** March 2024 with two income instances linked to the template 1. *)
Definition doubledMarch : MonthlyData :=
  {| realIncome := [instanceOfIncome 11%Z salary; instanceOfIncome 14%Z salary];
     plannedExpenses := [];
     realExpenses := [] |}.

Definition doubledState : State :=
  {| categories := [];
     recurringIncomes := [salary];
     recurringExpenses := [];
     selectedMonth := "2024-03";
     editingRecurringTransaction := Some (EditingIncome salary);
     recurringModalType := income;
     monthlyData := {[ "2024-03" := doubledMarch ]} |}.

(** The template being edited was deleted; March 2024 still holds an
    instance linked to it. *)
Definition orphanState : State :=
  {| categories := [];
     recurringIncomes := [];
     recurringExpenses := [];
     selectedMonth := "2024-03";
     editingRecurringTransaction := Some (EditingIncome salary);
     recurringModalType := income;
     monthlyData := {[ "2024-02" := february;
                       "2024-03" := with_plannedExpenses march [] ]} |}.

(** A ledger saved by an old version, and one saved by the current one. *)
Definition legacyLedger : gmap string jsval :=
  {[ "realIncome" := JArr []; "expenses" := JArr [JStr "Loyer"] ]}.

Definition currentLedger : gmap string jsval :=
  {[ "realIncome" := JArr []; "plannedExpenses" := JArr [JStr "Loyer"];
     "realExpenses" := JArr [] ]}.

(** A storage with an empty categories list, a recurring-incomes blob that
    does not parse and no other blob. *)
Definition sampleStorage : gmap string string :=
  {[ "categories" := "[]"; "recurringIncomes" := "{oops" ]}.

(** The session of [sampleState] with no edit in progress. *)
Definition sampleSession : Session :=
  {| app := sampleState;
     editingTransaction := None;
     transactionModalType := expense;
     editingRealExpense := None |}.

Definition cinemaForm : RealExpenseForm :=
  mkRealExpenseForm "Cinema" (Some 12%Z) "2024-03-09" "Loisirs".

(** The real expense under edit is not one of March 2024. *)
Definition fuel : RealExpense :=
  mkRealExpense 31%Z "Essence" 45%Z "2024-02-11" "Loisirs".

Definition staleSession : Session :=
  {| app := sampleState;
     editingTransaction := None;
     transactionModalType := expense;
     editingRealExpense := Some fuel |}.

Definition rentForm : TransactionForm :=
  mkTransactionForm "Loyer et charges" 850%Z "Logement".

(** A storage whose categories blob is the JSON text [null]. *)
Definition nullStorage : gmap string string :=
  {[ "categories" := "null" ]}.

(** The ledgers of a storage written by an old version. *)
Definition legacyLedgers : gmap string (gmap string jsval) :=
  {[ "2023-11" := legacyLedger; "2024-03" := currentLedger ]}.

End Samples.

(** * Properties *)

Section Properties.
Context `{JsNumber}.

(** ** Lemmas on the building blocks *)

Lemma fromMonth_lookup (P : string) f (md : gmap string MonthlyData) k :
  fromMonth P f md !! k =
    (λ data, if str_ge k P then f k data else data) <$> md !! k.
Proof.
  unfold fromMonth. rewrite map_lookup_imap.
  by destruct (md !! k).
Qed.

Lemma fromMonth_dom (P : string) f (md : gmap string MonthlyData) :
  dom (fromMonth P f md) = dom md.
Proof.
  apply set_eq. intros k. rewrite !elem_of_dom, fromMonth_lookup.
  by rewrite fmap_is_Some.
Qed.

Lemma list_find_take_Forall {A} (P : A → Prop) `{∀ x, Decision (P x)}
  (l : list A) n x :
  list_find P l = Some (n, x) ↔
  l !! n = Some x ∧ P x ∧ Forall (λ y, ¬ P y) (take n l).
Proof.
  rewrite list_find_Some, Forall_lookup. split.
  - intros (Hn & HP & Hlt). split_and!; [done..|].
    intros j y Hj. apply lookup_take_Some in Hj as [Hj ?]. eauto.
  - intros (Hn & HP & Hlt). split_and!; [done..|].
    intros j y Hj ?. apply (Hlt j y). by rewrite lookup_take_lt.
Qed.

Lemma updateAtFirst_firstUpdated {A} (P : A → Prop) `{∀ x, Decision (P x)}
  (f : A → A) (l : list A) :
  firstUpdated P f l (updateAtFirst P f l).
Proof.
  unfold firstUpdated, updateAtFirst.
  destruct (list_find P l) as [[m old]|] eqn:Hfind.
  - apply list_find_take_Forall in Hfind as Hm. destruct Hm as (Hm & HP & Hbefore).
    split; [by rewrite length_insert|].
    intros n x Hn. destruct (decide (n = m)) as [->|Hne].
    + assert (x = old) as -> by congruence.
      rewrite decide_True by done.
      apply list_lookup_insert_eq. by eapply lookup_lt_Some.
    + rewrite list_lookup_insert_ne by done.
      rewrite decide_False; [done|].
      intros [HPx Hx]. apply Hne.
      assert (list_find P l = Some (n, x)) as Hfind'
        by (by apply list_find_take_Forall).
      congruence.
  - split; [done|]. intros n x Hn.
    rewrite decide_False; [done|].
    intros [HPx _]. apply list_find_None in Hfind.
    rewrite Forall_lookup in Hfind. by eapply Hfind.
Qed.

Lemma firstUpdated_none {A} (P : A → Prop) `{∀ x, Decision (P x)}
  (f : A → A) (l l' : list A) :
  Forall (λ x, ¬ P x) l → firstUpdated P f l l' → l' = l.
Proof.
  intros Hnone [Hlen Hl']. apply list_eq_same_length with (length l); [done..|].
  intros n x y ? Hx Hy. rewrite Forall_lookup in Hnone.
  specialize (Hl' n y Hy). rewrite decide_False in Hl'.
  - congruence.
  - intros [? _]. by eapply Hnone.
Qed.

(** ** Seeding *)

Lemma createMonthDataFromRecurring_seeded idI idE (st : State) :
  seededFrom st (createMonthDataFromRecurring idI idE st).
Proof.
  unfold seededFrom, createMonthDataFromRecurring; simpl. split_and!; [| |done].
  - generalize idI. induction (recurringIncomes st) as [|t l IH]; intros g; simpl.
    + constructor.
    + constructor; [done|]. apply (IH (g ∘ S)).
  - generalize idE. induction (recurringExpenses st) as [|t l IH]; intros g; simpl.
    + constructor.
    + constructor; [done|]. apply (IH (g ∘ S)).
Qed.

(** C4. Materializing a month that the timeline does not hold yet, through
    the month navigation or through the start-up step for the selected
    month, stores for it a ledger with one instance for each current
    recurring income template in [realIncome] and one for each current
    recurring expense template in [plannedExpenses], each flagged
    recurring, linked to its template and carrying the template's
    description and amount (and category for an expense), and with an
    empty [realExpenses]. *)
Theorem seed_unmaterialized_month idI idE (k : string) (st : State) :
  monthlyData st !! k = None →
  (∃ data, monthlyData (navigateMonth idI idE k st) !! k = Some data ∧
           seededFrom st data) ∧
  (selectedMonth st = k →
   ∃ data, monthlyData (ensureCurrentMonth idI idE st) !! k = Some data ∧
           seededFrom st data).
Proof.
  intros Hk. split.
  - exists (createMonthDataFromRecurring idI idE st). split.
    + unfold navigateMonth, ensureMonth; simpl. rewrite Hk; simpl.
      apply lookup_insert_eq.
    + apply createMonthDataFromRecurring_seeded.
  - intros <-. exists (createMonthDataFromRecurring idI idE st). split.
    + unfold ensureCurrentMonth, ensureMonth. rewrite Hk; simpl.
      apply lookup_insert_eq.
    + apply createMonthDataFromRecurring_seeded.
Qed.

(** A month that is already materialized is left as it is. *)
Lemma ensureMonth_materialized idI idE (k : string) (st : State) :
  is_Some (monthlyData st !! k) → ensureMonth idI idE k st = st.
Proof. intros [data Hk]. unfold ensureMonth. by rewrite Hk. Qed.

(** When the templates have distinct ids, a seeded ledger holds exactly one
    instance linked to each of them. *)
Lemma seeded_incomes_unlinked (id : number) (ts ins : list IncomeSource) :
  Forall2 incomeInstanceOf ts ins → id ∉ i_id <$> ts →
  filter (λ i, i_recurringId i = Some id) ins = [].
Proof.
  induction 1 as [|t i ts ins Hti _ IH]; [done|]. simpl.
  intros Hid. apply not_elem_of_cons in Hid as [Hne Hid].
  rewrite filter_cons_False; [by apply IH|].
  destruct Hti as (-> & _). congruence.
Qed.

Lemma seeded_one_income_per_template (st : State) (data : MonthlyData) :
  seededFrom st data → NoDup (i_id <$> recurringIncomes st) →
  ∀ t, t ∈ recurringIncomes st →
    ∃ inst, incomesLinkedTo (i_id t) data = [inst] ∧ incomeInstanceOf t inst.
Proof.
  intros (Hseed & _ & _). unfold incomesLinkedTo.
  induction Hseed as [|t0 i0 ts ins Hti Hrest IH]; intros Hnodup t Ht.
  - by apply elem_of_nil in Ht.
  - simpl in Hnodup. apply NoDup_cons in Hnodup as [Hfresh Hnodup].
    apply elem_of_cons in Ht as [-> | Ht].
    + exists i0. split; [|done].
      rewrite filter_cons_True by apply Hti.
      by rewrite (seeded_incomes_unlinked _ ts ins).
    + destruct (IH Hnodup t Ht) as (inst & Hinst & Hof).
      exists inst. split; [|done].
      rewrite filter_cons_False; [done|].
      destruct Hti as (-> & _). intros [= Heq]. apply Hfresh.
      rewrite Heq. by apply list_elem_of_fmap_2.
Qed.

Lemma seeded_expenses_unlinked (id : number) (ts es : list Expense) :
  Forall2 expenseInstanceOf ts es → id ∉ e_id <$> ts →
  filter (λ e, e_recurringId e = Some id) es = [].
Proof.
  induction 1 as [|t e ts es Hte _ IH]; [done|]. simpl.
  intros Hid. apply not_elem_of_cons in Hid as [Hne Hid].
  rewrite filter_cons_False; [by apply IH|].
  destruct Hte as (-> & _). congruence.
Qed.

Lemma seeded_one_expense_per_template (st : State) (data : MonthlyData) :
  seededFrom st data → NoDup (e_id <$> recurringExpenses st) →
  ∀ t, t ∈ recurringExpenses st →
    ∃ inst, expensesLinkedTo (e_id t) data = [inst] ∧ expenseInstanceOf t inst.
Proof.
  intros (_ & Hseed & _). unfold expensesLinkedTo.
  induction Hseed as [|t0 e0 ts es Hte Hrest IH]; intros Hnodup t Ht.
  - by apply elem_of_nil in Ht.
  - simpl in Hnodup. apply NoDup_cons in Hnodup as [Hfresh Hnodup].
    apply elem_of_cons in Ht as [-> | Ht].
    + exists e0. split; [|done].
      rewrite filter_cons_True by apply Hte.
      by rewrite (seeded_expenses_unlinked _ ts es).
    + destruct (IH Hnodup t Ht) as (inst & Hinst & Hof).
      exists inst. split; [|done].
      rewrite filter_cons_False; [done|].
      destruct Hte as (-> & _). intros [= Heq]. apply Hfresh.
      rewrite Heq. by apply list_elem_of_fmap_2.
Qed.

(** ** Creating a template *)

Lemma filter_app_fresh {A} (P : A → Prop) `{∀ x, Decision (P x)} (l : list A) x :
  filter P l = [] → P x → filter P (l ++ [x]) = [x].
Proof.
  intros Hl HP. rewrite filter_app, Hl; simpl.
  rewrite filter_cons, decide_True by done. by rewrite filter_nil.
Qed.

(** C1. A valid submission of the form while no template is being edited
    creates the template [T] with id [now] at the pivot [P], the selected
    month. When [now] is fresh, that is when no instance of the list
    concerned is linked to it yet, then afterwards the store ends with [T],
    the same months are materialized, every one of them that is [>= P]
    holds exactly one instance linked to [T], and that instance is the
    projection of [T], and every one that is [< P] holds none. *)
Theorem create_template_propagates (form : RecurringForm) (now : number)
  (instId : string → number) (st : State) (amount : number) :
  editingRecurringTransaction st = None →
  f_amount form = Some amount →
  f_description form ≠ "" →
  (∀ k data, monthlyData st !! k = Some data →
     match recurringModalType st with
     | income => incomesLinkedTo now data = []
     | expense => expensesLinkedTo now data = []
     end) →
  let st' := handleRecurringFormSubmit form now instId st in
  let P := selectedMonth st in
  dom (monthlyData st') = dom (monthlyData st) ∧
  match recurringModalType st with
  | income =>
    let T := mkIncomeSource now (f_description form) amount None None in
    recurringIncomes st' = recurringIncomes st ++ [T] ∧
    ∀ k data', monthlyData st' !! k = Some data' →
      if str_ge k P
      then ∃ inst, incomesLinkedTo now data' = [inst] ∧ incomeInstanceOf T inst
      else incomesLinkedTo now data' = []
  | expense =>
    let T := mkExpense now (f_description form) amount (f_category form) None None in
    recurringExpenses st' = recurringExpenses st ++ [T] ∧
    ∀ k data', monthlyData st' !! k = Some data' →
      if str_ge k P
      then ∃ inst, expensesLinkedTo now data' = [inst] ∧ expenseInstanceOf T inst
      else expensesLinkedTo now data' = []
  end.
Proof.
  intros Hed Hamount Hdesc Hfresh st' P. subst st' P.
  unfold handleRecurringFormSubmit.
  rewrite Hamount, Hed, bool_decide_false by done.
  destruct (recurringModalType st) eqn:Htype; simpl.
  - split; [apply fromMonth_dom|]. split; [done|].
    intros k data'. rewrite fromMonth_lookup.
    destruct (monthlyData st !! k) as [data|] eqn:Hk; [|done].
    simpl. intros [= <-]. specialize (Hfresh k data Hk).
    destruct (str_ge k (selectedMonth st)); [|done].
    eexists. split.
    + unfold expensesLinkedTo; simpl. by apply filter_app_fresh.
    + done.
  - split; [apply fromMonth_dom|]. split; [done|].
    intros k data'. rewrite fromMonth_lookup.
    destruct (monthlyData st !! k) as [data|] eqn:Hk; [|done].
    simpl. intros [= <-]. specialize (Hfresh k data Hk).
    destruct (str_ge k (selectedMonth st)); [|done].
    eexists. split.
    + unfold incomesLinkedTo; simpl. by apply filter_app_fresh.
    + done.
Qed.

(** ** Deleting a template *)

(** C3. After the deletion of the template [id] of type [type] at the pivot
    [P], the selected month: the store of that type holds no template with
    that id and keeps its others, the other store is unchanged; every
    materialized month [>= P] holds, in the list of that type, no instance
    linked to [id] (all of them are removed) and keeps every other
    instance and its other lists; every materialized month [< P] is
    unchanged, the instances linked to [id] included. *)
Theorem delete_template_isolated (id : number) (type : TransactionType) (st : State) :
  let st' := handleDeleteRecurring id type st in
  let P := selectedMonth st in
  match type with
  | income =>
    Forall (λ t, i_id t ≠ id) (recurringIncomes st') ∧
    (∀ t, i_id t ≠ id → t ∈ recurringIncomes st' ↔ t ∈ recurringIncomes st) ∧
    recurringExpenses st' = recurringExpenses st
  | expense =>
    Forall (λ t, e_id t ≠ id) (recurringExpenses st') ∧
    (∀ t, e_id t ≠ id → t ∈ recurringExpenses st' ↔ t ∈ recurringExpenses st) ∧
    recurringIncomes st' = recurringIncomes st
  end ∧
  dom (monthlyData st') = dom (monthlyData st) ∧
  ∀ k data, monthlyData st !! k = Some data →
    ∃ data', monthlyData st' !! k = Some data' ∧
      if str_ge k P then
        match type with
        | income =>
          incomesLinkedTo id data' = [] ∧
          (∀ i, i_recurringId i ≠ Some id →
                i ∈ realIncome data' ↔ i ∈ realIncome data) ∧
          realIncome data' `sublist_of` realIncome data ∧
          plannedExpenses data' = plannedExpenses data ∧
          realExpenses data' = realExpenses data
        | expense =>
          expensesLinkedTo id data' = [] ∧
          (∀ e, e_recurringId e ≠ Some id →
                e ∈ plannedExpenses data' ↔ e ∈ plannedExpenses data) ∧
          plannedExpenses data' `sublist_of` plannedExpenses data ∧
          realIncome data' = realIncome data ∧
          realExpenses data' = realExpenses data
        end
      else data' = data.
Proof.
  intros st' P. subst st' P. split_and!.
  - destruct type; simpl.
    + split_and!; [|intros t Ht; rewrite list_elem_of_filter; tauto|done].
      apply Forall_forall. by intros t [? _]%list_elem_of_filter.
    + split_and!; [|intros t Ht; rewrite list_elem_of_filter; tauto|done].
      apply Forall_forall. by intros t [? _]%list_elem_of_filter.
  - destruct type; simpl; apply fromMonth_dom.
  - intros k data Hk.
    assert (∀ (A : Type) (Q : A → Prop) `{∀ x, Decision (Q x)} (l : list A),
               filter Q (filter (λ x, ¬ Q x) l) = []) as Hnone.
    { intros A Q ? l. induction l as [|x l IH]; [done|].
      rewrite (filter_cons (λ x, ¬ Q x)). destruct (decide (¬ Q x)); [|done].
      rewrite filter_cons, decide_False by done. done. }
    destruct type; simpl; rewrite fromMonth_lookup, Hk; simpl;
      eexists; (split; [done|]);
      destruct (str_ge k (selectedMonth st)); try done; simpl.
    + split_and!; [apply Hnone| |apply sublist_filter|destruct data; done..].
      intros e He. rewrite list_elem_of_filter. tauto.
    + split_and!; [apply Hnone| |apply sublist_filter|destruct data; done..].
      intros e He. rewrite list_elem_of_filter. tauto.
Qed.

(** ** Updating a template *)

Lemma filter_nil_Forall {A} (P : A → Prop) `{∀ x, Decision (P x)} (l : list A) :
  filter P l = [] ↔ Forall (λ x, ¬ P x) l.
Proof.
  rewrite Forall_forall. split.
  - intros Hnil x Hx HP. by eapply filter_nil_not_elem_of.
  - intros Hall. induction l as [|x l IH]; [done|].
    rewrite filter_cons, decide_False.
    + apply IH. intros y Hy. apply Hall. by right.
    + apply Hall. by left.
Qed.

Lemma filter_two_matches {A} (P : A → Prop) `{∀ x, Decision (P x)}
  (l : list A) n x :
  l !! n = Some x → P x → ¬ Forall (λ y, ¬ P y) (take n l) →
  2 ≤ length (filter P l).
Proof.
  intros Hn HP Hearlier.
  rewrite <- (take_drop_middle l n x Hn), filter_app, filter_cons_True by done.
  rewrite length_app; simpl.
  destruct (filter P (take n l)) eqn:Hf; [|simpl; lia].
  by apply filter_nil_Forall in Hf.
Qed.

Lemma firstUpdated_unique {A} (P Q : A → Prop) `{∀ x, Decision (P x)}
  (f : A → A) (l l' : list A) :
  firstUpdated P f l l' → length (filter P l) ≤ 1 → (∀ x, Q (f x)) →
  Forall (λ y, P y → Q y) l'.
Proof.
  intros [Hlen Hl'] Hone HQ. apply Forall_lookup. intros n y Hy HPy.
  destruct (lookup_lt_is_Some_2 l n) as [x Hx].
  { rewrite <- Hlen. by eapply lookup_lt_Some. }
  specialize (Hl' n x Hx). rewrite Hy in Hl'.
  destruct (decide (P x ∧ _)) as [?|Hnot]; [by simplify_eq|].
  assert (y = x) as -> by congruence.
  assert (2 ≤ length (filter P l)); [|lia].
  apply (filter_two_matches P l n x Hx HPy). intros ?. by apply Hnot.
Qed.

Lemma firstUpdated_exists {A} (P : A → Prop) `{∀ x, Decision (P x)}
  (f : A → A) (l l' : list A) :
  firstUpdated P f l l' → Exists P l → ∃ x, x ∈ l ∧ P x ∧ f x ∈ l'.
Proof.
  intros [_ Hl'] (x0 & Hx0 & HP0)%Exists_exists.
  destruct (list_find_elem_of P l x0 Hx0 HP0) as [[n x] Hfind].
  apply list_find_take_Forall in Hfind as (Hn & HP & Hbefore).
  exists x. split_and!; [by eapply list_elem_of_lookup_2|done|].
  specialize (Hl' n x Hn). rewrite decide_True in Hl' by done.
  by eapply list_elem_of_lookup_2.
Qed.

(** C2, as the code has it. A valid submission of the form while a template
    [id] of some type is being edited, at the pivot [P]: in the store of
    that type the first template with that id takes the new fields (so if
    such a template exists, the store then holds one with that id and the
    new fields) and the other store is unchanged; in every materialized
    month [>= P] the first instance of the list concerned that is linked to
    [id] takes the new description, amount and (for an expense) category
    and every other entry of the ledger is unchanged, hence every instance
    linked to [id] reflects the new fields when the month holds at most one
    of them; every materialized month [< P] is unchanged. *)
Theorem update_template_first_instance (form : RecurringForm) (now : number)
  (instId : string → number) (st : State) (ed : EditingRecurringTransaction)
  (amount : number) :
  editingRecurringTransaction st = Some ed →
  f_amount form = Some amount →
  f_description form ≠ "" →
  let id := editing_id ed in
  let description := f_description form in
  let category := f_category form in
  let st' := handleRecurringFormSubmit form now instId st in
  let P := selectedMonth st in
  match editing_type ed with
  | income =>
    firstUpdated (λ t, i_id t = id) (setIncomeFields description amount)
      (recurringIncomes st) (recurringIncomes st') ∧
    (Exists (λ t, i_id t = id) (recurringIncomes st) →
     ∃ t, t ∈ recurringIncomes st' ∧ i_id t = id ∧
          i_description t = description ∧ i_amount t = amount) ∧
    recurringExpenses st' = recurringExpenses st ∧
    ∀ k data, monthlyData st !! k = Some data →
      ∃ data', monthlyData st' !! k = Some data' ∧
        if str_ge k P then
          firstUpdated (λ i, i_recurringId i = Some id)
            (setIncomeFields description amount)
            (realIncome data) (realIncome data') ∧
          (length (incomesLinkedTo id data) ≤ 1 →
           Forall (λ i, i_recurringId i = Some id →
                        i_description i = description ∧ i_amount i = amount)
             (realIncome data')) ∧
          plannedExpenses data' = plannedExpenses data ∧
          realExpenses data' = realExpenses data
        else data' = data
  | expense =>
    firstUpdated (λ t, e_id t = id) (setExpenseFields description amount category)
      (recurringExpenses st) (recurringExpenses st') ∧
    (Exists (λ t, e_id t = id) (recurringExpenses st) →
     ∃ t, t ∈ recurringExpenses st' ∧ e_id t = id ∧
          e_description t = description ∧ e_amount t = amount ∧
          e_category t = category) ∧
    recurringIncomes st' = recurringIncomes st ∧
    ∀ k data, monthlyData st !! k = Some data →
      ∃ data', monthlyData st' !! k = Some data' ∧
        if str_ge k P then
          firstUpdated (λ e, e_recurringId e = Some id)
            (setExpenseFields description amount category)
            (plannedExpenses data) (plannedExpenses data') ∧
          (length (expensesLinkedTo id data) ≤ 1 →
           Forall (λ e, e_recurringId e = Some id →
                        e_description e = description ∧ e_amount e = amount ∧
                        e_category e = category)
             (plannedExpenses data')) ∧
          realIncome data' = realIncome data ∧
          realExpenses data' = realExpenses data
        else data' = data
  end.
Proof.
  intros Hed Hamount Hdesc id description category st' P.
  subst st' P. unfold handleRecurringFormSubmit.
  rewrite Hamount, Hed, bool_decide_false by done.
  fold id description category.
  destruct (editing_type ed); simpl.
  - split_and!; [apply updateAtFirst_firstUpdated| |done|].
    + intros Hex.
      destruct (firstUpdated_exists _ (setExpenseFields description amount category)
                  _ _ (updateAtFirst_firstUpdated _ _ _) Hex) as (x & _ & Hx & Hin).
      eexists; split; [exact Hin|]. by simpl.
    + intros k data Hk. rewrite fromMonth_lookup, Hk; simpl.
      eexists; split; [done|].
      destruct (str_ge k (selectedMonth st)); [|done]. simpl.
      split_and!; [apply updateAtFirst_firstUpdated| |done..].
      intros Hone. eapply firstUpdated_unique;
        [apply updateAtFirst_firstUpdated|done|done].
  - split_and!; [apply updateAtFirst_firstUpdated| |done|].
    + intros Hex.
      destruct (firstUpdated_exists _ (setIncomeFields description amount)
                  _ _ (updateAtFirst_firstUpdated _ _ _) Hex) as (x & _ & Hx & Hin).
      eexists; split; [exact Hin|]. by simpl.
    + intros k data Hk. rewrite fromMonth_lookup, Hk; simpl.
      eexists; split; [done|].
      destruct (str_ge k (selectedMonth st)); [|done]. simpl.
      split_and!; [apply updateAtFirst_firstUpdated| |done..].
      intros Hone. eapply firstUpdated_unique;
        [apply updateAtFirst_firstUpdated|done|done].
Qed.

(** C6, as the code has it. A valid submission of the form while the
    template being edited is no longer in the store of its type, at the
    pivot [P]: the handler signals nothing (its result is a state); both
    stores and the categories are unchanged; every materialized month that
    is [< P], or that holds no instance linked to that id in the list
    concerned, is unchanged; so the whole timeline is unchanged when no
    month [>= P] holds such an instance. *)
Theorem update_missing_template (form : RecurringForm) (now : number)
  (instId : string → number) (st : State) (ed : EditingRecurringTransaction)
  (amount : number) :
  editingRecurringTransaction st = Some ed →
  f_amount form = Some amount →
  f_description form ≠ "" →
  match editing_type ed with
  | income => Forall (λ t, i_id t ≠ editing_id ed) (recurringIncomes st)
  | expense => Forall (λ t, e_id t ≠ editing_id ed) (recurringExpenses st)
  end →
  let unlinked (data : MonthlyData) : Prop :=
    match editing_type ed with
    | income => incomesLinkedTo (editing_id ed) data = []
    | expense => expensesLinkedTo (editing_id ed) data = []
    end in
  let st' := handleRecurringFormSubmit form now instId st in
  let P := selectedMonth st in
  recurringIncomes st' = recurringIncomes st ∧
  recurringExpenses st' = recurringExpenses st ∧
  categories st' = categories st ∧
  (∀ k data, monthlyData st !! k = Some data →
     str_ge k P = false ∨ unlinked data → monthlyData st' !! k = Some data) ∧
  ((∀ k data, monthlyData st !! k = Some data → str_ge k P = true →
              unlinked data) →
   monthlyData st' = monthlyData st).
Proof.
  intros Hed Hamount Hdesc Hmissing unlinked st' P.
  assert (∀ (A : Type) (Q : A → Prop) `{∀ x, Decision (Q x)} (f : A → A) l,
            Forall (λ x, ¬ Q x) l → updateAtFirst Q f l = l) as Hsame.
  { intros A Q ? f l Hl. eapply firstUpdated_none; [done|].
    apply updateAtFirst_firstUpdated. }
  assert (∀ k data, monthlyData st !! k = Some data →
            str_ge k P = false ∨ unlinked data →
            monthlyData st' !! k = Some data) as Hmonths.
  { subst st' P unlinked. unfold handleRecurringFormSubmit.
    rewrite Hamount, Hed, bool_decide_false by done.
    intros k data Hk Hcase.
    destruct (editing_type ed); simpl; rewrite fromMonth_lookup, Hk; simpl;
      f_equal; destruct Hcase as [-> | Hnone]; try done;
      destruct (str_ge k (selectedMonth st)); try done;
      rewrite Hsame; [by destruct data| |by destruct data|].
    - by apply (filter_nil_Forall (λ e, e_recurringId e = Some (editing_id ed))).
    - by apply (filter_nil_Forall (λ i, i_recurringId i = Some (editing_id ed))). }
  split_and!; [| | |done|].
  - subst st'. unfold handleRecurringFormSubmit.
    rewrite Hamount, Hed, bool_decide_false by done.
    destruct (editing_type ed); simpl; [done|]. by apply Hsame.
  - subst st'. unfold handleRecurringFormSubmit.
    rewrite Hamount, Hed, bool_decide_false by done.
    destruct (editing_type ed); simpl; [|done]. by apply Hsame.
  - subst st'. unfold handleRecurringFormSubmit.
    rewrite Hamount, Hed, bool_decide_false by done.
    by destruct (editing_type ed).
  - intros Hnolink. apply map_eq. intros k.
    destruct (monthlyData st !! k) as [data|] eqn:Hk.
    + apply Hmonths; [done|].
      destruct (str_ge k P) eqn:Hge; [right|by left]. by eapply Hnolink.
    + subst st'. unfold handleRecurringFormSubmit.
      rewrite Hamount, Hed, bool_decide_false by done.
      destruct (editing_type ed); simpl; by rewrite fromMonth_lookup, Hk.
Qed.

(** ** The category-deletion guard *)

Lemma existsb_elem_of {A} (f : A → bool) (l : list A) :
  existsb f l = true ↔ ∃ x, x ∈ l ∧ f x = true.
Proof.
  rewrite existsb_exists. by setoid_rewrite list_elem_of_In.
Qed.

Lemma isUsedInPlanned_spec (categoryName : string) (st : State) :
  isUsedInPlanned categoryName st = true ↔
  ∃ k data e, monthlyData st !! k = Some data ∧
              e ∈ plannedExpenses data ∧ e_category e = categoryName.
Proof.
  unfold isUsedInPlanned. rewrite existsb_elem_of. split.
  - intros ([k data] & Hkd%elem_of_map_to_list & (e & He & Hc)%existsb_elem_of).
    exists k, data, e. by apply bool_decide_eq_true in Hc.
  - intros (k & data & e & Hk & He & Hc). exists (k, data). split.
    + by apply elem_of_map_to_list.
    + apply existsb_elem_of. exists e. by rewrite bool_decide_eq_true.
Qed.

Lemma isUsedInReal_spec (categoryName : string) (st : State) :
  isUsedInReal categoryName st = true ↔
  ∃ k data e, monthlyData st !! k = Some data ∧
              e ∈ realExpenses data ∧ r_linkedCategory e = categoryName.
Proof.
  unfold isUsedInReal. rewrite existsb_elem_of. split.
  - intros ([k data] & Hkd%elem_of_map_to_list & (e & He & Hc)%existsb_elem_of).
    exists k, data, e. by apply bool_decide_eq_true in Hc.
  - intros (k & data & e & Hk & He & Hc). exists (k, data). split.
    + by apply elem_of_map_to_list.
    + apply existsb_elem_of. exists e. by rewrite bool_decide_eq_true.
Qed.

Lemma isUsedInRecurring_spec (categoryName : string) (st : State) :
  isUsedInRecurring categoryName st = true ↔
  ∃ e, e ∈ recurringExpenses st ∧ e_category e = categoryName.
Proof.
  unfold isUsedInRecurring. rewrite existsb_elem_of.
  by setoid_rewrite bool_decide_eq_true.
Qed.

(** A usage class is listed exactly when its test, which [Hb] relates to the
    proposition [Q], succeeded. *)
Ltac usage_iff Hb :=
  split;
  [ first [ intros _; by apply Hb
          | intros Hin; exfalso; revert Hin; compute_done ]
  | first [ intros _; compute_done
          | intros HQ; by apply Hb in HQ ] ].

(** C5, as the code has it. The deletion of a category is refused with
    [CategoryInUse] if and only if some planned expense of a materialized
    month, some real expense of a materialized month or some recurring
    expense template refers to the name; the refusal leaves the state
    unchanged and lists exactly the usage classes that matched, each once.
    When none matches, the user is asked to confirm: on a yes the registry
    loses every category of that name, keeps the others in their order,
    and nothing else changes; on a no the state is unchanged. *)
Theorem delete_category_guard (categoryName : string) (confirmed : bool)
  (st : State) :
  let usedInPlanned :=
    ∃ k data e, monthlyData st !! k = Some data ∧
                e ∈ plannedExpenses data ∧ e_category e = categoryName in
  let usedInReal :=
    ∃ k data e, monthlyData st !! k = Some data ∧
                e ∈ realExpenses data ∧ r_linkedCategory e = categoryName in
  let usedInRecurring :=
    ∃ e, e ∈ recurringExpenses st ∧ e_category e = categoryName in
  let st' := (handleDeleteCategory categoryName confirmed st).1 in
  let outcome := (handleDeleteCategory categoryName confirmed st).2 in
  ((∃ usageInfo, outcome = CategoryInUse usageInfo) ↔
   usedInPlanned ∨ usedInReal ∨ usedInRecurring) ∧
  (∀ usageInfo, outcome = CategoryInUse usageInfo →
     st' = st ∧ NoDup usageInfo ∧
     (PlannedUsage ∈ usageInfo ↔ usedInPlanned) ∧
     (RealUsage ∈ usageInfo ↔ usedInReal) ∧
     (RecurringUsage ∈ usageInfo ↔ usedInRecurring)) ∧
  (¬ (usedInPlanned ∨ usedInReal ∨ usedInRecurring) →
   if confirmed then
     outcome = CategoryDeleted ∧
     Forall (λ c, name c ≠ categoryName) (categories st') ∧
     (∀ c, name c ≠ categoryName → c ∈ categories st' ↔ c ∈ categories st) ∧
     categories st' `sublist_of` categories st ∧
     st' = with_categories st (categories st')
   else outcome = NotConfirmed ∧ st' = st).
Proof.
  intros usedInPlanned usedInReal usedInRecurring st' outcome.
  pose proof (isUsedInPlanned_spec categoryName st) as HP.
  pose proof (isUsedInReal_spec categoryName st) as HR.
  pose proof (isUsedInRecurring_spec categoryName st) as HT.
  fold usedInPlanned in HP. fold usedInReal in HR. fold usedInRecurring in HT.
  clearbody usedInPlanned usedInReal usedInRecurring.
  subst st' outcome. unfold handleDeleteCategory.
  destruct (isUsedInPlanned categoryName st), (isUsedInReal categoryName st),
    (isUsedInRecurring categoryName st); simpl.
  1-7: split_and!;
    [ split; [intros _; tauto|by eexists]
    | intros usageInfo [= <-]; split_and!;
        [ done | compute_done | usage_iff HP | usage_iff HR | usage_iff HT ]
    | tauto ].
  assert (¬ (usedInPlanned ∨ usedInReal ∨ usedInRecurring)) as Hunused.
  { intros [HQ|[HQ|HQ]]; [apply HP in HQ|apply HR in HQ|apply HT in HQ]; done. }
  split_and!.
  - split; [|done]. intros [usageInfo Hout]. by destruct confirmed.
  - intros usageInfo Hout. by destruct confirmed.
  - intros _. destruct confirmed; simpl; [|done].
    split_and!; [done| | |apply sublist_filter|done].
    + apply Forall_forall. by intros c [? _]%list_elem_of_filter.
    + intros c Hc. rewrite list_elem_of_filter. tauto.
Qed.

(** ** The category registry *)

Section Registry.
Variable toLowerCase : string → string.
Variable trim : string → string.
Variable localeCompare : string → string → Z.

Lemma insertCategory_Permutation (c : Category) (l : list Category) :
  insertCategory localeCompare c l ≡ₚ c :: l.
Proof.
  induction l as [|d l IH]; simpl; [done|].
  case_bool_decide; [|done]. rewrite IH. apply Permutation_swap.
Qed.

Lemma sortCategoryList_Permutation (l : list Category) :
  sortCategoryList localeCompare l ≡ₚ l.
Proof.
  induction l as [|c l IH]; simpl; [done|].
  by rewrite insertCategory_Permutation, IH.
Qed.

Section Consistent.
(** The comparator never answers that both [a > b] and [b > a] hold. *)
Hypothesis localeCompare_consistent :
  ∀ a b, (0 ≤ localeCompare a b)%Z → (localeCompare b a ≤ 0)%Z.

Lemma insertCategory_HdRel (d c : Category) (l : list Category) :
  HdRel (nameLe localeCompare) d l → (nameLe localeCompare) d c → HdRel (nameLe localeCompare) d (insertCategory localeCompare c l).
Proof.
  intros Hd Hdc. destruct l as [|e l]; simpl; [by constructor|].
  case_bool_decide; constructor; [|done]. by inversion Hd.
Qed.

Lemma insertCategory_Sorted (c : Category) (l : list Category) :
  Sorted (nameLe localeCompare) l → Sorted (nameLe localeCompare) (insertCategory localeCompare c l).
Proof.
  induction 1 as [|d l Hl IH Hd]; simpl.
  - by repeat constructor.
  - case_bool_decide as Hlt.
    + constructor; [done|]. apply insertCategory_HdRel; [done|].
      unfold nameLe. lia.
    + constructor; [by constructor|]. constructor.
      apply localeCompare_consistent. lia.
Qed.

Lemma sortCategoryList_Sorted (l : list Category) :
  Sorted (nameLe localeCompare) (sortCategoryList localeCompare l).
Proof.
  induction l as [|c l IH]; simpl; [constructor|].
  by apply insertCategory_Sorted.
Qed.

End Consistent.

(** C8, as the code has it. Adding a category is refused, with the one
    message for an invalid or an already existing name, if and only if the
    trimmed name is empty or equals the name of an existing category once
    both are put in lower case; a refusal leaves the state unchanged. On
    success the registry holds the former categories and the new one, the
    rest of the state is unchanged, and, when the comparator is
    consistent, the registry is ordered by name under [localeCompare]. *)
Theorem add_category_guard (value : string) (st : State) :
  let name' := trim value in
  let duplicate :=
    ∃ c, c ∈ categories st ∧ toLowerCase (name c) = toLowerCase name' in
  let st' := (handleAddCategory toLowerCase trim localeCompare value st).1 in
  let alert := (handleAddCategory toLowerCase trim localeCompare value st).2 in
  (alert = Some InvalidOrDuplicateCategory ↔ name' = "" ∨ duplicate) ∧
  (alert ≠ None → st' = st) ∧
  (alert = None →
     categories st' ≡ₚ categories st ++ [mkCategory name' defaultColor] ∧
     st' = with_categories st (categories st') ∧
     ((∀ a b, (0 ≤ localeCompare a b)%Z → (localeCompare b a ≤ 0)%Z) →
      Sorted (nameLe localeCompare) (categories st'))).
Proof.
  intros name' duplicate st' alert. subst st' alert.
  unfold handleAddCategory. fold name'.
  assert (bool_decide (Exists (λ c, toLowerCase (name c) = toLowerCase name')
                         (categories st)) = true ↔ duplicate) as Hdup.
  { rewrite bool_decide_eq_true, Exists_exists. done. }
  destruct (bool_decide (Exists _ (categories st))); simpl.
  - rewrite andb_false_r; simpl. split_and!; [|done..].
    split; [intros _; right; by apply Hdup|done].
  - rewrite andb_true_r. case_bool_decide as Hname; simpl.
    + split_and!; [|done|].
      * split; [done|]. intros [?|Hd]; [done|]. by apply Hdup in Hd.
      * intros _. split_and!; [apply sortCategoryList_Permutation|done|].
        intros Hcons. by apply sortCategoryList_Sorted.
    + split_and!; [|done..]. split; [|done]. intros _. left.
      by destruct (decide (name' = "")).
Qed.

(** C10. A category that [handleAddCategory] creates (its only argument is
    the name) has the colour ["#94a3b8"], and the categories that were
    there keep theirs. Afterwards the colour of a category changes only in
    [handleColorChange], which gives the new colour to the first category
    of the given (non-empty) name and touches nothing else: sorting
    permutes the entries, the deletion of a category only removes entries,
    and the recurring-template handlers and the materialization of months
    leave the registry as it is. *)
Theorem category_color_lifecycle :
  (∀ value st,
     let st' := (handleAddCategory toLowerCase trim localeCompare value st).1 in
     (handleAddCategory toLowerCase trim localeCompare value st).2 = None →
     mkCategory (trim value) "#94a3b8" ∈ categories st' ∧
     ∀ c, c ∈ categories st' ↔
          c ∈ categories st ∨ c = mkCategory (trim value) "#94a3b8") ∧
  (∀ categoryName newColor st,
     let st' := handleColorChange categoryName newColor st in
     firstUpdated (λ c, categoryName ≠ "" ∧ name c = categoryName)
       (λ c, mkCategory categoryName newColor)
       (categories st) (categories st') ∧
     st' = with_categories st (categories st')) ∧
  (∀ st c, c ∈ categories (sortCategories localeCompare st) ↔ c ∈ categories st) ∧
  (∀ categoryName confirmed st c,
     c ∈ categories (handleDeleteCategory categoryName confirmed st).1 →
     c ∈ categories st) ∧
  (∀ form now instId st,
     categories (handleRecurringFormSubmit form now instId st) = categories st) ∧
  (∀ id type st, categories (handleDeleteRecurring id type st) = categories st) ∧
  (∀ idI idE k st, categories (navigateMonth idI idE k st) = categories st) ∧
  (∀ idI idE st, categories (ensureCurrentMonth idI idE st) = categories st).
Proof.
  split_and!.
  - intros value st st' Hok. subst st'.
    unfold handleAddCategory in *.
    destruct (_ && _); [|done]. simpl.
    assert (∀ c, c ∈ sortCategoryList localeCompare
                   (categories st ++ [mkCategory (trim value) defaultColor]) ↔
                 c ∈ categories st ∨ c = mkCategory (trim value) defaultColor)
      as Hin.
    { intros c. rewrite sortCategoryList_Permutation, elem_of_app, list_elem_of_singleton.
      done. }
    split; [|done]. apply Hin. by right.
  - intros categoryName newColor st st'. subst st'.
    unfold handleColorChange. case_bool_decide as Hempty.
    + split; [|by destruct st]. split; [done|]. intros n x Hx.
      rewrite decide_False; [done|]. by intros [[? _] _].
    + split; [|done]. simpl.
      pose proof (updateAtFirst_firstUpdated (λ c, name c = categoryName)
                    (λ c, mkCategory (name c) newColor) (categories st))
        as [Hlen Hl].
      split; [done|]. intros n x Hx. rewrite (Hl n x Hx).
      destruct (decide (name x = categoryName ∧ _)) as [[<- Hbefore]|Hnot].
      * rewrite decide_True; [done|]. split; [done|].
        eapply Forall_impl; [exact Hbefore|]. simpl. tauto.
      * rewrite decide_False; [done|]. intros [[_ Hx'] Hbefore]. apply Hnot.
        split; [done|]. eapply Forall_impl; [exact Hbefore|]. simpl. tauto.
  - intros st c. simpl. by rewrite sortCategoryList_Permutation.
  - intros categoryName confirmed st c. unfold handleDeleteCategory.
    destruct (_ || _); [done|]. destruct confirmed; [|done]. simpl.
    by intros [_ ?]%list_elem_of_filter.
  - intros form now instId st. unfold handleRecurringFormSubmit.
    destruct (f_amount form); [|done]. case_bool_decide; [done|].
    destruct (editingRecurringTransaction st) as [ed|].
    + by destruct (editing_type ed).
    + by destruct (recurringModalType st).
  - intros id type st. by destruct type.
  - intros idI idE k st. unfold navigateMonth, ensureMonth; simpl.
    by destruct (monthlyData st !! k).
  - intros idI idE st. unfold ensureCurrentMonth, ensureMonth.
    by destruct (monthlyData st !! selectedMonth st).
Qed.

End Registry.

(** ** Migration on load *)

Lemma migrateMonth_settled (month : gmap string jsval) :
  settled month → migrateMonth month = month.
Proof.
  intros [Hreal Hplanned]. unfold migrateMonth.
  assert (match month !! "expenses" with
          | Some v =>
            if truthy v && negb (truthyProp month "plannedExpenses")
            then delete "expenses" (<["plannedExpenses" := v]> month)
            else month
          | None => month
          end = month) as ->.
  { unfold truthyProp in Hplanned at 1.
    destruct (month !! "expenses") as [v|]; [|done].
    destruct Hplanned as [-> | ->]; [done|]. by rewrite andb_false_r. }
  by rewrite Hreal.
Qed.

Lemma migrateMonth_is_settled (month : gmap string jsval) :
  settled (migrateMonth month).
Proof.
  unfold migrateMonth, settled.
  destruct (month !! "expenses") as [v|] eqn:Hexp.
  - destruct (truthy v) eqn:Hv; simpl.
    + destruct (truthyProp month "plannedExpenses") eqn:Hpl; simpl.
      * destruct (truthyProp month "realExpenses") eqn:Hre; simpl.
        -- auto.
        -- unfold truthyProp in *. simplify_map_eq. auto.
      * assert (truthyProp (delete "expenses" (<["plannedExpenses" := v]> month))
                  "realExpenses" = truthyProp month "realExpenses") as ->.
        { unfold truthyProp. by simplify_map_eq. }
        destruct (truthyProp month "realExpenses") eqn:Hre; simpl.
        -- split; [|left]; unfold truthyProp in *; by simplify_map_eq.
        -- split; [|left]; unfold truthyProp in *; by simplify_map_eq.
    + destruct (truthyProp month "realExpenses") eqn:Hre; simpl.
      * split; [done|left]. unfold truthyProp. by rewrite Hexp.
      * split; [|left]; unfold truthyProp in *; by simplify_map_eq.
  - destruct (truthyProp month "realExpenses") eqn:Hre; simpl.
    + split; [done|left]. unfold truthyProp. by rewrite Hexp.
    + split; [|left]; unfold truthyProp in *; by simplify_map_eq.
Qed.

Lemma migrateMonth_idempotent (month : gmap string jsval) :
  migrateMonth (migrateMonth month) = migrateMonth month.
Proof. apply migrateMonth_settled, migrateMonth_is_settled. Qed.

Lemma migrateMonth_other_field (month : gmap string jsval) (p : string) :
  p ≠ "expenses" → p ≠ "plannedExpenses" → p ≠ "realExpenses" →
  migrateMonth month !! p = month !! p.
Proof.
  intros ???. unfold migrateMonth.
  destruct (month !! "expenses") as [v|]; [destruct (_ && _)|];
    destruct (negb _); by simplify_map_eq.
Qed.

(** What the migration does to a legacy ledger. *)
Lemma migrateMonth_renames (month : gmap string jsval) (items : list jsval) :
  month !! "expenses" = Some (JArr items) →
  month !! "plannedExpenses" = None →
  migrateMonth month !! "plannedExpenses" = Some (JArr items) ∧
  migrateMonth month !! "expenses" = None.
Proof.
  intros Hexp Hpl. unfold migrateMonth, truthyProp. rewrite Hexp, Hpl; simpl.
  destruct (delete _ _ !! "realExpenses") as [w|]; [destruct (truthy w)|];
    simpl; by simplify_map_eq.
Qed.

Lemma migrateMonth_adds (month : gmap string jsval) :
  month !! "realExpenses" = None →
  migrateMonth month !! "realExpenses" = Some (JArr []).
Proof.
  intros Hre. unfold migrateMonth, truthyProp.
  destruct (month !! "expenses") as [v|]; [destruct (_ && _)|];
    simplify_map_eq; by simplify_map_eq.
Qed.

(** C7. The migration renames a legacy [expenses] list to [plannedExpenses]
    when [plannedExpenses] is absent and adds an empty [realExpenses] list
    when it is missing. It is idempotent on every map of persisted ledgers,
    and it is not destructive: a ledger whose [plannedExpenses] and
    [realExpenses] hold lists (or any other value that counts as true) is
    left exactly as it is, the properties other than [expenses],
    [plannedExpenses] and [realExpenses] keep their values in every ledger,
    and no month is added or lost. *)
Theorem migration_idempotent_nondestructive
  (md : gmap string (gmap string jsval)) :
  migrate (migrate md) = migrate md ∧
  (∀ k month, md !! k = Some month →
     truthyProp month "plannedExpenses" = true →
     truthyProp month "realExpenses" = true →
     migrate md !! k = Some month) ∧
  (∀ k month p, md !! k = Some month →
     p ≠ "expenses" → p ≠ "plannedExpenses" → p ≠ "realExpenses" →
     ∃ month', migrate md !! k = Some month' ∧ month' !! p = month !! p) ∧
  (∀ k month items, md !! k = Some month →
     month !! "expenses" = Some (JArr items) →
     month !! "plannedExpenses" = None →
     ∃ month', migrate md !! k = Some month' ∧
               month' !! "plannedExpenses" = Some (JArr items) ∧
               month' !! "expenses" = None) ∧
  (∀ k month, md !! k = Some month →
     month !! "realExpenses" = None →
     ∃ month', migrate md !! k = Some month' ∧
               month' !! "realExpenses" = Some (JArr [])) ∧
  dom (migrate md) = dom md.
Proof.
  unfold migrate. split_and!.
  - rewrite <- map_fmap_compose. apply map_fmap_ext.
    intros k month _. apply migrateMonth_idempotent.
  - intros k month Hk Hpl Hre. rewrite lookup_fmap, Hk; simpl.
    f_equal. apply migrateMonth_settled. split; auto.
  - intros k month p Hk ???. rewrite lookup_fmap, Hk; simpl.
    eexists; split; [done|]. by apply migrateMonth_other_field.
  - intros k month items Hk Hexp Hpl. rewrite lookup_fmap, Hk; simpl.
    eexists; split; [done|]. by apply migrateMonth_renames.
  - intros k month Hk Hre. rewrite lookup_fmap, Hk; simpl.
    eexists; split; [done|]. by apply migrateMonth_adds.
  - apply dom_fmap_L.
Qed.

(** A list is a value that counts as true, so the theorem covers the
    ledgers that have both lists. *)
Lemma truthyProp_array (month : gmap string jsval) (p : string) items :
  month !! p = Some (JArr items) → truthyProp month p = true.
Proof. intros Hp. unfold truthyProp. by rewrite Hp. Qed.

(** ** Loading the persisted blobs *)

Lemma blobValue_yields {T} (parse : string → Parsed T) blob v :
  blobYields parse blob v → blobValue parse blob = Some v.
Proof.
  intros (savedData & -> & Hne & Hparse). unfold blobValue.
  by rewrite bool_decide_false, Hparse.
Qed.

Lemma blobValue_unusable {T} (parse : string → Parsed T) blob :
  blobUnusable parse blob → blobValue parse blob = None.
Proof.
  intros [-> | [-> | (savedData & -> & Hparse)]]; [done..|].
  unfold blobValue. rewrite Hparse. by case_bool_decide.
Qed.

Lemma blobValue_falsy {T} (parse : string → Parsed T) blob :
  blobFalsy parse blob → blobValue parse blob = None.
Proof.
  intros (savedData & -> & Hne & Hparse). unfold blobValue.
  by rewrite bool_decide_false, Hparse.
Qed.

(** A blob is in exactly one of the three situations of [loadFromStorage]:
    it gives no value, it parses to a value that is false as a condition,
    or it parses to a value of the type. *)
Lemma blob_cases {T} (parse : string → Parsed T) (blob : option string) :
  blobUnusable parse blob ∨ blobFalsy parse blob ∨ ∃ v, blobYields parse blob v.
Proof.
  destruct blob as [savedData|]; [|by left; left].
  destruct (decide (savedData = "")) as [->|Hne]; [by left; right; left|].
  destruct (parse savedData) as [| |v] eqn:Hparse.
  - left. right. right. by exists savedData.
  - right. left. by exists savedData.
  - right. right. exists v. by exists savedData.
Qed.

Lemma loadFromStorage_value {T} (parse : string → Parsed T) (key : string)
  (storage : gmap string string) :
  (loadFromStorage parse key storage).1 = blobValue parse (storage !! key).
Proof.
  unfold loadFromStorage, blobValue.
  destruct (storage !! key) as [savedData|]; [|done].
  case_bool_decide; [done|]. by destruct (parse savedData).
Qed.

(** Loading one key leaves the blobs of the other keys in place. *)
Lemma loadFromStorage_other {T} (parse : string → Parsed T) (key key' : string)
  (storage : gmap string string) :
  key ≠ key' → (loadFromStorage parse key storage).2 !! key' = storage !! key'.
Proof.
  intros Hne. unfold loadFromStorage.
  destruct (storage !! key) as [savedData|]; [|done].
  case_bool_decide; [done|].
  destruct (parse savedData); [|done..]. simpl. by rewrite lookup_delete_ne.
Qed.

(** A blob that does not parse is removed from the storage. *)
Lemma loadFromStorage_removes {T} (parse : string → Parsed T) (key : string)
  (storage : gmap string string) savedData :
  storage !! key = Some savedData → savedData ≠ "" →
  parse savedData = ParseThrows →
  (loadFromStorage parse key storage).2 = delete key storage.
Proof.
  intros Hkey Hne Hparse. unfold loadFromStorage.
  by rewrite Hkey, bool_decide_false, Hparse.
Qed.

(** A blob that parses, to whatever value, stays in the storage. *)
Lemma loadFromStorage_keeps {T} (parse : string → Parsed T) (key : string)
  (storage : gmap string string) :
  (blobFalsy parse (storage !! key) ∨ ∃ v, blobYields parse (storage !! key) v) →
  (loadFromStorage parse key storage).2 = storage.
Proof.
  unfold loadFromStorage.
  intros [(savedData & -> & Hne & Hparse)|(v & savedData & -> & Hne & Hparse)];
    by rewrite bool_decide_false, Hparse.
Qed.

Section Loading.
Variable localeCompare : string → string → Z.
Variable parseIncomes : string → Parsed (list IncomeSource).
Variable parseExpenses : string → Parsed (list Expense).
Variable parseCategories : string → Parsed (list Category).
Variable parseMonthlyData : string → Parsed (gmap string (gmap string jsval)).

Local Abbreviation restore :=
  (initializeState localeCompare parseIncomes parseExpenses parseCategories
     parseMonthlyData).

Lemma initializeState_by_blob (storage : gmap string string) :
  rs_recurringIncomes (restore storage) =
    default [] (blobValue parseIncomes (storage !! "recurringIncomes")) ∧
  rs_recurringExpenses (restore storage) =
    default [] (blobValue parseExpenses (storage !! "recurringExpenses")) ∧
  rs_categories (restore storage) =
    sortCategoryList localeCompare
      (default defaultCategories
         (blobValue parseCategories (storage !! "categories"))) ∧
  rs_monthlyData (restore storage) =
    migrate (default ∅ (blobValue parseMonthlyData (storage !! "monthlyData"))).
Proof.
  unfold initializeState.
  destruct (loadFromStorage parseIncomes "recurringIncomes" storage)
    as [incomes storage1] eqn:E1.
  destruct (loadFromStorage parseExpenses "recurringExpenses" storage1)
    as [expenses storage2] eqn:E2.
  destruct (loadFromStorage parseCategories "categories" storage2)
    as [cats storage3] eqn:E3.
  destruct (loadFromStorage parseMonthlyData "monthlyData" storage3)
    as [months storage4] eqn:E4.
  simpl.
  assert (∀ key', "recurringIncomes" ≠ key' → storage1 !! key' = storage !! key')
    as O1.
  { intros key' ?.
    rewrite <- (loadFromStorage_other parseIncomes "recurringIncomes" key' storage)
      by done. by rewrite E1. }
  assert (∀ key', "recurringExpenses" ≠ key' → storage2 !! key' = storage1 !! key')
    as O2.
  { intros key' ?.
    rewrite <- (loadFromStorage_other parseExpenses "recurringExpenses" key' storage1)
      by done. by rewrite E2. }
  assert (∀ key', "categories" ≠ key' → storage3 !! key' = storage2 !! key')
    as O3.
  { intros key' ?.
    rewrite <- (loadFromStorage_other parseCategories "categories" key' storage2)
      by done. by rewrite E3. }
  apply (f_equal fst) in E1, E2, E3, E4.
  rewrite loadFromStorage_value in E1. rewrite loadFromStorage_value in E2.
  rewrite loadFromStorage_value in E3. rewrite loadFromStorage_value in E4.
  simpl in *.
  rewrite O1 in E2 by done.
  rewrite O2, O1 in E3 by done.
  rewrite O3, O2, O1 in E4 by done.
  by subst.
Qed.

(** C9, as the code has it. Each of the four blobs decides its own part of
    the restored state, whatever the other three blobs are. A blob that
    parses to a value of its type gives that value (sorted by name for the
    categories, migrated for the ledgers). A blob that is absent, empty or
    does not parse gives the default, and so does a blob that parses to a
    value that is false as a condition, such as [null]: the empty list,
    the empty map, and for the categories the sorted seed list. The
    categories blob is always in one of these three situations, so the
    seed list is installed in the last two and never when the blob parses
    to a list, the empty one included. *)
Theorem blobs_load_independently (storage : gmap string string) :
  let restored := restore storage in
  ((∀ v, blobYields parseIncomes (storage !! "recurringIncomes") v →
         rs_recurringIncomes restored = v) ∧
   (blobUnusable parseIncomes (storage !! "recurringIncomes") ∨
    blobFalsy parseIncomes (storage !! "recurringIncomes") →
    rs_recurringIncomes restored = [])) ∧
  ((∀ v, blobYields parseExpenses (storage !! "recurringExpenses") v →
         rs_recurringExpenses restored = v) ∧
   (blobUnusable parseExpenses (storage !! "recurringExpenses") ∨
    blobFalsy parseExpenses (storage !! "recurringExpenses") →
    rs_recurringExpenses restored = [])) ∧
  ((∀ v, blobYields parseCategories (storage !! "categories") v →
         rs_categories restored = sortCategoryList localeCompare v) ∧
   (blobYields parseCategories (storage !! "categories") [] →
    rs_categories restored = []) ∧
   (blobUnusable parseCategories (storage !! "categories") ∨
    blobFalsy parseCategories (storage !! "categories") →
    rs_categories restored = sortCategoryList localeCompare defaultCategories) ∧
   (blobUnusable parseCategories (storage !! "categories") ∨
    blobFalsy parseCategories (storage !! "categories") ∨
    ∃ v, blobYields parseCategories (storage !! "categories") v)) ∧
  ((∀ v, blobYields parseMonthlyData (storage !! "monthlyData") v →
         rs_monthlyData restored = migrate v) ∧
   (blobUnusable parseMonthlyData (storage !! "monthlyData") ∨
    blobFalsy parseMonthlyData (storage !! "monthlyData") →
    rs_monthlyData restored = ∅)).
Proof.
  intros restored. subst restored.
  destruct (initializeState_by_blob storage) as (-> & -> & -> & ->).
  assert (∀ T (parse : string → Parsed T) blob,
            blobUnusable parse blob ∨ blobFalsy parse blob →
            blobValue parse blob = None) as Hdefault.
  { intros T parse blob [Hno|Hfalsy];
      [by apply blobValue_unusable|by apply blobValue_falsy]. }
  split_and!.
  - intros v Hv. by rewrite (blobValue_yields _ _ _ Hv).
  - intros Hno. by rewrite (Hdefault _ _ _ Hno).
  - intros v Hv. by rewrite (blobValue_yields _ _ _ Hv).
  - intros Hno. by rewrite (Hdefault _ _ _ Hno).
  - intros v Hv. by rewrite (blobValue_yields _ _ _ Hv).
  - intros Hv. by rewrite (blobValue_yields _ _ _ Hv).
  - intros Hno. by rewrite (Hdefault _ _ _ Hno).
  - apply blob_cases.
  - intros v Hv. by rewrite (blobValue_yields _ _ _ Hv).
  - intros Hno. rewrite (Hdefault _ _ _ Hno). simpl.
    unfold migrate. apply fmap_empty.
Qed.

(** Two storages that hold the same blob under a key restore the same
    value for it. *)
Corollary restore_depends_on_own_blob (storage1 storage2 : gmap string string) :
  (storage1 !! "recurringIncomes" = storage2 !! "recurringIncomes" →
   rs_recurringIncomes (restore storage1) = rs_recurringIncomes (restore storage2)) ∧
  (storage1 !! "recurringExpenses" = storage2 !! "recurringExpenses" →
   rs_recurringExpenses (restore storage1) = rs_recurringExpenses (restore storage2)) ∧
  (storage1 !! "categories" = storage2 !! "categories" →
   rs_categories (restore storage1) = rs_categories (restore storage2)) ∧
  (storage1 !! "monthlyData" = storage2 !! "monthlyData" →
   rs_monthlyData (restore storage1) = rs_monthlyData (restore storage2)).
Proof.
  destruct (initializeState_by_blob storage1) as (-> & -> & -> & ->).
  destruct (initializeState_by_blob storage2) as (-> & -> & -> & ->).
  split_and!; by intros ->.
Qed.

End Loading.

End Properties.

(** * Further properties *)

Section FurtherProperties.
Context `{JsNumber}.

(** ** Building blocks *)

Lemma updateAtFirst_cons {A} (P : A → Prop) `{∀ x, Decision (P x)}
  (f : A → A) (x : A) (l : list A) :
  updateAtFirst P f (x :: l) =
    if decide (P x) then f x :: l else x :: updateAtFirst P f l.
Proof.
  unfold updateAtFirst. simpl. destruct (decide (P x)) as [HP|HP]; [done|].
  by destruct (list_find P l) as [[m y]|].
Qed.

Lemma updateAtFirst_no_match {A} (P : A → Prop) `{∀ x, Decision (P x)}
  (f : A → A) (l : list A) :
  Forall (λ x, ¬ P x) l → updateAtFirst P f l = l.
Proof.
  induction 1 as [|x l Hx _ IH]; [done|].
  by rewrite updateAtFirst_cons, decide_False, IH.
Qed.

(** A filter that neither the replaced element nor its replacement passes
    does not see the update. *)
Lemma filter_updateAtFirst_other {A} (P Q : A → Prop)
  `{∀ x, Decision (P x)} `{∀ x, Decision (Q x)} (f : A → A) (l : list A) :
  (∀ x, P x → ¬ Q x ∧ ¬ Q (f x)) →
  filter Q (updateAtFirst P f l) = filter Q l.
Proof.
  intros HPQ. induction l as [|x l IH]; [done|].
  rewrite updateAtFirst_cons. destruct (decide (P x)) as [HP|HP].
  - destruct (HPQ x HP). by rewrite !filter_cons_False.
  - by rewrite !filter_cons, IH.
Qed.

(** An update that keeps what the filter looks at keeps the number of
    elements that pass it. *)
Lemma filter_updateAtFirst_length {A} (P Q : A → Prop)
  `{∀ x, Decision (P x)} `{∀ x, Decision (Q x)} (f : A → A) (l : list A) :
  (∀ x, Q (f x) ↔ Q x) →
  length (filter Q (updateAtFirst P f l)) = length (filter Q l).
Proof.
  intros HQ. induction l as [|x l IH]; [done|].
  rewrite updateAtFirst_cons. destruct (decide (P x)) as [HP|HP].
  - rewrite !filter_cons. destruct (decide (Q x)) as [Hx|Hx].
    + by rewrite decide_True by (by apply HQ).
    + by rewrite decide_False by (by rewrite HQ).
  - rewrite !filter_cons. destruct (decide (Q x)); simpl; by rewrite IH.
Qed.

Lemma fmap_updateAtFirst {A B} (P : A → Prop) `{∀ x, Decision (P x)}
  (f : A → A) (g : A → B) (l : list A) :
  (∀ x, g (f x) = g x) → g <$> updateAtFirst P f l = g <$> l.
Proof.
  intros Hg. induction l as [|x l IH]; [done|].
  rewrite updateAtFirst_cons. destruct (decide (P x)); rewrite !fmap_cons.
  - by rewrite Hg.
  - by rewrite IH.
Qed.

Lemma filter_all {A} (P : A → Prop) `{∀ x, Decision (P x)} (l : list A) :
  Forall P l → filter P l = l.
Proof.
  induction 1 as [|x l Hx _ IH]; [done|]. by rewrite filter_cons_True, IH.
Qed.

Lemma filter_filter_length {A} (P Q : A → Prop)
  `{∀ x, Decision (P x)} `{∀ x, Decision (Q x)} (l : list A) :
  length (filter P (filter Q l)) ≤ length (filter P l).
Proof.
  induction l as [|x l IH]; [done|].
  rewrite (filter_cons Q). destruct (decide (Q x)).
  - rewrite !filter_cons. destruct (decide (P x)); simpl; lia.
  - rewrite filter_cons. destruct (decide (P x)); simpl; lia.
Qed.

Lemma not_elem_of_fmap_Forall {A B} `{EqDecision B} (g : A → B) (b : B)
  (l : list A) :
  b ∉ g <$> l ↔ Forall (λ x, g x ≠ b) l.
Proof.
  rewrite Forall_forall, list_elem_of_fmap. split.
  - intros Hb x Hx Hg. apply Hb. by exists x.
  - intros Hall (x & -> & Hx). by apply (Hall x).
Qed.

Lemma ledger_eta (data : MonthlyData) :
  mkMonthlyData (realIncome data) (plannedExpenses data) (realExpenses data)
  = data.
Proof. by destruct data. Qed.

Lemma state_eta (st : State) :
  mkState (categories st) (recurringIncomes st) (recurringExpenses st)
    (selectedMonth st) (editingRecurringTransaction st)
    (recurringModalType st) (monthlyData st) = st.
Proof. by destruct st. Qed.

(** A loop over the months that rewrites no ledger leaves the timeline. *)
Lemma fromMonth_id (P : string) f (md : gmap string MonthlyData) :
  (∀ k data, md !! k = Some data → str_ge k P = true → f k data = data) →
  fromMonth P f md = md.
Proof.
  intros Hf. apply map_eq. intros k. rewrite fromMonth_lookup.
  destruct (md !! k) as [data|] eqn:Hk; [|done]. simpl.
  destruct (str_ge k P) eqn:Hge; [|done]. by rewrite (Hf k data).
Qed.

Lemma fromMonth_fromMonth (P : string) f g (md : gmap string MonthlyData) :
  fromMonth P g (fromMonth P f md) = fromMonth P (λ k data, g k (f k data)) md.
Proof.
  apply map_eq. intros k. rewrite !fromMonth_lookup.
  destruct (md !! k) as [data|]; [|done]. simpl.
  by destruct (str_ge k P).
Qed.

(** ** Creation and deletion of a template compose *)

(** X1. A template created with a fresh id and deleted again, the same
    month being selected, leaves the state exactly as it was before the
    creation: stores, timeline and form state. *)
Theorem create_then_delete_restores (form : RecurringForm) (now : number)
  (instId : string → number) (st : State) (amount : number) :
  editingRecurringTransaction st = None →
  f_amount form = Some amount →
  f_description form ≠ "" →
  freshTemplateId now st →
  handleDeleteRecurring now (recurringModalType st)
    (handleRecurringFormSubmit form now instId st) = st.
Proof.
  intros Hed Hamount Hdesc (HfreshI & HfreshE & Hmonths).
  unfold handleRecurringFormSubmit.
  rewrite Hamount, Hed, bool_decide_false by done.
  apply not_elem_of_fmap_Forall in HfreshI, HfreshE.
  destruct (recurringModalType st) eqn:Htype; unfold handleDeleteRecurring;
    simpl; rewrite fromMonth_fromMonth, filter_app, filter_all by done;
    rewrite filter_cons_False, filter_nil, app_nil_r by (simpl; tauto).
  - rewrite fromMonth_id.
    { rewrite <- Hed, <- Htype. apply state_eta. }
    intros k data Hk _. destruct (Hmonths k data Hk) as [_ He]. simpl.
    rewrite filter_app, filter_cons_False, filter_nil, app_nil_r
      by (simpl; tauto).
    rewrite filter_all; [by destruct data|].
    apply (filter_nil_Forall (λ e, e_recurringId e = Some now)), He.
  - rewrite fromMonth_id.
    { rewrite <- Hed, <- Htype. apply state_eta. }
    intros k data Hk _. destruct (Hmonths k data Hk) as [Hi _]. simpl.
    rewrite filter_app, filter_cons_False, filter_nil, app_nil_r
      by (simpl; tauto).
    rewrite filter_all; [by destruct data|].
    apply (filter_nil_Forall (λ i, i_recurringId i = Some now)), Hi.
Qed.

Lemma fromMonth_lookup_None (P : string) f (md : gmap string MonthlyData) k :
  md !! k = None → fromMonth P f md !! k = None.
Proof. intros Hk. by rewrite fromMonth_lookup, Hk. Qed.

Lemma navigateMonth_new idI idE (k : string) (st : State) :
  monthlyData st !! k = None →
  monthlyData (navigateMonth idI idE k st) !! k =
    Some (createMonthDataFromRecurring idI idE st).
Proof.
  intros Hk. unfold navigateMonth, ensureMonth; simpl. rewrite Hk; simpl.
  apply lookup_insert_eq.
Qed.

(** X2. Seeding does not look at the pivot: once a template is created, a
    month that is materialized afterwards receives an instance of it, also
    when its key is before the month in which the template was created. *)
Theorem seed_after_create_ignores_pivot (form : RecurringForm) (now : number)
  (instId : string → number) idI idE (st : State) (amount : number)
  (k : string) :
  editingRecurringTransaction st = None →
  f_amount form = Some amount →
  f_description form ≠ "" →
  monthlyData st !! k = None →
  let st1 := handleRecurringFormSubmit form now instId st in
  ∃ data, monthlyData (navigateMonth idI idE k st1) !! k = Some data ∧
    match recurringModalType st with
    | income =>
      ∃ inst, inst ∈ realIncome data ∧
        incomeInstanceOf
          (mkIncomeSource now (f_description form) amount None None) inst
    | expense =>
      ∃ inst, inst ∈ plannedExpenses data ∧
        expenseInstanceOf
          (mkExpense now (f_description form) amount (f_category form) None None)
          inst
    end.
Proof.
  intros Hed Hamount Hdesc Hk st1.
  assert (monthlyData st1 !! k = None) as Hk1.
  { subst st1. unfold handleRecurringFormSubmit.
    rewrite Hamount, Hed, bool_decide_false by done.
    destruct (recurringModalType st); simpl; by apply fromMonth_lookup_None. }
  eexists. split; [by apply navigateMonth_new|].
  destruct (createMonthDataFromRecurring_seeded idI idE st1) as (HI & HE & _).
  subst st1. unfold handleRecurringFormSubmit in HI, HE |- *.
  rewrite Hamount, Hed, bool_decide_false in HI, HE |- * by done.
  destruct (recurringModalType st); simpl in *.
  - apply Forall2_app_inv_l in HE as (es1 & es2 & _ & Hlast & ->).
    inversion Hlast as [|? inst ? ? Hinst _]; subst.
    exists inst. split; [|done]. rewrite elem_of_app, elem_of_cons. auto.
  - apply Forall2_app_inv_l in HI as (is1 & is2 & _ & Hlast & ->).
    inversion Hlast as [|? inst ? ? Hinst _]; subst.
    exists inst. split; [|done]. rewrite elem_of_app, elem_of_cons. auto.
Qed.

(** X3. A deleted template does not come back: a month that is
    materialized after the deletion holds no instance linked to it in the
    list of its type. *)
Theorem deleted_template_stays_out (id : number) (type : TransactionType)
  idI idE (st : State) (k : string) :
  monthlyData st !! k = None →
  let st1 := handleDeleteRecurring id type st in
  ∃ data, monthlyData (navigateMonth idI idE k st1) !! k = Some data ∧
    match type with
    | income => incomesLinkedTo id data = []
    | expense => expensesLinkedTo id data = []
    end.
Proof.
  intros Hk st1.
  assert (monthlyData st1 !! k = None) as Hk1.
  { subst st1. destruct type; simpl; by apply fromMonth_lookup_None. }
  eexists. split; [by apply navigateMonth_new|].
  destruct (createMonthDataFromRecurring_seeded idI idE st1) as (HI & HE & _).
  subst st1. destruct type; simpl in *.
  - eapply seeded_expenses_unlinked; [exact HE|].
    apply not_elem_of_fmap_Forall, Forall_forall.
    by intros e [? _]%list_elem_of_filter.
  - eapply seeded_incomes_unlinked; [exact HI|].
    apply not_elem_of_fmap_Forall, Forall_forall.
    by intros i [? _]%list_elem_of_filter.
Qed.

(** X4. An edit that is still open when its template is deleted is lost
    without a message: after the pencil of a template, its bin (confirmed)
    and a valid submission of the form, the state is the one the deletion
    left, with the form back to creation; what was typed is stored
    nowhere. *)
Theorem edit_of_deleted_template_is_dropped (id : number)
  (type : TransactionType) (form : RecurringForm) (now : number)
  (instId : string → number) (st : State) (amount : number) :
  f_amount form = Some amount →
  f_description form ≠ "" →
  match type with
  | income => Exists (λ t, i_id t = id) (recurringIncomes st)
  | expense => Exists (λ t, e_id t = id) (recurringExpenses st)
  end →
  let st1 := clickEditRecurring id type st in
  let st2 := clickDeleteRecurring id type true st1 in
  is_Some (editingRecurringTransaction st2) ∧
  handleRecurringFormSubmit form now instId st2 = with_editingRecurring st2 None.
Proof.
  intros Hamount Hdesc Hexists st1 st2. subst st1 st2.
  unfold clickDeleteRecurring, clickEditRecurring.
  destruct type.
  - apply Exists_exists in Hexists as (t & Ht & Hid).
    destruct (list_find_elem_of (λ e, e_id e = id) _ t Ht Hid) as [[n item] Hfind].
    rewrite Hfind. apply list_find_Some in Hfind as (_ & Hitem & _).
    split; [by eexists|].
    unfold handleRecurringFormSubmit, handleDeleteRecurring; simpl.
    rewrite Hamount, bool_decide_false by done. simpl. rewrite Hitem.
    unfold with_editingRecurring; simpl. f_equal.
    + apply updateAtFirst_no_match, Forall_forall.
      by intros e [? _]%list_elem_of_filter.
    + rewrite fromMonth_fromMonth. apply map_eq. intros k.
      rewrite !fromMonth_lookup. destruct (monthlyData st !! k); [|done].
      simpl. destruct (str_ge k (selectedMonth st)); [|done]. simpl.
      rewrite updateAtFirst_no_match; [done|].
      apply Forall_forall. by intros e [? _]%list_elem_of_filter.
  - apply Exists_exists in Hexists as (t & Ht & Hid).
    destruct (list_find_elem_of (λ i, i_id i = id) _ t Ht Hid) as [[n item] Hfind].
    rewrite Hfind. apply list_find_Some in Hfind as (_ & Hitem & _).
    split; [by eexists|].
    unfold handleRecurringFormSubmit, handleDeleteRecurring; simpl.
    rewrite Hamount, bool_decide_false by done. simpl. rewrite Hitem.
    unfold with_editingRecurring; simpl. f_equal.
    + apply updateAtFirst_no_match, Forall_forall.
      by intros i [? _]%list_elem_of_filter.
    + rewrite fromMonth_fromMonth. apply map_eq. intros k.
      rewrite !fromMonth_lookup. destruct (monthlyData st !! k); [|done].
      simpl. destruct (str_ge k (selectedMonth st)); [|done]. simpl.
      rewrite updateAtFirst_no_match; [done|].
      apply Forall_forall. by intros i [? _]%list_elem_of_filter.
Qed.

(** ** What the template handlers leave alone *)

(** X5. The entries of a month that are linked to no template, those the
    user added by hand, and its real expenses go through every creation,
    update and deletion of a template unchanged and in the same order, in
    every month, whatever the pivot. *)
Theorem manual_entries_survive_template_changes :
  (∀ (form : RecurringForm) (now : number) (instId : string → number)
     (st : State) (k : string) (data : MonthlyData),
     monthlyData st !! k = Some data →
     ∃ data', monthlyData (handleRecurringFormSubmit form now instId st) !! k
                = Some data' ∧
       manualIncomes data' = manualIncomes data ∧
       manualExpenses data' = manualExpenses data ∧
       realExpenses data' = realExpenses data) ∧
  (∀ (id : number) (type : TransactionType) (st : State) (k : string)
     (data : MonthlyData),
     monthlyData st !! k = Some data →
     ∃ data', monthlyData (handleDeleteRecurring id type st) !! k = Some data' ∧
       manualIncomes data' = manualIncomes data ∧
       manualExpenses data' = manualExpenses data ∧
       realExpenses data' = realExpenses data).
Proof.
  split.
  - intros form now instId st k data Hk. unfold handleRecurringFormSubmit.
    destruct (f_amount form) as [amount|]; [|by eexists].
    case_bool_decide; [by eexists|].
    destruct (editingRecurringTransaction st) as [ed|].
    + destruct (editing_type ed); simpl; rewrite fromMonth_lookup, Hk; simpl;
        (eexists; split; [done|]);
        destruct (str_ge k (selectedMonth st)); try done;
        unfold manualIncomes, manualExpenses; simpl;
        (split_and!; [..|done]); try done;
        apply filter_updateAtFirst_other; simpl; intros x ->; done.
    + destruct (recurringModalType st); simpl; rewrite fromMonth_lookup, Hk;
        simpl; (eexists; split; [done|]);
        destruct (str_ge k (selectedMonth st)); try done;
        unfold manualIncomes, manualExpenses; simpl;
        (split_and!; [..|done]); try done;
        by rewrite filter_app, filter_cons_False, filter_nil, app_nil_r.
  - intros id type st k data Hk.
    assert (∀ (A : Type) (g : A → option number) (l : list A),
              filter (λ x, g x = None) (filter (λ x, g x ≠ Some id) l)
              = filter (λ x, g x = None) l) as Hfilter.
    { intros A g l. induction l as [|x l IH]; [done|].
      rewrite (filter_cons (λ x, g x ≠ Some id)).
      destruct (decide (g x ≠ Some id)) as [Hx|Hx].
      - by rewrite !filter_cons, IH.
      - rewrite filter_cons_False; [done|]. intros Hnone. apply Hx.
        by rewrite Hnone. }
    destruct type; simpl; rewrite fromMonth_lookup, Hk; simpl;
      (eexists; split; [done|]);
      destruct (str_ge k (selectedMonth st)); try done;
      unfold manualIncomes, manualExpenses; simpl;
      (split_and!; [..|done]); try done; apply Hfilter.
Qed.

(** ** The selected month always has a ledger *)

Lemma fromMonth_is_Some (P : string) f (md : gmap string MonthlyData) k :
  is_Some (fromMonth P f md !! k) ↔ is_Some (md !! k).
Proof. by rewrite fromMonth_lookup, fmap_is_Some. Qed.

Lemma handleRecurringFormSubmit_months (form : RecurringForm) (now : number)
  (instId : string → number) (st : State) :
  selectedMonth (handleRecurringFormSubmit form now instId st) = selectedMonth st ∧
  ∀ k, is_Some (monthlyData (handleRecurringFormSubmit form now instId st) !! k)
       ↔ is_Some (monthlyData st !! k).
Proof.
  unfold handleRecurringFormSubmit.
  destruct (f_amount form) as [amount|]; [|done].
  case_bool_decide; [done|].
  destruct (editingRecurringTransaction st) as [ed|].
  - destruct (editing_type ed); simpl; split; try done;
      intros k; apply fromMonth_is_Some.
  - destruct (recurringModalType st); simpl; split; try done;
      intros k; apply fromMonth_is_Some.
Qed.

Lemma handleDeleteRecurring_months (id : number) (type : TransactionType)
  (st : State) :
  selectedMonth (handleDeleteRecurring id type st) = selectedMonth st ∧
  ∀ k, is_Some (monthlyData (handleDeleteRecurring id type st) !! k)
       ↔ is_Some (monthlyData st !! k).
Proof.
  destruct type; simpl; split; try done; intros k; apply fromMonth_is_Some.
Qed.

Lemma navigateMonth_ready idI idE (k : string) (st : State) :
  monthReady (navigateMonth idI idE k st).
Proof.
  unfold monthReady, navigateMonth, ensureMonth; simpl.
  destruct (monthlyData st !! k) as [data|] eqn:Hk; simpl.
  - by rewrite Hk.
  - rewrite lookup_insert_eq. by eexists.
Qed.

Lemma navigateMonth_keeps idI idE (k k' : string) (st : State) data :
  monthlyData st !! k' = Some data →
  monthlyData (navigateMonth idI idE k st) !! k' = Some data.
Proof.
  intros Hk'. unfold navigateMonth, ensureMonth; simpl.
  destruct (monthlyData st !! k) as [d|] eqn:Hk; simpl; [done|].
  rewrite lookup_insert_ne; [done|]. intros ->. congruence.
Qed.

Lemma setCurrentMonth_ready (st : State) (data : MonthlyData) :
  monthReady (setCurrentMonth st data).
Proof.
  unfold monthReady, setCurrentMonth; simpl. rewrite lookup_insert_eq.
  by eexists.
Qed.

Lemma setCurrentMonth_same (st : State) (data : MonthlyData) :
  monthlyData st !! selectedMonth st = Some data → setCurrentMonth st data = st.
Proof.
  intros Hsel. unfold setCurrentMonth, with_monthlyData.
  rewrite insert_id by done. apply state_eta.
Qed.

Lemma handleTransactionFormSubmit_app (form : TransactionForm) (now : number)
  (s : Session) :
  (monthlyData (app s) !! selectedMonth (app s) = None ∧
   monthlyData (app (handleTransactionFormSubmit form now s)) = monthlyData (app s))
  ∨ ∃ data', monthlyData (app (handleTransactionFormSubmit form now s)) =
             <[selectedMonth (app s) := data']> (monthlyData (app s)).
Proof.
  unfold handleTransactionFormSubmit.
  destruct (monthlyData (app s) !! selectedMonth (app s)) as [data|] eqn:Hsel.
  - right.
    destruct (editingTransaction s) as [ed|];
      [destruct (editing_type ed)|destruct (transactionModalType s)];
      simpl; by eexists.
  - left. by split.
Qed.

Section HandlersOfTheRegistry.
Variable toLowerCase : string → string.
Variable trim : string → string.
Variable localeCompare : string → string → Z.

(** X6. Start-up and the month navigation give the selected month a
    ledger, and no handler takes it away again: the submission of the
    recurring form, the deletion and the edit click of a template, the
    handlers of the categories, and the handlers of the month's planned
    entries and real expenses all keep it. *)
Theorem selected_month_always_materialized :
  (∀ idI idE k (st : State), monthReady (navigateMonth idI idE k st)) ∧
  (∀ idI idE (st : State), monthReady (ensureCurrentMonth idI idE st)) ∧
  (∀ form now instId (st : State),
     monthReady st → monthReady (handleRecurringFormSubmit form now instId st)) ∧
  (∀ id type (st : State),
     monthReady st → monthReady (handleDeleteRecurring id type st)) ∧
  (∀ id type (st : State),
     monthReady st → monthReady (clickEditRecurring id type st)) ∧
  (∀ value (st : State),
     monthReady st →
     monthReady (handleAddCategory toLowerCase trim localeCompare value st).1) ∧
  (∀ categoryName confirmed (st : State),
     monthReady st → monthReady (handleDeleteCategory categoryName confirmed st).1) ∧
  (∀ categoryName newColor (st : State),
     monthReady st → monthReady (handleColorChange categoryName newColor st)) ∧
  (∀ form now (s : Session),
     monthReady (app s) → monthReady (app (handleTransactionFormSubmit form now s))) ∧
  (∀ form now (s : Session),
     monthReady (app s) → monthReady (app (handleAddRealExpense form now s).1)) ∧
  (∀ id (s s' : Session),
     handleDeleteRealExpense id s = Some s' → monthReady (app s')) ∧
  (∀ id confirmed (s s' : Session),
     monthReady (app s) → clickDeleteExpense id confirmed s = Some s' →
     monthReady (app s')) ∧
  (∀ id (s s' : Session),
     clickDeleteIncome id s = Some s' → monthReady (app s')).
Proof.
  split_and!.
  - apply navigateMonth_ready.
  - intros idI idE st. unfold ensureCurrentMonth, ensureMonth, monthReady.
    destruct (monthlyData st !! selectedMonth st) as [data|] eqn:Hsel; simpl.
    + by rewrite Hsel.
    + rewrite lookup_insert_eq. by eexists.
  - intros form now instId st. unfold monthReady.
    destruct (handleRecurringFormSubmit_months form now instId st) as [-> Hdom].
    by rewrite Hdom.
  - intros id type st. unfold monthReady.
    destruct (handleDeleteRecurring_months id type st) as [-> Hdom].
    by rewrite Hdom.
  - intros id type st. unfold clickEditRecurring.
    destruct type; by destruct (list_find _ _) as [[? ?]|].
  - intros value st. unfold handleAddCategory. by destruct (_ && _).
  - intros categoryName confirmed st. unfold handleDeleteCategory.
    destruct (_ || _); [done|]. by destruct confirmed.
  - intros categoryName newColor st. unfold handleColorChange.
    by case_bool_decide.
  - intros form now s Hready. unfold monthReady in *.
    unfold handleTransactionFormSubmit.
    destruct (monthlyData (app s) !! selectedMonth (app s)) as [data|] eqn:Hsel;
      [|by destruct Hready].
    destruct (editingTransaction s) as [ed|];
      [destruct (editing_type ed)|destruct (transactionModalType s)];
      simpl; rewrite lookup_insert_eq; by eexists.
  - intros form now s Hready. unfold monthReady in *.
    unfold handleAddRealExpense.
    destruct (rf_amount form) as [amount|]; [|done].
    destruct (_ || _); [done|].
    destruct (monthlyData (app s) !! selectedMonth (app s)) as [data|] eqn:Hsel;
      [|by destruct Hready].
    destruct (editingRealExpense s); simpl; rewrite lookup_insert_eq;
      by eexists.
  - intros id s s'. unfold handleDeleteRealExpense.
    destruct (monthlyData (app s) !! selectedMonth (app s)); [|done].
    intros [= <-]. apply setCurrentMonth_ready.
  - intros id confirmed s s' Hready. unfold clickDeleteExpense.
    destruct confirmed; [|by intros [= <-]].
    destruct (monthlyData (app s) !! selectedMonth (app s)); [|done].
    intros [= <-]. apply setCurrentMonth_ready.
  - intros id s s'. unfold clickDeleteIncome.
    destruct (monthlyData (app s) !! selectedMonth (app s)); [|done].
    intros [= <-]. apply setCurrentMonth_ready.
Qed.

End HandlersOfTheRegistry.

(** X7. The month without ledger. The three deletions of an entry of the
    month (real expense, planned expense once confirmed, income) fail with
    a [TypeError] exactly when the selected month has no ledger, and in
    that situation a new planned transaction or a valid real expense is
    accepted, the form is closed, and nothing is stored. *)
Theorem entries_need_a_ledger (s : Session) :
  (∀ id, handleDeleteRealExpense id s = None ↔ ¬ monthReady (app s)) ∧
  (∀ id, clickDeleteExpense id true s = None ↔ ¬ monthReady (app s)) ∧
  (∀ id, clickDeleteIncome id s = None ↔ ¬ monthReady (app s)) ∧
  (¬ monthReady (app s) →
   (∀ form now,
      handleTransactionFormSubmit form now s = closeModal s) ∧
   (∀ form now amount,
      rf_amount form = Some amount → rf_description form ≠ "" →
      rf_date form ≠ "" → rf_linkedCategory form ≠ "" →
      handleAddRealExpense form now s = (cancelRealExpenseEdit s, None))).
Proof.
  unfold monthReady, handleDeleteRealExpense, clickDeleteExpense,
    clickDeleteIncome.
  destruct (monthlyData (app s) !! selectedMonth (app s)) as [data|] eqn:Hsel.
  - split_and!; try (intros id; split; [done|intros Hno; destruct Hno; by eexists]).
    intros Hno. destruct Hno. by eexists.
  - split_and!; try (intros id; split; [by intros _ [? ?]|done]).
    intros _. split.
    + intros form now. unfold handleTransactionFormSubmit. rewrite Hsel.
      by destruct s.
    + intros form now amount Hamount Hdesc Hdate Hcat.
      unfold handleAddRealExpense.
      rewrite Hamount, !bool_decide_false by done. simpl. rewrite Hsel.
      by destruct s.
Qed.

(** ** The entries of a month stay in their month *)

(** X8. The handlers of the planned entries and of the real expenses
    rewrite the ledger of the selected month and nothing else: the
    categories, the templates, the selected month and the ledgers of all
    other months are as before. In the selected month the transaction
    handlers keep the real expenses and the real-expense handlers keep the
    incomes and the planned expenses. *)
Theorem month_entries_stay_in_their_month (s : Session) :
  let framed (st' : State) : Prop :=
    categories st' = categories (app s) ∧
    recurringIncomes st' = recurringIncomes (app s) ∧
    recurringExpenses st' = recurringExpenses (app s) ∧
    selectedMonth st' = selectedMonth (app s) ∧
    ∀ k, k ≠ selectedMonth (app s) →
         monthlyData st' !! k = monthlyData (app s) !! k in
  let current (st' : State) := monthlyData st' !! selectedMonth (app s) in
  (∀ form now,
     let st' := app (handleTransactionFormSubmit form now s) in
     framed st' ∧ realExpenses <$> current st' = realExpenses <$> current (app s)) ∧
  (∀ id confirmed s',
     clickDeleteExpense id confirmed s = Some s' →
     framed (app s') ∧
     realExpenses <$> current (app s') = realExpenses <$> current (app s) ∧
     realIncome <$> current (app s') = realIncome <$> current (app s)) ∧
  (∀ id s',
     clickDeleteIncome id s = Some s' →
     framed (app s') ∧
     realExpenses <$> current (app s') = realExpenses <$> current (app s) ∧
     plannedExpenses <$> current (app s') = plannedExpenses <$> current (app s)) ∧
  (∀ form now,
     let st' := app (handleAddRealExpense form now s).1 in
     framed st' ∧
     realIncome <$> current st' = realIncome <$> current (app s) ∧
     plannedExpenses <$> current st' = plannedExpenses <$> current (app s)) ∧
  (∀ id s',
     handleDeleteRealExpense id s = Some s' →
     framed (app s') ∧
     realIncome <$> current (app s') = realIncome <$> current (app s) ∧
     plannedExpenses <$> current (app s') = plannedExpenses <$> current (app s)).
Proof.
  intros framed current. subst framed current. simpl.
  split_and!.
  - intros form now. unfold handleTransactionFormSubmit.
    destruct (monthlyData (app s) !! selectedMonth (app s)) as [data|] eqn:Hsel.
    + destruct (editingTransaction s) as [ed|];
        [destruct (editing_type ed)|destruct (transactionModalType s)];
        simpl; rewrite lookup_insert_eq;
        (split; [split_and!; try done; intros k Hk; by rewrite lookup_insert_ne
                |done]).
    + simpl. by rewrite Hsel.
  - intros id confirmed s'. unfold clickDeleteExpense.
    destruct confirmed; [|by intros [= <-]].
    destruct (monthlyData (app s) !! selectedMonth (app s)) as [data|] eqn:Hsel;
      [|done].
    intros [= <-]. simpl. rewrite lookup_insert_eq.
    split_and!; try done. intros k Hk. by rewrite lookup_insert_ne.
  - intros id s'. unfold clickDeleteIncome.
    destruct (monthlyData (app s) !! selectedMonth (app s)) as [data|] eqn:Hsel;
      [|done].
    intros [= <-]. simpl. rewrite lookup_insert_eq.
    split_and!; try done. intros k Hk. by rewrite lookup_insert_ne.
  - intros form now. unfold handleAddRealExpense.
    destruct (rf_amount form) as [amount|]; [|done].
    destruct (_ || _); [done|].
    destruct (monthlyData (app s) !! selectedMonth (app s)) as [data|] eqn:Hsel.
    + destruct (editingRealExpense s); simpl; rewrite lookup_insert_eq;
        (split_and!; try done; intros k Hk; by rewrite lookup_insert_ne).
    + simpl. by rewrite Hsel.
  - intros id s'. unfold handleDeleteRealExpense.
    destruct (monthlyData (app s) !! selectedMonth (app s)) as [data|] eqn:Hsel;
      [|done].
    intros [= <-]. simpl. rewrite lookup_insert_eq.
    split_and!; try done. intros k Hk. by rewrite lookup_insert_ne.
Qed.

(** ** Real expenses *)

(** X9. A real expense added with an id that no real expense of the month
    has, and deleted again, leaves the session exactly as it was. *)
Theorem add_then_delete_real_expense (form : RealExpenseForm) (now : number)
  (s : Session) (amount : number) :
  rf_amount form = Some amount →
  rf_description form ≠ "" → rf_date form ≠ "" → rf_linkedCategory form ≠ "" →
  editingRealExpense s = None →
  monthReady (app s) →
  Forall (λ e, r_id e ≠ now) (getCurrentRealExpenses (app s)) →
  (handleAddRealExpense form now s).2 = None ∧
  handleDeleteRealExpense now (handleAddRealExpense form now s).1 = Some s.
Proof.
  intros Hamount Hdesc Hdate Hcat Hediting [data Hsel] Hfresh.
  unfold getCurrentRealExpenses in Hfresh. rewrite Hsel in Hfresh.
  unfold handleAddRealExpense.
  rewrite Hamount, !bool_decide_false, Hsel, Hediting by done. simpl.
  split; [done|].
  unfold handleDeleteRealExpense; simpl. rewrite lookup_insert_eq. simpl.
  rewrite filter_app, filter_all, filter_cons_False, filter_nil, app_nil_r
    by (simpl; tauto || done).
  unfold with_app, setCurrentMonth, with_monthlyData; simpl.
  assert (with_realExpenses
            (with_realExpenses data
               (realExpenses data ++
                  [mkRealExpense now (rf_description form) amount (rf_date form)
                     (rf_linkedCategory form)]))
            (realExpenses data) = data) as -> by (by destruct data).
  rewrite insert_insert_eq, insert_id by done.
  rewrite state_eta. destruct s; simpl in *. by subst.
Qed.

(** X10. A real expense under edit that is no longer among the real
    expenses of the selected month, because it was deleted or because
    another month was selected meanwhile, makes a valid submission a
    no-op: no message, no ledger changed, and the edit closed. *)
Theorem stale_real_expense_edit_is_dropped (form : RealExpenseForm)
  (now : number) (s : Session) (amount : number) (editing : RealExpense) :
  rf_amount form = Some amount →
  rf_description form ≠ "" → rf_date form ≠ "" → rf_linkedCategory form ≠ "" →
  editingRealExpense s = Some editing →
  Forall (λ e, r_id e ≠ r_id editing) (getCurrentRealExpenses (app s)) →
  handleAddRealExpense form now s = (cancelRealExpenseEdit s, None).
Proof.
  intros Hamount Hdesc Hdate Hcat Hediting Hgone.
  unfold getCurrentRealExpenses in Hgone. unfold handleAddRealExpense.
  rewrite Hamount, !bool_decide_false, Hediting by done. simpl.
  destruct (monthlyData (app s) !! selectedMonth (app s)) as [data|] eqn:Hsel.
  - rewrite updateAtFirst_no_match by done.
    assert (with_realExpenses data (realExpenses data) = data) as ->
      by (by destruct data).
    rewrite setCurrentMonth_same by done. by destruct s.
  - by destruct s.
Qed.

(** ** At most one instance for each template *)

Lemma NoDup_fmap_filter {A B} (g : A → B) (P : A → Prop)
  `{∀ x, Decision (P x)} (l : list A) :
  NoDup (g <$> l) → NoDup (g <$> filter P l).
Proof.
  intros Hl. eapply sublist_NoDup; [exact Hl|].
  apply fmap_sublist, sublist_filter.
Qed.

Lemma NoDup_fmap_snoc {A B} (g : A → B) (l : list A) (x : A) :
  NoDup (g <$> l) → g x ∉ g <$> l → NoDup (g <$> l ++ [x]).
Proof.
  intros Hl Hx. rewrite fmap_app. apply NoDup_app. split_and!; [done| |].
  - intros y Hy [->|[]%elem_of_nil]%elem_of_cons. done.
  - apply NoDup_singleton.
Qed.

Lemma seeded_incomes_once (id : number) (ts ins : list IncomeSource) :
  Forall2 incomeInstanceOf ts ins → NoDup (i_id <$> ts) →
  length (filter (λ i, i_recurringId i = Some id) ins) ≤ 1.
Proof.
  induction 1 as [|t i ts ins Hti Hrest IH]; [simpl; lia|].
  rewrite fmap_cons. intros [Hfresh Hnodup]%NoDup_cons.
  rewrite filter_cons. destruct (decide (i_recurringId i = Some id)) as [Hi|Hi].
  - destruct Hti as (Hrid & _). rewrite Hrid in Hi. injection Hi as <-.
    rewrite (seeded_incomes_unlinked _ ts ins) by done. simpl. lia.
  - by apply IH.
Qed.

Lemma seeded_expenses_once (id : number) (ts es : list Expense) :
  Forall2 expenseInstanceOf ts es → NoDup (e_id <$> ts) →
  length (filter (λ e, e_recurringId e = Some id) es) ≤ 1.
Proof.
  induction 1 as [|t e ts es Hte Hrest IH]; [simpl; lia|].
  rewrite fmap_cons. intros [Hfresh Hnodup]%NoDup_cons.
  rewrite filter_cons. destruct (decide (e_recurringId e = Some id)) as [He|He].
  - destruct Hte as (Hrid & _). rewrite Hrid in He. injection He as <-.
    rewrite (seeded_expenses_unlinked _ ts es) by done. simpl. lia.
  - by apply IH.
Qed.

Lemma seeded_linkedOnce (st : State) (data : MonthlyData) :
  seededFrom st data →
  NoDup (i_id <$> recurringIncomes st) → NoDup (e_id <$> recurringExpenses st) →
  linkedOnce data.
Proof.
  intros (HI & HE & _) HndI HndE id. split.
  - by eapply seeded_incomes_once.
  - by eapply seeded_expenses_once.
Qed.

Lemma ensureMonth_wellLinked idI idE (k : string) (st : State) :
  wellLinked st → wellLinked (ensureMonth idI idE k st).
Proof.
  intros (HndI & HndE & Hmonths). unfold ensureMonth.
  destruct (monthlyData st !! k) as [d|] eqn:Hk; [done|].
  split_and!; [done..|]. simpl. intros k' data.
  rewrite lookup_insert_Some. intros [[_ <-]|[_ Hk']]; [|by eapply Hmonths].
  eapply seeded_linkedOnce; [apply createMonthDataFromRecurring_seeded|done..].
Qed.

Lemma fromMonth_linkedOnce (P : string) f (md : gmap string MonthlyData) :
  (∀ k data, md !! k = Some data → linkedOnce data) →
  (∀ k data, md !! k = Some data → linkedOnce data → linkedOnce (f k data)) →
  ∀ k data', fromMonth P f md !! k = Some data' → linkedOnce data'.
Proof.
  intros Hmd Hf k data'. rewrite fromMonth_lookup.
  destruct (md !! k) as [data|] eqn:Hk; [|done]. simpl. intros [= <-].
  destruct (str_ge k P); eauto.
Qed.

Lemma handleRecurringFormSubmit_wellLinked (form : RecurringForm)
  (now : number) (instId : string → number) (st : State) :
  wellLinked st →
  (editingRecurringTransaction st = None → freshTemplateId now st) →
  wellLinked (handleRecurringFormSubmit form now instId st).
Proof.
  intros (HndI & HndE & Hmonths) Hfresh. unfold handleRecurringFormSubmit.
  destruct (f_amount form) as [amount|]; [|done].
  case_bool_decide; [done|].
  destruct (editingRecurringTransaction st) as [ed|].
  - destruct (editing_type ed); unfold wellLinked; simpl.
    + split_and!; [done|by rewrite fmap_updateAtFirst|].
      apply fromMonth_linkedOnce; [done|].
      intros k data Hk Hdata id. specialize (Hdata id).
      unfold incomesLinkedTo, expensesLinkedTo in *. simpl.
      by rewrite filter_updateAtFirst_length.
    + split_and!; [by rewrite fmap_updateAtFirst|done|].
      apply fromMonth_linkedOnce; [done|].
      intros k data Hk Hdata id. specialize (Hdata id).
      unfold incomesLinkedTo, expensesLinkedTo in *. simpl.
      by rewrite filter_updateAtFirst_length.
  - destruct (Hfresh eq_refl) as (HfI & HfE & Hfm).
    destruct (recurringModalType st); unfold wellLinked; simpl.
    + split_and!; [done|by apply NoDup_fmap_snoc|].
      apply fromMonth_linkedOnce; [done|].
      intros k data Hk Hdata id. specialize (Hdata id).
      destruct (Hfm k data Hk) as [HlI HlE].
      unfold incomesLinkedTo, expensesLinkedTo in *. simpl.
      split; [tauto|].
      rewrite filter_app, length_app, filter_cons. simpl.
      destruct (decide (Some now = Some id)) as [[= <-]|].
      * rewrite HlE. simpl. lia.
      * simpl. lia.
    + split_and!; [by apply NoDup_fmap_snoc|done|].
      apply fromMonth_linkedOnce; [done|].
      intros k data Hk Hdata id. specialize (Hdata id).
      destruct (Hfm k data Hk) as [HlI HlE].
      unfold incomesLinkedTo, expensesLinkedTo in *. simpl.
      split; [|tauto].
      rewrite filter_app, length_app, filter_cons. simpl.
      destruct (decide (Some now = Some id)) as [[= <-]|].
      * rewrite HlI. simpl. lia.
      * simpl. lia.
Qed.

Lemma handleDeleteRecurring_wellLinked (id : number) (type : TransactionType)
  (st : State) :
  wellLinked st → wellLinked (handleDeleteRecurring id type st).
Proof.
  intros (HndI & HndE & Hmonths).
  destruct type; unfold wellLinked; simpl.
  - split_and!; [done|by apply NoDup_fmap_filter|].
    apply fromMonth_linkedOnce; [done|].
    intros k data Hk Hdata id'. specialize (Hdata id').
    unfold incomesLinkedTo, expensesLinkedTo in *. simpl.
    split; [tauto|]. etrans; [apply filter_filter_length|tauto].
  - split_and!; [by apply NoDup_fmap_filter|done|].
    apply fromMonth_linkedOnce; [done|].
    intros k data Hk Hdata id'. specialize (Hdata id').
    unfold incomesLinkedTo, expensesLinkedTo in *. simpl.
    split; [|tauto]. etrans; [apply filter_filter_length|tauto].
Qed.
Lemma setCurrentMonth_wellLinked (st : State) (data : MonthlyData) :
  wellLinked st → linkedOnce data → wellLinked (setCurrentMonth st data).
Proof.
  intros (HndI & HndE & Hmonths) Hdata. split_and!; [done..|].
  simpl. intros k data'. rewrite lookup_insert_Some.
  intros [[_ <-]|[_ Hk]]; [done|by eapply Hmonths].
Qed.

(** X11. A state in which the templates of each store have distinct ids
    and every ledger holds at most one instance for each template id stays
    such a state: under the update and the deletion of a template, under a
    creation whose id is fresh, under the materialization of a month, and
    under the handlers of the month's planned entries and real expenses. *)
Theorem one_instance_per_template_is_kept :
  (∀ form now instId (st : State),
     wellLinked st →
     (editingRecurringTransaction st = None → freshTemplateId now st) →
     wellLinked (handleRecurringFormSubmit form now instId st)) ∧
  (∀ id type (st : State),
     wellLinked st → wellLinked (handleDeleteRecurring id type st)) ∧
  (∀ idI idE k (st : State),
     wellLinked st → wellLinked (navigateMonth idI idE k st)) ∧
  (∀ idI idE (st : State),
     wellLinked st → wellLinked (ensureCurrentMonth idI idE st)) ∧
  (∀ form now (s : Session),
     wellLinked (app s) → wellLinked (app (handleTransactionFormSubmit form now s))) ∧
  (∀ id confirmed (s s' : Session),
     wellLinked (app s) → clickDeleteExpense id confirmed s = Some s' →
     wellLinked (app s')) ∧
  (∀ id (s s' : Session),
     wellLinked (app s) → clickDeleteIncome id s = Some s' → wellLinked (app s')) ∧
  (∀ form now (s : Session),
     wellLinked (app s) → wellLinked (app (handleAddRealExpense form now s).1)) ∧
  (∀ id (s s' : Session),
     wellLinked (app s) → handleDeleteRealExpense id s = Some s' →
     wellLinked (app s')).
Proof.
  split_and!.
  - apply handleRecurringFormSubmit_wellLinked.
  - apply handleDeleteRecurring_wellLinked.
  - intros idI idE k st Hst.
    apply (ensureMonth_wellLinked idI idE k) in Hst.
    unfold navigateMonth. by destruct (ensureMonth idI idE k st).
  - intros idI idE st. apply ensureMonth_wellLinked.
  - intros form now s Hs. unfold handleTransactionFormSubmit.
    destruct (monthlyData (app s) !! selectedMonth (app s)) as [data|] eqn:Hsel;
      [|by destruct Hs as (? & ? & ?)].
    pose proof (proj2 (proj2 Hs) _ _ Hsel) as Hdata.
    assert (∀ data', linkedOnce data' →
              wellLinked (app (closeModal (with_app s (setCurrentMonth (app s) data')))))
      as Hclose.
    { intros data' Hdata'.
      by apply (setCurrentMonth_wellLinked (app s) data') in Hs. }
    destruct (editingTransaction s) as [ed|];
      [destruct (editing_type ed)|destruct (transactionModalType s)];
      apply Hclose; intros id; specialize (Hdata id);
      unfold incomesLinkedTo, expensesLinkedTo in *; simpl.
    + by rewrite filter_updateAtFirst_length.
    + by rewrite filter_updateAtFirst_length.
    + by rewrite filter_app, filter_cons_False, filter_nil, app_nil_r.
    + by rewrite filter_app, filter_cons_False, filter_nil, app_nil_r.
  - intros id confirmed s s' Hs. unfold clickDeleteExpense.
    destruct confirmed; [|by intros [= <-]].
    destruct (monthlyData (app s) !! selectedMonth (app s)) as [data|] eqn:Hsel;
      [|done].
    intros [= <-]. simpl. apply setCurrentMonth_wellLinked; [done|].
    pose proof (proj2 (proj2 Hs) _ _ Hsel) as Hdata.
    intros id'. specialize (Hdata id').
    unfold incomesLinkedTo, expensesLinkedTo in *; simpl.
    split; [tauto|]. etrans; [apply filter_filter_length|tauto].
  - intros id s s' Hs. unfold clickDeleteIncome.
    destruct (monthlyData (app s) !! selectedMonth (app s)) as [data|] eqn:Hsel;
      [|done].
    intros [= <-]. simpl. apply setCurrentMonth_wellLinked; [done|].
    pose proof (proj2 (proj2 Hs) _ _ Hsel) as Hdata.
    intros id'. specialize (Hdata id').
    unfold incomesLinkedTo, expensesLinkedTo in *; simpl.
    split; [|tauto]. etrans; [apply filter_filter_length|tauto].
  - intros form now s Hs. unfold handleAddRealExpense.
    destruct (rf_amount form) as [amount|]; [|done].
    destruct (_ || _); [done|].
    destruct (monthlyData (app s) !! selectedMonth (app s)) as [data|] eqn:Hsel;
      [|done].
    pose proof (proj2 (proj2 Hs) _ _ Hsel) as Hdata.
    destruct (editingRealExpense s); simpl;
      by apply setCurrentMonth_wellLinked.
  - intros id s s' Hs. unfold handleDeleteRealExpense.
    destruct (monthlyData (app s) !! selectedMonth (app s)) as [data|] eqn:Hsel;
      [|done].
    intros [= <-]. simpl. apply setCurrentMonth_wellLinked; [done|].
    exact (proj2 (proj2 Hs) _ _ Hsel).
Qed.

(** ** The registry and the references to it *)

Lemma registered_names (c : string) (st : State) :
  registered c st ↔ c ∈ name <$> categories st.
Proof.
  unfold registered. rewrite list_elem_of_fmap. split.
  - intros (cat & Hcat & <-). by exists cat.
  - intros (cat & -> & Hcat). by exists cat.
Qed.

Lemma elem_of_updateAtFirst {A} (P : A → Prop) `{∀ x, Decision (P x)}
  (f : A → A) (l : list A) (x : A) :
  x ∈ updateAtFirst P f l → x ∈ l ∨ ∃ y, y ∈ l ∧ x = f y.
Proof.
  induction l as [|y l IH]; [by intros ?%elem_of_nil|].
  rewrite updateAtFirst_cons. destruct (decide (P y)).
  - intros [->|Hx]%elem_of_cons.
    + right. exists y. split; [by left|done].
    + left. by right.
  - intros [->|Hx]%elem_of_cons; [left; by left|].
    destruct (IH Hx) as [?|(z & ? & ->)]; [left; by right|].
    right. exists z. split; [by right|done].
Qed.

Lemma not_used_not_referenced (categoryName : string) (st : State) :
  isUsedInPlanned categoryName st || isUsedInRecurring categoryName st
    || isUsedInReal categoryName st = false →
  ¬ categoryReferenced categoryName st.
Proof.
  rewrite !orb_false_iff. intros [[HP HT] HR] [Href|[Href|Href]].
  - apply isUsedInPlanned_spec in Href. congruence.
  - apply isUsedInReal_spec in Href. congruence.
  - apply isUsedInRecurring_spec in Href. congruence.
Qed.

(** What a submission of the recurring form can add to the references. *)
Lemma handleRecurringFormSubmit_references (form : RecurringForm)
  (now : number) (instId : string → number) (st : State) (c : string) :
  categoryReferenced c (handleRecurringFormSubmit form now instId st) →
  categoryReferenced c st ∨ c = f_category form.
Proof.
  unfold handleRecurringFormSubmit.
  destruct (f_amount form) as [amount|]; [|by left].
  case_bool_decide; [by left|].
  assert (∀ (P : Expense → Prop) (HP : ∀ x, Decision (P x)) (l : list Expense) e,
            e ∈ updateAtFirst P
              (setExpenseFields (f_description form) amount (f_category form)) l →
            e ∈ l ∨ e_category e = f_category form) as Hupd.
  { intros P HP l e [?|(y & _ & ->)]%elem_of_updateAtFirst; [by left|by right]. }
  destruct (editingRecurringTransaction st) as [ed|].
  - destruct (editing_type ed); simpl.
    + intros [(k & data' & e & Hk & He & Hc)|[(k & data' & e & Hk & He & Hc)|
                (e & He & Hc)]]; simpl in *.
      * rewrite fromMonth_lookup in Hk.
        destruct (monthlyData st !! k) as [data|] eqn:Hk0; [|done].
        simpl in Hk. injection Hk as <-.
        destruct (str_ge k (selectedMonth st)).
        -- simpl in He. apply Hupd in He as [He|He]; [|right; congruence].
           left. left. by exists k, data, e.
        -- left. left. by exists k, data, e.
      * rewrite fromMonth_lookup in Hk.
        destruct (monthlyData st !! k) as [data|] eqn:Hk0; [|done].
        simpl in Hk. injection Hk as <-.
        left. right. left. exists k, data, e.
        by destruct (str_ge k (selectedMonth st)).
      * apply Hupd in He as [He|He]; [|right; congruence].
        left. right. right. by exists e.
    + intros [(k & data' & e & Hk & He & Hc)|[(k & data' & e & Hk & He & Hc)|
                (e & He & Hc)]]; simpl in *.
      * rewrite fromMonth_lookup in Hk.
        destruct (monthlyData st !! k) as [data|] eqn:Hk0; [|done].
        simpl in Hk. injection Hk as <-.
        left. left. exists k, data, e.
        by destruct (str_ge k (selectedMonth st)).
      * rewrite fromMonth_lookup in Hk.
        destruct (monthlyData st !! k) as [data|] eqn:Hk0; [|done].
        simpl in Hk. injection Hk as <-.
        left. right. left. exists k, data, e.
        by destruct (str_ge k (selectedMonth st)).
      * left. right. right. by exists e.
  - destruct (recurringModalType st); simpl.
    + intros [(k & data' & e & Hk & He & Hc)|[(k & data' & e & Hk & He & Hc)|
                (e & He & Hc)]]; simpl in *.
      * rewrite fromMonth_lookup in Hk.
        destruct (monthlyData st !! k) as [data|] eqn:Hk0; [|done].
        simpl in Hk. injection Hk as <-.
        destruct (str_ge k (selectedMonth st)).
        -- simpl in He. apply elem_of_app in He as [He|He].
           ++ left. left. by exists k, data, e.
           ++ apply list_elem_of_singleton in He as ->. by right.
        -- left. left. by exists k, data, e.
      * rewrite fromMonth_lookup in Hk.
        destruct (monthlyData st !! k) as [data|] eqn:Hk0; [|done].
        simpl in Hk. injection Hk as <-.
        left. right. left. exists k, data, e.
        by destruct (str_ge k (selectedMonth st)).
      * apply elem_of_app in He as [He|He].
        -- left. right. right. by exists e.
        -- apply list_elem_of_singleton in He as ->. by right.
    + intros [(k & data' & e & Hk & He & Hc)|[(k & data' & e & Hk & He & Hc)|
                (e & He & Hc)]]; simpl in *.
      * rewrite fromMonth_lookup in Hk.
        destruct (monthlyData st !! k) as [data|] eqn:Hk0; [|done].
        simpl in Hk. injection Hk as <-.
        left. left. exists k, data, e.
        by destruct (str_ge k (selectedMonth st)).
      * rewrite fromMonth_lookup in Hk.
        destruct (monthlyData st !! k) as [data|] eqn:Hk0; [|done].
        simpl in Hk. injection Hk as <-.
        left. right. left. exists k, data, e.
        by destruct (str_ge k (selectedMonth st)).
      * left. right. right. by exists e.
Qed.

Lemma handleDeleteRecurring_references (id : number) (type : TransactionType)
  (st : State) (c : string) :
  categoryReferenced c (handleDeleteRecurring id type st) →
  categoryReferenced c st.
Proof.
  destruct type; simpl;
    intros [(k & data' & e & Hk & He & Hc)|[(k & data' & e & Hk & He & Hc)|
              (e & He & Hc)]]; simpl in *;
    try (rewrite fromMonth_lookup in Hk;
         destruct (monthlyData st !! k) as [data|] eqn:Hk0; [|done];
         simpl in Hk; injection Hk as <-;
         destruct (str_ge k (selectedMonth st)); simpl in He).
  all: try (apply list_elem_of_filter in He as [_ He]).
  all: try (left; by exists k, data, e).
  all: try (right; left; by exists k, data, e).
  all: right; right; by exists e.
Qed.

Lemma navigateMonth_references idI idE (k : string) (st : State) (c : string) :
  categoryReferenced c (navigateMonth idI idE k st) → categoryReferenced c st.
Proof.
  unfold navigateMonth, ensureMonth.
  destruct (monthlyData st !! k) as [d|] eqn:Hk0; simpl.
  { intros [?|[?|?]]; [left|right; left|right; right]; done. }
  intros [(k' & data' & e & Hk & He & Hc)|[(k' & data' & e & Hk & He & Hc)|
            (e & He & Hc)]]; simpl in *.
  - apply lookup_insert_Some in Hk as [[_ <-]|[_ Hk]].
    + simpl in He. apply list_elem_of_lookup in He as [n He].
      rewrite list_lookup_imap in He.
      destruct (recurringExpenses st !! n) as [t|] eqn:Ht; [|done].
      simpl in He. injection He as <-. simpl in Hc.
      right. right. exists t. split; [|done]. by eapply list_elem_of_lookup_2.
    + left. by exists k', data', e.
  - apply lookup_insert_Some in Hk as [[_ <-]|[_ Hk]].
    + simpl in He. by apply elem_of_nil in He.
    + right. left. by exists k', data', e.
  - right. right. by exists e.
Qed.
Lemma setCurrentMonth_references (st : State) (data data' : MonthlyData)
  (c : string) :
  monthlyData st !! selectedMonth st = Some data →
  (∀ e, e ∈ plannedExpenses data' → e ∈ plannedExpenses data ∨ e_category e ≠ c) →
  (∀ e, e ∈ realExpenses data' → e ∈ realExpenses data ∨ r_linkedCategory e ≠ c) →
  categoryReferenced c (setCurrentMonth st data') → categoryReferenced c st.
Proof.
  intros Hsel HP HR.
  intros [(k & d & e & Hk & He & Hc)|[(k & d & e & Hk & He & Hc)|
            (e & He & Hc)]]; simpl in *.
  - apply lookup_insert_Some in Hk as [[<- <-]|[_ Hk]].
    + destruct (HP e He) as [?|?]; [|done]. left. by exists (selectedMonth st), data, e.
    + left. by exists k, d, e.
  - apply lookup_insert_Some in Hk as [[<- <-]|[_ Hk]].
    + destruct (HR e He) as [?|?]; [|done].
      right. left. by exists (selectedMonth st), data, e.
    + right. left. by exists k, d, e.
  - right. right. by exists e.
Qed.

Lemma referencesResolved_transfer (st st' : State) :
  (∀ c, categoryReferenced c st' → categoryReferenced c st ∨ registered c st) →
  (∀ c, registered c st → registered c st') →
  referencesResolved st → referencesResolved st'.
Proof.
  intros Href Hreg Hst c Hc. apply Hreg.
  destruct (Href c Hc) as [?|?]; [by apply Hst|done].
Qed.

Lemma handleTransactionFormSubmit_references (form : TransactionForm)
  (now : number) (s : Session) (c : string) :
  categoryReferenced c (app (handleTransactionFormSubmit form now s)) →
  categoryReferenced c (app s) ∨ c = tf_category form.
Proof.
  destruct (decide (c = tf_category form)) as [|Hne]; [by right|].
  intros Href. left. revert Href. unfold handleTransactionFormSubmit.
  destruct (monthlyData (app s) !! selectedMonth (app s)) as [data|] eqn:Hsel.
  - assert (∀ data',
      (∀ e, e ∈ plannedExpenses data' →
            e ∈ plannedExpenses data ∨ e_category e ≠ c) →
      realExpenses data' = realExpenses data →
      categoryReferenced c
        (app (closeModal (with_app s (setCurrentMonth (app s) data')))) →
      categoryReferenced c (app s)) as Hclose.
    { intros data' HP HR Href.
      apply (setCurrentMonth_references (app s) data data'); [done|done| |].
      - intros e He. left. by rewrite <- HR.
      - destruct Href as [?|[?|?]]; [left|right; left|right; right]; done. }
    destruct (editingTransaction s) as [ed|];
      [destruct (editing_type ed)|destruct (transactionModalType s)];
      apply Hclose; simpl; try done; try (intros e He; by left).
    + intros e [?|(y & _ & ->)]%elem_of_updateAtFirst; [by left|].
      right. simpl. congruence.
    + intros e [?|He%list_elem_of_singleton]%elem_of_app; [by left|].
      subst e. right. simpl. congruence.
  - simpl. intros [?|[?|?]]; [left|right; left|right; right]; done.
Qed.

Lemma handleAddRealExpense_references (form : RealExpenseForm)
  (now : number) (s : Session) (c : string) :
  categoryReferenced c (app (handleAddRealExpense form now s).1) →
  categoryReferenced c (app s) ∨ c = rf_linkedCategory form.
Proof.
  destruct (decide (c = rf_linkedCategory form)) as [|Hne]; [by right|].
  intros Href. left. revert Href. unfold handleAddRealExpense.
  destruct (rf_amount form) as [amount|]; [|done].
  destruct (_ || _); [done|].
  destruct (monthlyData (app s) !! selectedMonth (app s)) as [data|] eqn:Hsel;
    [|done].
  destruct (editingRealExpense s) as [editing|]; simpl;
    apply (setCurrentMonth_references (app s) data); try done;
    try (intros e He; by left).
  - intros e [?|(y & _ & ->)]%elem_of_updateAtFirst; [by left|].
    right. simpl. congruence.
  - intros e [?|He%list_elem_of_singleton]%elem_of_app; [by left|].
    subst e. right. simpl. congruence.
Qed.

Section RegistryInvariants.
Variable toLowerCase : string → string.
Variable trim : string → string.
Variable localeCompare : string → string → Z.

Lemma handleAddCategory_names (value : string) (st : State) :
  name <$> categories (handleAddCategory toLowerCase trim localeCompare value st).1
  ≡ₚ name <$> categories st ++
       match (handleAddCategory toLowerCase trim localeCompare value st).2 with
       | Some _ => []
       | None => [mkCategory (trim value) defaultColor]
       end.
Proof.
  unfold handleAddCategory. destruct (_ && _); simpl.
  - by rewrite sortCategoryList_Permutation.
  - by rewrite app_nil_r.
Qed.

(** X12. The category guard does its job: when every category that a
    planned expense, a real expense or a recurring expense template names
    is in the registry, it still is after any attempt to delete a category,
    after the addition of a category or a change of colour, after the
    deletion of a template or of an entry, after the materialization of a
    month, and after a submission whose category is in the registry. *)
Theorem category_references_stay_resolved :
  (∀ categoryName confirmed (st : State),
     referencesResolved st →
     referencesResolved (handleDeleteCategory categoryName confirmed st).1) ∧
  (∀ value (st : State),
     referencesResolved st →
     referencesResolved (handleAddCategory toLowerCase trim localeCompare value st).1) ∧
  (∀ categoryName newColor (st : State),
     referencesResolved st →
     referencesResolved (handleColorChange categoryName newColor st)) ∧
  (∀ id type (st : State),
     referencesResolved st → referencesResolved (handleDeleteRecurring id type st)) ∧
  (∀ idI idE k (st : State),
     referencesResolved st → referencesResolved (navigateMonth idI idE k st)) ∧
  (∀ form now instId (st : State),
     referencesResolved st → registered (f_category form) st →
     referencesResolved (handleRecurringFormSubmit form now instId st)) ∧
  (∀ form now (s : Session),
     referencesResolved (app s) → registered (tf_category form) (app s) →
     referencesResolved (app (handleTransactionFormSubmit form now s))) ∧
  (∀ form now (s : Session),
     referencesResolved (app s) → registered (rf_linkedCategory form) (app s) →
     referencesResolved (app (handleAddRealExpense form now s).1)).
Proof.
  split_and!.
  - intros categoryName confirmed st Hst. unfold handleDeleteCategory.
    destruct (_ || _) eqn:Hused; [done|]. destruct confirmed; [|done].
    apply not_used_not_referenced in Hused. simpl.
    intros c Hc.
    assert (categoryReferenced c st) as Hc'.
    { destruct Hc as [?|[?|?]]; [left|right; left|right; right]; done. }
    destruct (Hst c Hc') as (cat & Hcat & Hname).
    exists cat. split; [|done]. simpl. apply list_elem_of_filter.
    split; [|done]. intros Heq. apply Hused. congruence.
  - intros value st. apply referencesResolved_transfer.
    + intros c Hc. left. unfold handleAddCategory in Hc.
      destruct (_ && _); [|done].
      destruct Hc as [?|[?|?]]; [left|right; left|right; right]; done.
    + intros c. rewrite !registered_names, handleAddCategory_names, fmap_app.
      rewrite elem_of_app. auto.
  - intros categoryName newColor st. apply referencesResolved_transfer.
    + intros c Hc. left. unfold handleColorChange in Hc.
      case_bool_decide; [done|].
      destruct Hc as [?|[?|?]]; [left|right; left|right; right]; done.
    + intros c. rewrite !registered_names. unfold handleColorChange.
      case_bool_decide; [done|]. simpl. by rewrite fmap_updateAtFirst.
  - intros id type st. apply referencesResolved_transfer.
    + intros c Hc. left. by eapply handleDeleteRecurring_references.
    + intros c. rewrite !registered_names. by destruct type.
  - intros idI idE k st. apply referencesResolved_transfer.
    + intros c Hc. left. by eapply navigateMonth_references.
    + intros c. rewrite !registered_names. unfold navigateMonth, ensureMonth.
      by destruct (monthlyData st !! k).
  - intros form now instId st Hst Hcat. revert Hst.
    apply referencesResolved_transfer.
    + intros c [?| ->]%handleRecurringFormSubmit_references; auto.
    + intros c. rewrite !registered_names. unfold handleRecurringFormSubmit.
      destruct (f_amount form); [|done]. case_bool_decide; [done|].
      destruct (editingRecurringTransaction st) as [ed|].
      * by destruct (editing_type ed).
      * by destruct (recurringModalType st).
  - intros form now s Hs Hcat. revert Hs. apply referencesResolved_transfer.
    + intros c [?| ->]%handleTransactionFormSubmit_references; auto.
    + intros c. rewrite !registered_names. unfold handleTransactionFormSubmit.
      destruct (monthlyData (app s) !! selectedMonth (app s)); [|done].
      destruct (editingTransaction s) as [ed|];
        [destruct (editing_type ed)|destruct (transactionModalType s)]; done.
  - intros form now s Hs Hcat. revert Hs. apply referencesResolved_transfer.
    + intros c [?| ->]%handleAddRealExpense_references; auto.
    + intros c. rewrite !registered_names. unfold handleAddRealExpense.
      destruct (rf_amount form); [|done]. destruct (_ || _); [done|].
      destruct (monthlyData (app s) !! selectedMonth (app s)); [|done].
      by destruct (editingRealExpense s).
Qed.

(** X13. The names of the registry stay distinct up to case: the addition
    of a category (accepted or refused), the deletion of a category and a
    change of colour keep this. *)
Theorem category_names_stay_distinct :
  (∀ value (st : State),
     namesDistinct toLowerCase st →
     namesDistinct toLowerCase
       (handleAddCategory toLowerCase trim localeCompare value st).1) ∧
  (∀ categoryName confirmed (st : State),
     namesDistinct toLowerCase st →
     namesDistinct toLowerCase (handleDeleteCategory categoryName confirmed st).1) ∧
  (∀ categoryName newColor (st : State),
     namesDistinct toLowerCase st →
     namesDistinct toLowerCase (handleColorChange categoryName newColor st)).
Proof.
  unfold namesDistinct. split_and!.
  - intros value st Hst. unfold handleAddCategory.
    destruct (bool_decide (trim value ≠ "")); simpl; [|done].
    case_bool_decide as Hdup; simpl; [done|].
    rewrite sortCategoryList_Permutation.
    apply NoDup_fmap_snoc; [done|]. simpl.
    intros (c & Hlow & Hc)%list_elem_of_fmap. apply Hdup.
    apply Exists_exists. by exists c.
  - intros categoryName confirmed st Hst. unfold handleDeleteCategory.
    destruct (_ || _); [done|]. destruct confirmed; [|done]. simpl.
    by apply NoDup_fmap_filter.
  - intros categoryName newColor st Hst. unfold handleColorChange.
    case_bool_decide; [done|]. simpl. by rewrite fmap_updateAtFirst.
Qed.

End RegistryInvariants.

(** ** Reading a colour back *)

Lemma list_find_cons {A} (P : A → Prop) `{∀ x, Decision (P x)} (x : A)
  (l : list A) :
  list_find P (x :: l) =
    if decide (P x) then Some (0, x) else prod_map S id <$> list_find P l.
Proof. done. Qed.

Lemma list_find_updateAtFirst_same {A} (P : A → Prop) `{∀ x, Decision (P x)}
  (f : A → A) (l : list A) :
  (∀ x, P x → P (f x)) →
  list_find P (updateAtFirst P f l) = prod_map id f <$> list_find P l.
Proof.
  intros HP. induction l as [|x l IH]; [done|].
  rewrite updateAtFirst_cons, (list_find_cons P x l).
  destruct (decide (P x)) as [Hx|Hx].
  - rewrite list_find_cons, decide_True by auto. done.
  - rewrite list_find_cons, decide_False, IH by done.
    by destruct (list_find P l) as [[n y]|].
Qed.

Lemma list_find_updateAtFirst_other {A} (P Q : A → Prop)
  `{∀ x, Decision (P x)} `{∀ x, Decision (Q x)} (f : A → A) (l : list A) :
  (∀ x, P x → ¬ Q x ∧ ¬ Q (f x)) →
  list_find Q (updateAtFirst P f l) = list_find Q l.
Proof.
  intros HPQ. induction l as [|x l IH]; [done|].
  rewrite updateAtFirst_cons. destruct (decide (P x)) as [Hx|Hx].
  - destruct (HPQ x Hx). by rewrite !list_find_cons, !decide_False.
  - by rewrite !list_find_cons, IH.
Qed.

(** X14. A colour that is set is the colour that is read: after the colour
    listener has run for a category of the registry with a colour that is
    not the empty string, [getCategoryColor] returns that colour for this
    name and what it returned before for every other name. *)
Theorem color_change_is_read_back (categoryName newColor : string) (st : State) :
  categoryName ≠ "" → newColor ≠ "" → registered categoryName st →
  let st' := handleColorChange categoryName newColor st in
  getCategoryColor categoryName st' = newColor ∧
  ∀ other, other ≠ categoryName →
           getCategoryColor other st' = getCategoryColor other st.
Proof.
  intros Hname Hcolor (cat & Hcat & Hcatname) st'. subst st'.
  unfold handleColorChange, getCategoryColor.
  rewrite bool_decide_false by done. simpl. split.
  - rewrite list_find_updateAtFirst_same by done.
    destruct (list_find_elem_of (λ c, name c = categoryName) _ cat Hcat Hcatname)
      as [[n c] ->]. simpl. by rewrite bool_decide_false.
  - intros other Hother.
    rewrite (list_find_updateAtFirst_other (λ c, name c = categoryName)
               (λ c, name c = other)); [done|].
    intros x Hx. simpl. split; congruence.
Qed.

Section ColorOfANewCategory.
Variable toLowerCase : string → string.
Variable trim : string → string.
Variable localeCompare : string → string → Z.

(** X15. [getCategoryColor] never fails: it returns the neutral colour
    ["#94a3b8"] for a name that is not in the registry, and also for the
    name of a category right after [handleAddCategory] has accepted it. *)
Theorem unset_colors_are_neutral (value : string) (st : State) :
  (∀ c, ¬ registered c st → getCategoryColor c st = "#94a3b8") ∧
  ((handleAddCategory toLowerCase trim localeCompare value st).2 = None →
   registered (trim value)
     (handleAddCategory toLowerCase trim localeCompare value st).1 ∧
   getCategoryColor (trim value)
     (handleAddCategory toLowerCase trim localeCompare value st).1 = "#94a3b8").
Proof.
  split.
  - intros c Hc. unfold getCategoryColor.
    destruct (list_find _ _) as [[n cat]|] eqn:Hfind; [|done].
    apply list_find_Some in Hfind as (Hn & Hcat & _). destruct Hc.
    exists cat. split; [by eapply list_elem_of_lookup_2|done].
  - unfold handleAddCategory.
    destruct (bool_decide (trim value ≠ "")); simpl; [|done].
    case_bool_decide as Hdup; simpl; [done|]. intros _.
    assert (∀ c, c ∈ sortCategoryList localeCompare
                   (categories st ++ [mkCategory (trim value) defaultColor]) ↔
                 c ∈ categories st ∨ c = mkCategory (trim value) defaultColor)
      as Hin.
    { intros c. by rewrite sortCategoryList_Permutation, elem_of_app,
        list_elem_of_singleton. }
    split.
    + eexists. split; [apply Hin; by right|done].
    + unfold getCategoryColor. simpl.
      destruct (list_find _ _) as [[n cat]|] eqn:Hfind; [|done].
      apply list_find_Some in Hfind as (Hn & Hcat & _).
      apply list_elem_of_lookup_2, Hin in Hn as [Hold| ->]; [|done].
      destruct Hdup. apply Exists_exists. exists cat. split; [done|].
      by rewrite Hcat.
Qed.

End ColorOfANewCategory.

(** ** Loading again, saving and loading *)

Lemma loadFromStorage_cleans {T} (parse : string → Parsed T) (key : string)
  (storage : gmap string string) :
  cleanBlob parse ((loadFromStorage parse key storage).2 !! key) ∧
  blobValue parse ((loadFromStorage parse key storage).2 !! key)
    = blobValue parse (storage !! key).
Proof.
  unfold loadFromStorage, cleanBlob, blobValue.
  destruct (storage !! key) as [savedData|] eqn:Hkey; simpl; [|by rewrite Hkey].
  case_bool_decide as Hempty; simpl.
  - rewrite Hkey. split; [by left|by rewrite bool_decide_true].
  - destruct (parse savedData) as [| |v] eqn:Hparse; simpl.
    + by rewrite lookup_delete_eq.
    + rewrite Hkey, bool_decide_false, Hparse by done.
      split; [by right|done].
    + rewrite Hkey, bool_decide_false, Hparse by done.
      split; [by right|done].
Qed.

Lemma loadFromStorage_clean {T} (parse : string → Parsed T) (key : string)
  (storage : gmap string string) :
  cleanBlob parse (storage !! key) →
  (loadFromStorage parse key storage).2 = storage.
Proof.
  unfold loadFromStorage, cleanBlob.
  destruct (storage !! key) as [savedData|]; [|done].
  intros [->|Hok]; [done|]. case_bool_decide; [done|].
  by destruct (parse savedData).
Qed.

Section Reloading.
Variable localeCompare : string → string → Z.
Variable parseIncomes : string → Parsed (list IncomeSource).
Variable parseExpenses : string → Parsed (list Expense).
Variable parseCategories : string → Parsed (list Category).
Variable parseMonthlyData : string → Parsed (gmap string (gmap string jsval)).

Local Abbreviation restore :=
  (initializeState localeCompare parseIncomes parseExpenses parseCategories
     parseMonthlyData).

Lemma initializeState_storage (storage : gmap string string) :
  rs_storage (restore storage) =
    (loadFromStorage parseMonthlyData "monthlyData"
       (loadFromStorage parseCategories "categories"
          (loadFromStorage parseExpenses "recurringExpenses"
             (loadFromStorage parseIncomes "recurringIncomes" storage).2).2).2).2.
Proof.
  unfold initializeState.
  destruct (loadFromStorage parseIncomes _ _) as [? s1]. simpl.
  destruct (loadFromStorage parseExpenses _ _) as [? s2]. simpl.
  destruct (loadFromStorage parseCategories _ _) as [? s3]. simpl.
  by destruct (loadFromStorage parseMonthlyData _ _) as [? s4].
Qed.

(** After a start-up every blob left in the storage is usable. *)
Lemma initializeState_cleans (storage : gmap string string) :
  let storage' := rs_storage (restore storage) in
  (cleanBlob parseIncomes (storage' !! "recurringIncomes") ∧
   blobValue parseIncomes (storage' !! "recurringIncomes")
     = blobValue parseIncomes (storage !! "recurringIncomes")) ∧
  (cleanBlob parseExpenses (storage' !! "recurringExpenses") ∧
   blobValue parseExpenses (storage' !! "recurringExpenses")
     = blobValue parseExpenses (storage !! "recurringExpenses")) ∧
  (cleanBlob parseCategories (storage' !! "categories") ∧
   blobValue parseCategories (storage' !! "categories")
     = blobValue parseCategories (storage !! "categories")) ∧
  (cleanBlob parseMonthlyData (storage' !! "monthlyData") ∧
   blobValue parseMonthlyData (storage' !! "monthlyData")
     = blobValue parseMonthlyData (storage !! "monthlyData")).
Proof.
  intros storage'. subst storage'. rewrite initializeState_storage.
  set (s1 := (loadFromStorage parseIncomes "recurringIncomes" storage).2).
  set (s2 := (loadFromStorage parseExpenses "recurringExpenses" s1).2).
  set (s3 := (loadFromStorage parseCategories "categories" s2).2).
  assert (∀ key, key ≠ "recurringIncomes" → s1 !! key = storage !! key) as E1
    by (intros; by apply loadFromStorage_other).
  assert (∀ key, key ≠ "recurringExpenses" → s2 !! key = s1 !! key) as E2
    by (intros; by apply loadFromStorage_other).
  assert (∀ key, key ≠ "categories" → s3 !! key = s2 !! key) as E3
    by (intros; by apply loadFromStorage_other).
  assert (∀ key, key ≠ "monthlyData" →
            (loadFromStorage parseMonthlyData "monthlyData" s3).2 !! key
              = s3 !! key) as E4
    by (intros; by apply loadFromStorage_other).
  split; [|split; [|split]].
  - rewrite E4, E3, E2 by done. apply loadFromStorage_cleans.
  - rewrite E4, E3 by done. rewrite <- (E1 "recurringExpenses") by done.
    apply loadFromStorage_cleans.
  - rewrite E4 by done. rewrite <- (E1 "categories"), <- (E2 "categories") by done.
    apply loadFromStorage_cleans.
  - rewrite <- (E1 "monthlyData"), <- (E2 "monthlyData"),
      <- (E3 "monthlyData") by done.
    apply loadFromStorage_cleans.
Qed.

(** X16. Start-up is stable: a second start-up on the storage that the
    first one left restores the same templates, categories and ledgers and
    removes nothing more from the storage. *)
Theorem reload_is_stable (storage : gmap string string) :
  let restored :=
    initializeState localeCompare parseIncomes parseExpenses parseCategories
      parseMonthlyData storage in
  let again :=
    initializeState localeCompare parseIncomes parseExpenses parseCategories
      parseMonthlyData (rs_storage restored) in
  rs_recurringIncomes again = rs_recurringIncomes restored ∧
  rs_recurringExpenses again = rs_recurringExpenses restored ∧
  rs_categories again = rs_categories restored ∧
  rs_monthlyData again = rs_monthlyData restored ∧
  rs_storage again = rs_storage restored.
Proof.
  intros restored again. subst restored again.
  destruct (initializeState_cleans storage)
    as ((CI & VI) & (CE & VE) & (CC & VC) & (CM & VM)).
  destruct (initializeState_by_blob localeCompare parseIncomes parseExpenses
              parseCategories parseMonthlyData (rs_storage (restore storage)))
    as (-> & -> & -> & ->).
  destruct (initializeState_by_blob localeCompare parseIncomes parseExpenses
              parseCategories parseMonthlyData storage) as (-> & -> & -> & ->).
  rewrite VI, VE, VC, VM. split_and!; [done..|].
  rewrite (initializeState_storage (rs_storage (restore storage))).
  rewrite (loadFromStorage_clean parseIncomes) by done.
  rewrite (loadFromStorage_clean parseExpenses) by done.
  rewrite (loadFromStorage_clean parseCategories) by done.
  by rewrite (loadFromStorage_clean parseMonthlyData).
Qed.

End Reloading.

Section SavingAndLoading.
Variable localeCompare : string → string → Z.
Variable parseIncomes : string → Parsed (list IncomeSource).
Variable parseExpenses : string → Parsed (list Expense).
Variable parseCategories : string → Parsed (list Category).
Variable parseMonthlyData : string → Parsed (gmap string (gmap string jsval)).
Variable stringifyMonthlyData : gmap string MonthlyData → string.
Variable stringifyIncomes : list IncomeSource → string.
Variable stringifyExpenses : list Expense → string.
Variable stringifyCategories : list Category → string.

Local Abbreviation restore :=
  (initializeState localeCompare parseIncomes parseExpenses parseCategories
     parseMonthlyData).
Local Abbreviation save :=
  (saveDataToLocalStorage stringifyMonthlyData stringifyIncomes
     stringifyExpenses stringifyCategories).

Lemma blobValue_saved {T} (parse : string → Parsed T) (text : string) (v : T) :
  text ≠ "" → parse text = ParsedValue v → blobValue parse (Some text) = Some v.
Proof.
  intros Hne Hparse. unfold blobValue. by rewrite bool_decide_false, Hparse.
Qed.

Lemma cleanBlob_saved {T} (parse : string → Parsed T) (text : string) (v : T) :
  parse text = ParsedValue v → cleanBlob parse (Some text).
Proof. intros Hparse. right. by rewrite Hparse. Qed.

(** The ledgers that the code saves are left alone by the migration. *)
Lemma migrate_encodeLedger (md : gmap string MonthlyData) :
  migrate (encodeLedger <$> md) = encodeLedger <$> md.
Proof.
  unfold migrate. rewrite <- map_fmap_compose. apply map_fmap_ext.
  intros k data _. simpl. apply migrateMonth_settled.
  split; [done|by right].
Qed.

(** X17. What is saved is what the next start-up restores, whatever the
    storage held before. When the four texts written by
    [saveDataToLocalStorage] are not empty and parse back to what was
    printed (the three lists, and for the ledgers the objects with the
    three lists of each month), a start-up on the written storage restores
    the templates of the state, its categories in sorted order and, for
    every month, the ledger that was saved, which the migration leaves as
    it is; nothing is removed from the storage. *)
Theorem saved_state_is_restored (st : State) (storage : gmap string string) :
  stringifyIncomes (recurringIncomes st) ≠ "" →
  parseIncomes (stringifyIncomes (recurringIncomes st))
    = ParsedValue (recurringIncomes st) →
  stringifyExpenses (recurringExpenses st) ≠ "" →
  parseExpenses (stringifyExpenses (recurringExpenses st))
    = ParsedValue (recurringExpenses st) →
  stringifyCategories (categories st) ≠ "" →
  parseCategories (stringifyCategories (categories st))
    = ParsedValue (categories st) →
  stringifyMonthlyData (monthlyData st) ≠ "" →
  parseMonthlyData (stringifyMonthlyData (monthlyData st))
    = ParsedValue (encodeLedger <$> monthlyData st) →
  rs_recurringIncomes (restore (save st storage)) = recurringIncomes st ∧
  rs_recurringExpenses (restore (save st storage)) = recurringExpenses st ∧
  rs_categories (restore (save st storage))
    = sortCategoryList localeCompare (categories st) ∧
  rs_monthlyData (restore (save st storage)) = encodeLedger <$> monthlyData st ∧
  rs_storage (restore (save st storage)) = save st storage.
Proof.
  intros NI PI NE PE NC PC NM PM.
  assert (save st storage !! "recurringIncomes"
            = Some (stringifyIncomes (recurringIncomes st))) as LI
    by (unfold saveDataToLocalStorage; by simplify_map_eq).
  assert (save st storage !! "recurringExpenses"
            = Some (stringifyExpenses (recurringExpenses st))) as LE
    by (unfold saveDataToLocalStorage; by simplify_map_eq).
  assert (save st storage !! "categories"
            = Some (stringifyCategories (categories st))) as LC
    by (unfold saveDataToLocalStorage; by simplify_map_eq).
  assert (save st storage !! "monthlyData"
            = Some (stringifyMonthlyData (monthlyData st))) as LM
    by (unfold saveDataToLocalStorage; by simplify_map_eq).
  destruct (initializeState_by_blob localeCompare parseIncomes parseExpenses
              parseCategories parseMonthlyData (save st storage))
    as (-> & -> & -> & ->).
  rewrite LI, LE, LC, LM.
  rewrite (blobValue_saved parseIncomes _ _ NI PI).
  rewrite (blobValue_saved parseExpenses _ _ NE PE).
  rewrite (blobValue_saved parseCategories _ _ NC PC).
  rewrite (blobValue_saved parseMonthlyData _ _ NM PM).
  split_and!; [done..|apply migrate_encodeLedger|].
  rewrite initializeState_storage.
  rewrite (loadFromStorage_clean parseIncomes)
    by (rewrite LI; by eapply cleanBlob_saved).
  rewrite (loadFromStorage_clean parseExpenses)
    by (rewrite LE; by eapply cleanBlob_saved).
  rewrite (loadFromStorage_clean parseCategories)
    by (rewrite LC; by eapply cleanBlob_saved).
  apply loadFromStorage_clean. rewrite LM. by eapply cleanBlob_saved.
Qed.

End SavingAndLoading.

Section SortedRegistry.
Variable localeCompare : string → string → Z.

Lemma insertCategory_head (c : Category) (l : list Category) :
  (∀ a b, (localeCompare a b < 0)%Z → (0 < localeCompare b a)%Z) →
  HdRel (nameLe localeCompare) c l →
  insertCategory localeCompare c l = c :: l.
Proof.
  intros Hanti Hhd. destruct l as [|d l]; [done|]. simpl.
  case_bool_decide as Hlt; [|done].
  apply Hanti in Hlt. inversion Hhd as [|? ? Hle]; subst.
  unfold nameLe in Hle. lia.
Qed.

Lemma sortCategoryList_fixpoint (l : list Category) :
  (∀ a b, (localeCompare a b < 0)%Z → (0 < localeCompare b a)%Z) →
  Sorted (nameLe localeCompare) l → sortCategoryList localeCompare l = l.
Proof.
  intros Hanti. induction 1 as [|c l Hs IH Hhd]; [done|].
  unfold sortCategoryList in *. simpl. rewrite IH.
  by apply insertCategory_head.
Qed.

(** X18. With a comparator whose sign flips when its arguments are swapped,
    sorting the registry changes nothing once it is sorted: a sorted list
    of categories is returned as it is, and sorting twice is sorting
    once. *)
Theorem sorted_registry_is_kept (st : State) :
  (∀ a b, (localeCompare a b < 0)%Z ↔ (0 < localeCompare b a)%Z) →
  (Sorted (nameLe localeCompare) (categories st) →
   sortCategories localeCompare st = st) ∧
  sortCategories localeCompare (sortCategories localeCompare st)
    = sortCategories localeCompare st.
Proof.
  intros Hanti.
  assert (∀ a b, (localeCompare a b < 0)%Z → (0 < localeCompare b a)%Z) as Hflip
    by (intros a b; apply Hanti).
  assert (∀ a b, (0 ≤ localeCompare a b)%Z → (localeCompare b a ≤ 0)%Z) as Hcons.
  { intros a b Hab. destruct (decide (0 < localeCompare b a)%Z) as [Hba|]; [|lia].
    apply Hanti in Hba. lia. }
  split.
  - intros Hsorted. unfold sortCategories.
    rewrite sortCategoryList_fixpoint by done. by destruct st.
  - unfold sortCategories. destruct st; simpl. unfold with_categories; simpl.
    f_equal. apply sortCategoryList_fixpoint; [done|].
    by apply sortCategoryList_Sorted.
Qed.

End SortedRegistry.

(** X19. The migration loses no list and invents none. In every migrated
    ledger [realExpenses] counts as true; a [realExpenses] or
    [plannedExpenses] value that counted as true is the one found after the
    migration; a legacy [expenses] value that counts as true is found
    either under [plannedExpenses] or still under [expenses]; and a ledger
    without a usable legacy list keeps its [expenses] and
    [plannedExpenses] properties as they were. *)
Theorem migration_keeps_every_list (md : gmap string (gmap string jsval))
  (k : string) (month : gmap string jsval) :
  md !! k = Some month →
  ∃ month', migrate md !! k = Some month' ∧
    truthyProp month' "realExpenses" = true ∧
    (truthyProp month "realExpenses" = true →
     month' !! "realExpenses" = month !! "realExpenses") ∧
    (truthyProp month "plannedExpenses" = true →
     month' !! "plannedExpenses" = month !! "plannedExpenses" ∧
     month' !! "expenses" = month !! "expenses") ∧
    (∀ v, month !! "expenses" = Some v → truthy v = true →
       month' !! "plannedExpenses" = Some v ∨ month' !! "expenses" = Some v) ∧
    (truthyProp month "expenses" = false →
     month' !! "plannedExpenses" = month !! "plannedExpenses" ∧
     month' !! "expenses" = month !! "expenses").
Proof.
  intros Hk. exists (migrateMonth month). split.
  { unfold migrate. by rewrite lookup_fmap, Hk. }
  split; [apply migrateMonth_is_settled|].
  unfold migrateMonth, truthyProp.
  destruct (month !! "expenses") as [v|] eqn:Hexp.
  - destruct (truthy v) eqn:Hv; simpl.
    + destruct (month !! "plannedExpenses") as [p|] eqn:Hpl;
        [destruct (truthy p) eqn:Hp|]; simpl;
        (destruct (month !! "realExpenses") as [r|] eqn:Hre;
          [destruct (truthy r) eqn:Hr|]; simplify_map_eq;
          rewrite ?Hr; simpl; split_and!; intros; simplify_map_eq; auto).
    + destruct (month !! "realExpenses") as [r|] eqn:Hre;
        [destruct (truthy r) eqn:Hr|]; simpl;
        split_and!; intros; simplify_map_eq; auto.
  - destruct (month !! "realExpenses") as [r|] eqn:Hre;
      [destruct (truthy r) eqn:Hr|]; simpl;
      split_and!; intros; simplify_map_eq; auto.
Qed.

(** ** Month keys *)

Lemma pretty_four_digits (year : Z) :
  (1000 ≤ year ≤ 9999)%Z → pretty year = fourDigits year.
Proof.
  intros Hy.
  assert (Forall (λ y, pretty y = fourDigits y) (seqZ 1000 9000)) as Hall
    by (apply (bool_decide_unpack _); vm_compute; exact I).
  rewrite Forall_forall in Hall. apply Hall, elem_of_seqZ. lia.
Qed.

Lemma digit_compare (a b : Z) :
  (0 ≤ a ≤ 9)%Z → (0 ≤ b ≤ 9)%Z →
  Ascii.compare (pretty_N_char (Z.to_N a)) (pretty_N_char (Z.to_N b)) = (a ?= b)%Z.
Proof.
  intros Ha Hb.
  assert (a = 0 ∨ a = 1 ∨ a = 2 ∨ a = 3 ∨ a = 4 ∨ a = 5 ∨ a = 6 ∨ a = 7
          ∨ a = 8 ∨ a = 9)%Z as Hca by lia.
  assert (b = 0 ∨ b = 1 ∨ b = 2 ∨ b = 3 ∨ b = 4 ∨ b = 5 ∨ b = 6 ∨ b = 7
          ∨ b = 8 ∨ b = 9)%Z as Hcb by lia.
  destruct_or!; subst; reflexivity.
Qed.

Lemma month_print (monthIndex : Z) :
  (0 ≤ monthIndex ≤ 11)%Z →
  padStart2 (pretty (monthIndex + 1)%Z)
    = String (pretty_N_char (Z.to_N ((monthIndex + 1) / 10)))
        (String (pretty_N_char (Z.to_N ((monthIndex + 1) `mod` 10))) "").
Proof.
  intros Hm.
  assert (monthIndex = 0 ∨ monthIndex = 1 ∨ monthIndex = 2 ∨ monthIndex = 3
          ∨ monthIndex = 4 ∨ monthIndex = 5 ∨ monthIndex = 6 ∨ monthIndex = 7
          ∨ monthIndex = 8 ∨ monthIndex = 9 ∨ monthIndex = 10
          ∨ monthIndex = 11)%Z as Hc by lia.
  destruct_or!; subst; reflexivity.
Qed.

(** X20. For years of four digits the order of the month keys is the order
    of the months: the key of one month is greater than or equal to the key
    of another, in the comparison that selects "this month and the later
    ones", exactly when the first month is not earlier than the second. *)
Theorem month_keys_order_chronologically (y1 m1 y2 m2 : Z) :
  (1000 ≤ y1 ≤ 9999)%Z → (0 ≤ m1 ≤ 11)%Z →
  (1000 ≤ y2 ≤ 9999)%Z → (0 ≤ m2 ≤ 11)%Z →
  str_ge (getMonthKey y2 m2) (getMonthKey y1 m1) = true ↔ monthLe y1 m1 y2 m2.
Proof.
  intros Hy1 Hm1 Hy2 Hm2. unfold str_ge, getMonthKey, monthLe.
  rewrite (pretty_four_digits y1), (pretty_four_digits y2) by done.
  rewrite (month_print m1), (month_print m2) by done.
  unfold fourDigits, String.leb. simpl.
  assert (∀ y, 1000 ≤ y ≤ 9999 →
            (0 ≤ y / 1000 ≤ 9 ∧ 0 ≤ (y / 100) `mod` 10 ≤ 9 ∧
             0 ≤ (y / 10) `mod` 10 ≤ 9 ∧ 0 ≤ y `mod` 10 ≤ 9 ∧
             y = 1000 * (y / 1000) + 100 * ((y / 100) `mod` 10)
                 + 10 * ((y / 10) `mod` 10) + y `mod` 10))%Z as Hdigits.
  { intros y Hy.
    pose proof (Z.div_mod y 10 ltac:(lia)).
    pose proof (Z.mod_pos_bound y 10 ltac:(lia)).
    pose proof (Z.div_mod (y / 10) 10 ltac:(lia)).
    pose proof (Z.mod_pos_bound (y / 10) 10 ltac:(lia)).
    pose proof (Z.div_mod (y / 100) 10 ltac:(lia)).
    pose proof (Z.mod_pos_bound (y / 100) 10 ltac:(lia)).
    replace (y / 1000)%Z with (y / 100 / 10)%Z
      by (rewrite Z.div_div; [done|lia..]).
    assert (y / 100 = y / 10 / 10)%Z as E100
      by (rewrite Z.div_div; [done|lia..]).
    rewrite E100 in *. lia. }
  assert (∀ m, 0 ≤ m ≤ 11 →
            (0 ≤ (m + 1) / 10 ≤ 9 ∧ 0 ≤ (m + 1) `mod` 10 ≤ 9 ∧
             m + 1 = 10 * ((m + 1) / 10) + (m + 1) `mod` 10))%Z as Hmonth.
  { intros m Hm.
    pose proof (Z.div_mod (m + 1) 10 ltac:(lia)).
    pose proof (Z.mod_pos_bound (m + 1) 10 ltac:(lia)). lia. }
  destruct (Hdigits y1 Hy1) as (A1 & B1 & C1 & D1 & E1).
  destruct (Hdigits y2 Hy2) as (A2 & B2 & C2 & D2 & E2).
  destruct (Hmonth m1 Hm1) as (P1 & Q1 & R1).
  destruct (Hmonth m2 Hm2) as (P2 & Q2 & R2).
  rewrite !digit_compare by done.
  change (Ascii.compare "-" "-") with Eq. cbv iota.
  clear Hdigits Hmonth.
  generalize dependent (y1 / 1000)%Z. generalize dependent ((y1 / 100) `mod` 10)%Z.
  generalize dependent ((y1 / 10) `mod` 10)%Z. generalize dependent (y1 `mod` 10)%Z.
  generalize dependent (y2 / 1000)%Z. generalize dependent ((y2 / 100) `mod` 10)%Z.
  generalize dependent ((y2 / 10) `mod` 10)%Z. generalize dependent (y2 `mod` 10)%Z.
  generalize dependent ((m1 + 1) / 10)%Z. generalize dependent ((m1 + 1) `mod` 10)%Z.
  generalize dependent ((m2 + 1) / 10)%Z. generalize dependent ((m2 + 1) `mod` 10)%Z.
  intros.
  repeat match goal with
         | |- context [match (?a ?= ?b)%Z with _ => _ end] =>
           destruct (Z.compare_spec a b)
         end; split; intros; try done; lia.
Qed.

(** ** Editing the entries of a month *)

Lemma updateAtFirst_id {A} (P : A → Prop) `{∀ x, Decision (P x)}
  (f : A → A) (l : list A) n x :
  list_find P l = Some (n, x) → f x = x → updateAtFirst P f l = l.
Proof.
  intros Hfind Hf. unfold updateAtFirst. rewrite Hfind, Hf.
  apply list_insert_id. by apply list_find_Some in Hfind as (? & _).
Qed.

Lemma list_find_not_elem_of {A B} `{EqDecision B} (g : A → B) (b : B)
  (l : list A) :
  b ∉ g <$> l → list_find (λ x, g x = b) l = None.
Proof.
  intros Hb. apply list_find_None, Forall_forall. intros x Hx <-.
  apply Hb. by apply list_elem_of_fmap_2.
Qed.

Lemma filter_not_elem_of {A B} `{EqDecision B} (g : A → B) (b : B)
  (l : list A) :
  b ∉ g <$> l → filter (λ x, g x ≠ b) l = l.
Proof.
  intros Hb. apply filter_all, Forall_forall. intros x Hx <-.
  apply Hb. by apply list_elem_of_fmap_2.
Qed.

(** X21. An edit that changes nothing changes nothing: opening an entry of
    the month with its pencil and submitting the form with the values the
    entry has leaves every ledger as it was, for a planned expense, an
    income and (when its own values pass the validation of the form) a
    real expense; only the edit is closed. *)
Theorem edit_without_change_is_neutral (s : Session) (now : number) :
  (∀ id n e,
     list_find (λ e, e_id e = id) (getCurrentPlannedExpenses (app s)) = Some (n, e) →
     handleTransactionFormSubmit
       (mkTransactionForm (e_description e) (e_amount e) (e_category e)) now
       (clickEditExpense id s) = closeModal s) ∧
  (∀ id n i category,
     list_find (λ i, i_id i = id) (getCurrentIncomes (app s)) = Some (n, i) →
     handleTransactionFormSubmit
       (mkTransactionForm (i_description i) (i_amount i) category) now
       (clickEditIncome id s) = closeModal s) ∧
  (∀ id n e,
     list_find (λ e, r_id e = id) (getCurrentRealExpenses (app s)) = Some (n, e) →
     r_description e ≠ "" → r_date e ≠ "" → r_linkedCategory e ≠ "" →
     handleAddRealExpense
       (mkRealExpenseForm (r_description e) (Some (r_amount e)) (r_date e)
          (r_linkedCategory e)) now
       (clickEditRealExpense id s) = (cancelRealExpenseEdit s, None)).
Proof.
  split_and!.
  - intros id n e Hfind. unfold clickEditExpense. rewrite Hfind.
    unfold getCurrentPlannedExpenses in Hfind.
    unfold handleTransactionFormSubmit; simpl.
    destruct (monthlyData (app s) !! selectedMonth (app s)) as [data|] eqn:Hsel;
      [|done].
    apply list_find_Some in Hfind as Hid. destruct Hid as (_ & <- & _).
    rewrite (updateAtFirst_id _ _ _ n e) by (done || by destruct e).
    assert (with_plannedExpenses data (plannedExpenses data) = data) as ->
      by (by destruct data).
    rewrite setCurrentMonth_same by done. by destruct s.
  - intros id n i category Hfind. unfold clickEditIncome. rewrite Hfind.
    unfold getCurrentIncomes in Hfind.
    unfold handleTransactionFormSubmit; simpl.
    destruct (monthlyData (app s) !! selectedMonth (app s)) as [data|] eqn:Hsel;
      [|done].
    apply list_find_Some in Hfind as Hid. destruct Hid as (_ & <- & _).
    rewrite (updateAtFirst_id _ _ _ n i) by (done || by destruct i).
    assert (with_realIncome data (realIncome data) = data) as ->
      by (by destruct data).
    rewrite setCurrentMonth_same by done. by destruct s.
  - intros id n e Hfind Hdesc Hdate Hcat. unfold clickEditRealExpense.
    rewrite Hfind. unfold getCurrentRealExpenses in Hfind.
    unfold handleAddRealExpense; simpl.
    rewrite !bool_decide_false by done. simpl.
    destruct (monthlyData (app s) !! selectedMonth (app s)) as [data|] eqn:Hsel;
      [|done].
    apply list_find_Some in Hfind as Hid. destruct Hid as (_ & <- & _).
    rewrite (updateAtFirst_id _ _ _ n e) by (done || by destruct e).
    assert (with_realExpenses data (realExpenses data) = data) as ->
      by (by destruct data).
    rewrite setCurrentMonth_same by done. by destruct s.
Qed.

Lemma Forall2_updateAtFirst {A} (P : A → Prop) `{∀ x, Decision (P x)}
  (R : A → A → Prop) (f : A → A) (l : list A) :
  (∀ x, R x x) → (∀ x, P x → R x (f x)) → Forall2 R l (updateAtFirst P f l).
Proof.
  intros Hrefl Hf. induction l as [|x l IH]; [constructor|].
  rewrite updateAtFirst_cons. destruct (decide (P x)) as [HP|HP].
  - constructor; [by apply Hf|]. by apply Forall_Forall2_diag, Forall_true.
  - by constructor.
Qed.

Lemma updateAtFirst_elem_of {A} (P : A → Prop) `{∀ x, Decision (P x)}
  (f : A → A) (l : list A) :
  Exists P l → ∃ x, x ∈ l ∧ P x ∧ f x ∈ updateAtFirst P f l.
Proof.
  induction 1 as [x l HP|x l _ IH].
  - exists x. rewrite updateAtFirst_cons, decide_True by done.
    split_and!; [left|done|left].
  - rewrite updateAtFirst_cons. destruct (decide (P x)) as [HP|HP].
    + exists x. split_and!; [left|done|left].
    + destruct IH as (y & Hy & HPy & Hfy). exists y.
      split_and!; [by right|done|by right].
Qed.

(** X22. An edit of a planned entry of the month keeps what identifies it.
    After the pencil on an id that the month has and a submission, an entry
    of that id carries the values of the form, the list has the same
    length, and at every position the entry has the id, the recurring flag
    and the template link it had; the entries with another id are
    unchanged, and so are the other lists of the month. *)
Theorem entry_edit_keeps_identity_and_link (s : Session) (form : TransactionForm)
  (now : number) (data : MonthlyData) :
  monthlyData (app s) !! selectedMonth (app s) = Some data →
  (∀ id, id ∈ e_id <$> plannedExpenses data →
     ∃ data',
       monthlyData (app (handleTransactionFormSubmit form now
                           (clickEditExpense id s)))
         !! selectedMonth (app s) = Some data' ∧
       realIncome data' = realIncome data ∧
       realExpenses data' = realExpenses data ∧
       Forall2 (λ e e', e_id e' = e_id e ∧ e_isRecurring e' = e_isRecurring e ∧
                        e_recurringId e' = e_recurringId e ∧
                        (e_id e ≠ id → e' = e))
         (plannedExpenses data) (plannedExpenses data') ∧
       ∃ e', e' ∈ plannedExpenses data' ∧ e_id e' = id ∧
             e_description e' = tf_description form ∧
             e_amount e' = tf_amount form ∧ e_category e' = tf_category form) ∧
  (∀ id, id ∈ i_id <$> realIncome data →
     ∃ data',
       monthlyData (app (handleTransactionFormSubmit form now
                           (clickEditIncome id s)))
         !! selectedMonth (app s) = Some data' ∧
       plannedExpenses data' = plannedExpenses data ∧
       realExpenses data' = realExpenses data ∧
       Forall2 (λ i i', i_id i' = i_id i ∧ i_isRecurring i' = i_isRecurring i ∧
                        i_recurringId i' = i_recurringId i ∧
                        (i_id i ≠ id → i' = i))
         (realIncome data) (realIncome data') ∧
       ∃ i', i' ∈ realIncome data' ∧ i_id i' = id ∧
             i_description i' = tf_description form ∧
             i_amount i' = tf_amount form).
Proof.
  intros Hsel. split.
  - intros id (e0 & Hid & He0)%list_elem_of_fmap.
    destruct (list_find_elem_of (λ e, e_id e = id) (plannedExpenses data) e0)
      as [[n e] Hfind]; [done..|].
    unfold clickEditExpense, getCurrentPlannedExpenses. rewrite Hsel, Hfind.
    unfold handleTransactionFormSubmit; simpl. rewrite Hsel. simpl.
    rewrite lookup_insert_eq. eexists. split; [done|]. simpl.
    apply list_find_Some in Hfind as Hid'. destruct Hid' as (_ & Heid & _).
    rewrite Heid. split_and!; [done..| |].
    + apply Forall2_updateAtFirst; [done|]. intros x Hx. by split_and!.
    + destruct (updateAtFirst_elem_of (λ x, e_id x = id)
                  (setExpenseFields (tf_description form) (tf_amount form)
                     (tf_category form)) (plannedExpenses data))
        as (x & _ & Hx & Hfx).
      { apply Exists_exists. by exists e0. }
      eexists. split; [exact Hfx|]. by split_and!.
  - intros id (i0 & Hid & Hi0)%list_elem_of_fmap.
    destruct (list_find_elem_of (λ i, i_id i = id) (realIncome data) i0)
      as [[n i] Hfind]; [done..|].
    unfold clickEditIncome, getCurrentIncomes. rewrite Hsel, Hfind.
    unfold handleTransactionFormSubmit; simpl. rewrite Hsel. simpl.
    rewrite lookup_insert_eq. eexists. split; [done|]. simpl.
    apply list_find_Some in Hfind as Hid'. destruct Hid' as (_ & Heid & _).
    rewrite Heid. split_and!; [done..| |].
    + apply Forall2_updateAtFirst; [done|]. intros x Hx. by split_and!.
    + destruct (updateAtFirst_elem_of (λ x, i_id x = id)
                  (setIncomeFields (tf_description form) (tf_amount form))
                  (realIncome data))
        as (x & _ & Hx & Hfx).
      { apply Exists_exists. by exists i0. }
      eexists. split; [exact Hfx|]. by split_and!.
Qed.

(** X23. An id that no entry of the month carries changes nothing: the
    pencil leaves the session as it is, and so does the bin when the month
    has a ledger, for the planned expenses, the incomes and the real
    expenses alike. *)
Theorem unknown_id_changes_nothing (s : Session) (id : number) :
  (id ∉ e_id <$> getCurrentPlannedExpenses (app s) →
   clickEditExpense id s = s ∧
   (monthReady (app s) → ∀ confirmed, clickDeleteExpense id confirmed s = Some s)) ∧
  (id ∉ i_id <$> getCurrentIncomes (app s) →
   clickEditIncome id s = s ∧
   (monthReady (app s) → clickDeleteIncome id s = Some s)) ∧
  (id ∉ r_id <$> getCurrentRealExpenses (app s) →
   clickEditRealExpense id s = s ∧
   (monthReady (app s) →
    ∀ confirmed, clickDeleteRealExpense id confirmed s = Some s)).
Proof.
  unfold monthReady, getCurrentPlannedExpenses, getCurrentIncomes,
    getCurrentRealExpenses, clickEditExpense, clickEditIncome,
    clickEditRealExpense, clickDeleteExpense, clickDeleteIncome,
    clickDeleteRealExpense, handleDeleteRealExpense,
    getCurrentPlannedExpenses, getCurrentIncomes, getCurrentRealExpenses.
  destruct (monthlyData (app s) !! selectedMonth (app s)) as [data|] eqn:Hsel.
  - split_and!; intros Hid; (split; [by rewrite list_find_not_elem_of|]);
      intros _; try intros [|]; try done;
      rewrite filter_not_elem_of by done; f_equal.
    + assert (with_plannedExpenses data (plannedExpenses data) = data) as ->
        by (by destruct data).
      rewrite setCurrentMonth_same by done. by destruct s.
    + assert (with_realIncome data (realIncome data) = data) as ->
        by (by destruct data).
      rewrite setCurrentMonth_same by done. by destruct s.
    + assert (with_realExpenses data (realExpenses data) = data) as ->
        by (by destruct data).
      rewrite setCurrentMonth_same by done. by destruct s.
  - split_and!; intros _; (split; [done|]); by intros [? ?].
Qed.

End FurtherProperties.

(** * Concrete runs *)

Section Runs.
#[local] Existing Instance Z_number.

Lemma sampleLocaleCompare_consistent (a b : string) :
  (0 ≤ sampleLocaleCompare a b)%Z → (sampleLocaleCompare b a ≤ 0)%Z.
Proof.
  unfold sampleLocaleCompare. rewrite (String.compare_antisym a b).
  destruct (String.compare b a); simpl; lia.
Qed.

(** The comparison of month keys across a year and within one. *)
Example month_keys_compare :
  str_ge "2024-10" "2024-03" = true ∧ str_ge "2024-03" "2024-03" = true ∧
  str_ge "2023-12" "2024-01" = false.
Proof. by split_and!. Qed.

(** C4 at [sampleState]: April 2024 is not materialized. *)
Lemma seed_unmaterialized_month_witness :
  monthlyData sampleState !! "2024-04" = None ∧
  (∃ data, monthlyData (navigateMonth sampleIds sampleIds "2024-04" sampleState)
             !! "2024-04" = Some data ∧ seededFrom sampleState data).
Proof.
  split; [reflexivity|].
  apply (seed_unmaterialized_month sampleIds sampleIds "2024-04" sampleState).
  reflexivity.
Defined.

(** C1 at [sampleState]: a recurring income created in March 2024 with the
    fresh id 3. *)
Lemma create_template_propagates_witness :
  editingRecurringTransaction sampleState = None ∧
  f_amount bonusForm = Some 300%Z ∧
  f_description bonusForm ≠ "" ∧
  (∀ k data, monthlyData sampleState !! k = Some data →
             incomesLinkedTo 3%Z data = []) ∧
  let st' := handleRecurringFormSubmit bonusForm 3%Z sampleInstId sampleState in
  let T := mkIncomeSource 3%Z "Bonus" 300%Z None None in
  dom (monthlyData st') = dom (monthlyData sampleState) ∧
  recurringIncomes st' = [salary; T] ∧
  ∀ k data', monthlyData st' !! k = Some data' →
    if str_ge k "2024-03"
    then ∃ inst, incomesLinkedTo 3%Z data' = [inst] ∧ incomeInstanceOf T inst
    else incomesLinkedTo 3%Z data' = [].
Proof.
  assert (∀ k data, monthlyData sampleState !! k = Some data →
                    incomesLinkedTo 3%Z data = []) as Hfresh.
  { intros k data. unfold sampleState; simpl.
    rewrite lookup_insert_Some, lookup_singleton_Some.
    intros [[_ <-]|[_ [_ <-]]]; reflexivity. }
  split_and!; [reflexivity|reflexivity|discriminate|exact Hfresh|].
  apply (create_template_propagates bonusForm 3%Z sampleInstId sampleState 300%Z);
    [reflexivity|reflexivity|discriminate|exact Hfresh].
Defined.

(** C2 at [editingSalary]: the template 1 is edited in March 2024. *)
Lemma update_template_first_instance_witness :
  editingRecurringTransaction editingSalary = Some (EditingIncome salary) ∧
  f_amount raiseForm = Some 2100%Z ∧
  f_description raiseForm ≠ "" ∧
  let st' := handleRecurringFormSubmit raiseForm 0%Z sampleInstId editingSalary in
  firstUpdated (λ t, i_id t = 1%Z) (setIncomeFields "Paie" 2100%Z)
    (recurringIncomes editingSalary) (recurringIncomes st') ∧
  (Exists (λ t, i_id t = 1%Z) (recurringIncomes editingSalary) →
   ∃ t, t ∈ recurringIncomes st' ∧ i_id t = 1%Z ∧
        i_description t = "Paie" ∧ i_amount t = 2100%Z) ∧
  recurringExpenses st' = recurringExpenses editingSalary ∧
  ∀ k data, monthlyData editingSalary !! k = Some data →
    ∃ data', monthlyData st' !! k = Some data' ∧
      if str_ge k "2024-03" then
        firstUpdated (λ i, i_recurringId i = Some 1%Z)
          (setIncomeFields "Paie" 2100%Z) (realIncome data) (realIncome data') ∧
        (length (incomesLinkedTo 1%Z data) ≤ 1 →
         Forall (λ i, i_recurringId i = Some 1%Z →
                      i_description i = "Paie" ∧ i_amount i = 2100%Z)
           (realIncome data')) ∧
        plannedExpenses data' = plannedExpenses data ∧
        realExpenses data' = realExpenses data
      else data' = data.
Proof.
  split_and!; [reflexivity|reflexivity|discriminate|].
  apply (update_template_first_instance raiseForm 0%Z sampleInstId editingSalary
           (EditingIncome salary) 2100%Z); [reflexivity|reflexivity|discriminate].
Defined.

(** C2 as stated fails at [doubledState]: after the update of the template
    1 at the pivot 2024-03 the second instance linked to it in March 2024
    still has the former description and amount. *)
Lemma update_skips_second_instance :
  let st' := handleRecurringFormSubmit raiseForm 0%Z sampleInstId doubledState in
  ¬ (∀ k data', monthlyData st' !! k = Some data' → str_ge k "2024-03" = true →
       Forall (λ i, i_recurringId i = Some 1%Z →
                    i_description i = "Paie" ∧ i_amount i = 2100%Z)
         (realIncome data')).
Proof.
  intros st' Hall.
  specialize (Hall "2024-03"
    {| realIncome := [setIncomeFields "Paie" 2100%Z (instanceOfIncome 11%Z salary);
                      instanceOfIncome 14%Z salary];
       plannedExpenses := [];
       realExpenses := [] |} eq_refl eq_refl).
  simpl in Hall. rewrite Forall_cons, Forall_cons in Hall.
  destruct Hall as (_ & Hsecond & _).
  destruct (Hsecond eq_refl) as [Hdesc _]. discriminate Hdesc.
Qed.

(** C6 as stated fails at [orphanState]: no template has the id 1, and the
    submission changes the ledger of March 2024 all the same. *)
Lemma orphan_instance_updated_without_template :
  let st' := handleRecurringFormSubmit raiseForm 0%Z sampleInstId orphanState in
  Forall (λ t, i_id t ≠ 1%Z) (recurringIncomes orphanState) ∧
  monthlyData st' ≠ monthlyData orphanState ∧
  (realIncome <$> monthlyData st' !! "2024-03") =
    Some [mkIncomeSource 11%Z "Paie" 2100%Z (Some true) (Some 1%Z)].
Proof.
  intros st'. split_and!.
  - constructor.
  - intros Heq. apply (f_equal (λ md, realIncome <$> md !! "2024-03")) in Heq.
    vm_compute in Heq. discriminate Heq.
  - reflexivity.
Qed.

(** C6 at [orphanState]: the stores, the categories and February 2024 are
    unchanged. *)
Lemma update_missing_template_witness :
  editingRecurringTransaction orphanState = Some (EditingIncome salary) ∧
  f_amount raiseForm = Some 2100%Z ∧
  f_description raiseForm ≠ "" ∧
  Forall (λ t, i_id t ≠ 1%Z) (recurringIncomes orphanState) ∧
  let st' := handleRecurringFormSubmit raiseForm 0%Z sampleInstId orphanState in
  recurringIncomes st' = recurringIncomes orphanState ∧
  recurringExpenses st' = recurringExpenses orphanState ∧
  categories st' = categories orphanState ∧
  (∀ k data, monthlyData orphanState !! k = Some data →
     str_ge k "2024-03" = false ∨ incomesLinkedTo 1%Z data = [] →
     monthlyData st' !! k = Some data) ∧
  ((∀ k data, monthlyData orphanState !! k = Some data →
      str_ge k "2024-03" = true → incomesLinkedTo 1%Z data = []) →
   monthlyData st' = monthlyData orphanState).
Proof.
  split_and!; [reflexivity|reflexivity|discriminate|constructor|].
  apply (update_missing_template raiseForm 0%Z sampleInstId orphanState
           (EditingIncome salary) 2100%Z);
    [reflexivity|reflexivity|discriminate|constructor].
Defined.

(** C5 as stated fails at [sampleState]: nothing refers to "Loisirs", the
    user answers no to the confirmation, and the category stays. *)
Lemma delete_unused_category_declined :
  let result := handleDeleteCategory "Loisirs" false sampleState in
  ¬ (∃ k data e, monthlyData sampleState !! k = Some data ∧
                 e ∈ plannedExpenses data ∧ e_category e = "Loisirs") ∧
  ¬ (∃ k data e, monthlyData sampleState !! k = Some data ∧
                 e ∈ realExpenses data ∧ r_linkedCategory e = "Loisirs") ∧
  ¬ (∃ e, e ∈ recurringExpenses sampleState ∧ e_category e = "Loisirs") ∧
  result.2 = NotConfirmed ∧
  mkCategory "Loisirs" "#ec4899" ∈ categories result.1.
Proof.
  intros result. split_and!.
  - rewrite <- isUsedInPlanned_spec. by vm_compute.
  - rewrite <- isUsedInReal_spec. by vm_compute.
  - rewrite <- isUsedInRecurring_spec. by vm_compute.
  - reflexivity.
  - by apply (list_elem_of_lookup_2 _ 1).
Qed.

(** Scenario 8 of the specification, with the category "Logement": the
    refusal names the planned and the recurring expenses. *)
Example delete_used_category :
  handleDeleteCategory "Logement" true sampleState =
    (sampleState, CategoryInUse [PlannedUsage; RecurringUsage]).
Proof. reflexivity. Qed.

Example delete_unused_category_confirmed :
  categories (handleDeleteCategory "Loisirs" true sampleState).1 =
    [mkCategory "Logement" "#ef4444"; mkCategory "Repas" "#eab308"].
Proof. reflexivity. Qed.

(** C8 as stated fails at [sampleState]: a name made of spaces is refused
    although no category of the registry matches it. *)
Lemma add_blank_category_refused :
  let result :=
    handleAddCategory sampleToLowerCase sampleTrim sampleLocaleCompare
      "  " sampleState in
  result.2 = Some InvalidOrDuplicateCategory ∧
  result.1 = sampleState ∧
  ¬ (∃ c, c ∈ categories sampleState ∧
          sampleToLowerCase (name c) = sampleToLowerCase (sampleTrim "  ")).
Proof.
  intros result. split_and!; [reflexivity..|].
  intros (c & Hc & Hname). unfold sampleState in Hc; simpl in Hc.
  rewrite !elem_of_cons, elem_of_nil in Hc.
  destruct Hc as [->|[->|[->|[]]]]; vm_compute in Hname; discriminate Hname.
Qed.

Example add_category_sorted :
  handleAddCategory sampleToLowerCase sampleTrim sampleLocaleCompare
    " Animaux " sampleState =
  (with_categories sampleState
     [mkCategory "Animaux" "#94a3b8"; mkCategory "Logement" "#ef4444";
      mkCategory "Loisirs" "#ec4899"; mkCategory "Repas" "#eab308"],
   None).
Proof. reflexivity. Qed.

Example add_category_duplicate :
  handleAddCategory sampleToLowerCase sampleTrim sampleLocaleCompare
    "LOISIRS" sampleState = (sampleState, Some InvalidOrDuplicateCategory).
Proof. reflexivity. Qed.

Example change_color :
  categories (handleColorChange "Repas" "#000000" sampleState) =
    [mkCategory "Logement" "#ef4444"; mkCategory "Loisirs" "#ec4899";
     mkCategory "Repas" "#000000"].
Proof. reflexivity. Qed.

(** Deleting the template 1 while March 2024 is selected empties the
    recurring incomes of March and leaves February as it was. *)
Example delete_salary :
  let st' := handleDeleteRecurring 1%Z income sampleState in
  recurringIncomes st' = [] ∧
  monthlyData st' !! "2024-03" = Some (with_realIncome march []) ∧
  monthlyData st' !! "2024-02" = Some february.
Proof. by split_and!. Qed.

Example migrate_legacy : migrateMonth legacyLedger = currentLedger.
Proof. reflexivity. Qed.

Example migrate_current : migrateMonth currentLedger = currentLedger.
Proof. reflexivity. Qed.

(** A [realExpenses] that holds [null] does not count as present. *)
Example migrate_null_realExpenses :
  migrateMonth {[ "plannedExpenses" := JArr []; "realExpenses" := JNull ]}
  !! "realExpenses" = Some (JArr []).
Proof. reflexivity. Qed.

(** C9 as stated fails at [nullStorage]. The categories blob is there and
    [JSON.parse] accepts it, so it is neither absent nor corrupt, and the
    start-up leaves it in the storage; the seed list is installed all the
    same, because the value, [null], is false as a condition. *)
Lemma null_categories_blob_gets_seed_list :
  let restored :=
    initializeState sampleLocaleCompare sampleParseIncomes sampleParseExpenses
      sampleParseCategories sampleParseMonthlyData nullStorage in
  nullStorage !! "categories" = Some "null" ∧
  sampleParseJson "null" = Some JNull ∧
  sampleParseCategories "null" = ParsedFalsy ∧
  ¬ blobUnusable sampleParseCategories (nullStorage !! "categories") ∧
  rs_storage restored !! "categories" = Some "null" ∧
  rs_categories restored = sortCategoryList sampleLocaleCompare defaultCategories.
Proof.
  intros restored. split_and!; [reflexivity..| |reflexivity|reflexivity].
  intros [Habsent|[Hempty|(savedData & Hblob & Hparse)]].
  - discriminate Habsent.
  - discriminate Hempty.
  - injection Hblob as <-. vm_compute in Hparse. discriminate Hparse.
Qed.

Example restore_sampleStorage :
  let restored :=
    initializeState sampleLocaleCompare sampleParseIncomes sampleParseExpenses
      sampleParseCategories sampleParseMonthlyData sampleStorage in
  rs_categories restored = [] ∧
  rs_recurringIncomes restored = [] ∧
  rs_recurringExpenses restored = [] ∧
  rs_monthlyData restored = ∅ ∧
  rs_storage restored !! "recurringIncomes" = None ∧
  rs_storage restored !! "categories" = Some "[]".
Proof. by split_and!. Qed.

Example restore_empty_storage :
  rs_categories
    (initializeState sampleLocaleCompare sampleParseIncomes sampleParseExpenses
       sampleParseCategories sampleParseMonthlyData ∅) =
  sortCategoryList sampleLocaleCompare defaultCategories.
Proof. reflexivity. Qed.

(** The outcomes of the stand-in parser on some texts. *)
Example sampleParse_outcomes :
  sampleParseCategories "[]" = ParsedValue [] ∧
  sampleParseCategories "{oops" = ParseThrows ∧
  sampleParseCategories "" = ParseThrows ∧
  sampleParseCategories "null" = ParsedFalsy ∧
  sampleParseCategories "false" = ParsedFalsy ∧
  sampleParseCategories "0" = ParsedFalsy ∧
  sampleParseCategories
    (sampleStringifyCategories [mkCategory "Repas" "#eab308"])
  = ParsedValue [mkCategory "Repas" "#eab308"].
Proof. by split_and!. Qed.

(** ** Further runs *)

Lemma sampleState_fresh_3 :
  freshTemplateId 3%Z sampleState.
Proof.
  unfold freshTemplateId. split_and!.
  - simpl. intros Hin%list_elem_of_singleton. discriminate.
  - simpl. intros Hin%list_elem_of_singleton. discriminate.
  - intros k data. unfold sampleState; simpl.
    rewrite lookup_insert_Some, lookup_singleton_Some.
    intros [[_ <-]|[_ [_ <-]]]; by split.
Qed.

(** X1 at [sampleState]: the recurring income "Bonus" is created with the
    fresh id 3 and deleted again. *)
Lemma create_then_delete_restores_witness :
  editingRecurringTransaction sampleState = None ∧
  f_amount bonusForm = Some 300%Z ∧
  f_description bonusForm ≠ "" ∧
  freshTemplateId 3%Z sampleState ∧
  handleDeleteRecurring 3%Z (recurringModalType sampleState)
    (handleRecurringFormSubmit bonusForm 3%Z sampleInstId sampleState)
  = sampleState.
Proof.
  split_and!; [reflexivity|reflexivity|discriminate|exact sampleState_fresh_3|].
  apply (create_then_delete_restores bonusForm 3%Z sampleInstId sampleState 300%Z);
    [reflexivity|reflexivity|discriminate|exact sampleState_fresh_3].
Defined.

(** X2 at [sampleState]: "Bonus" is created in March 2024, then January
    2024 is visited for the first time. *)
Lemma seed_after_create_ignores_pivot_witness :
  editingRecurringTransaction sampleState = None ∧
  f_amount bonusForm = Some 300%Z ∧
  f_description bonusForm ≠ "" ∧
  monthlyData sampleState !! "2024-01" = None ∧
  str_ge "2024-01" (selectedMonth sampleState) = false ∧
  let st1 := handleRecurringFormSubmit bonusForm 3%Z sampleInstId sampleState in
  ∃ data,
    monthlyData (navigateMonth sampleIds sampleIds "2024-01" st1) !! "2024-01"
      = Some data ∧
    ∃ inst, inst ∈ realIncome data ∧
      incomeInstanceOf (mkIncomeSource 3%Z "Bonus" 300%Z None None) inst.
Proof.
  split_and!; [reflexivity|reflexivity|discriminate|reflexivity|reflexivity|].
  apply (seed_after_create_ignores_pivot bonusForm 3%Z sampleInstId sampleIds
           sampleIds sampleState 300%Z "2024-01");
    [reflexivity|reflexivity|discriminate|reflexivity].
Defined.

(** X3 at [sampleState]: the template 1 is deleted, then April 2024 is
    visited for the first time. *)
Lemma deleted_template_stays_out_witness :
  monthlyData sampleState !! "2024-04" = None ∧
  let st1 := @handleDeleteRecurring Z_number 1%Z income sampleState in
  ∃ data,
    monthlyData (navigateMonth sampleIds sampleIds "2024-04" st1) !! "2024-04"
      = Some data ∧
    incomesLinkedTo 1%Z data = [].
Proof.
  split; [reflexivity|].
  apply (deleted_template_stays_out (H:=Z_number) 1%Z income sampleIds sampleIds sampleState
           "2024-04"); reflexivity.
Defined.

(** X4 at [sampleState]: the template 1 is opened, deleted, and the form
    submitted with a raise. *)
Lemma edit_of_deleted_template_is_dropped_witness :
  f_amount raiseForm = Some 2100%Z ∧
  f_description raiseForm ≠ "" ∧
  Exists (λ t : IncomeSource, i_id t = 1%Z) (recurringIncomes sampleState) ∧
  let st1 := @clickEditRecurring Z_number 1%Z income sampleState in
  let st2 := clickDeleteRecurring 1%Z income true st1 in
  is_Some (editingRecurringTransaction st2) ∧
  handleRecurringFormSubmit raiseForm 5%Z sampleInstId st2
    = with_editingRecurring st2 None.
Proof.
  assert (Exists (λ t : IncomeSource, i_id t = 1%Z) (recurringIncomes sampleState)) as Hex
    by (by left).
  split_and!; [reflexivity|discriminate|exact Hex|].
  apply (edit_of_deleted_template_is_dropped (H:=Z_number) 1%Z income raiseForm 5%Z
           sampleInstId sampleState 2100%Z); [reflexivity|discriminate|exact Hex].
Defined.

(** X9 at [sampleSession]: a cinema ticket is added with the id 77 and
    deleted again. *)
Lemma add_then_delete_real_expense_witness :
  rf_amount cinemaForm = Some 12%Z ∧
  rf_description cinemaForm ≠ "" ∧ rf_date cinemaForm ≠ "" ∧
  rf_linkedCategory cinemaForm ≠ "" ∧
  editingRealExpense sampleSession = None ∧
  monthReady (app sampleSession) ∧
  Forall (λ e, r_id e ≠ 77%Z) (getCurrentRealExpenses (app sampleSession)) ∧
  (handleAddRealExpense cinemaForm 77%Z sampleSession).2 = None ∧
  handleDeleteRealExpense 77%Z (handleAddRealExpense cinemaForm 77%Z sampleSession).1
    = Some sampleSession.
Proof.
  assert (monthReady (app sampleSession)) as Hready by (by eexists).
  assert (Forall (λ e, r_id e ≠ 77%Z) (getCurrentRealExpenses (app sampleSession)))
    as Hfresh by (by repeat constructor).
  split_and!;
    [reflexivity|discriminate|discriminate|discriminate|reflexivity
    |exact Hready|exact Hfresh|..];
    apply (add_then_delete_real_expense cinemaForm 77%Z sampleSession 12%Z);
    first [reflexivity|discriminate|exact Hready|exact Hfresh].
Defined.

(** X10 at [staleSession]: the expense under edit belongs to February. *)
Lemma stale_real_expense_edit_is_dropped_witness :
  rf_amount cinemaForm = Some 12%Z ∧
  rf_description cinemaForm ≠ "" ∧ rf_date cinemaForm ≠ "" ∧
  rf_linkedCategory cinemaForm ≠ "" ∧
  editingRealExpense staleSession = Some fuel ∧
  Forall (λ e, r_id e ≠ r_id fuel) (getCurrentRealExpenses (app staleSession)) ∧
  handleAddRealExpense cinemaForm 77%Z staleSession
    = (cancelRealExpenseEdit staleSession, None).
Proof.
  assert (Forall (λ e, r_id e ≠ r_id fuel) (getCurrentRealExpenses (app staleSession)))
    as Hgone by (by repeat constructor).
  split_and!;
    [reflexivity|discriminate|discriminate|discriminate|reflexivity|exact Hgone|].
  apply (stale_real_expense_edit_is_dropped cinemaForm 77%Z staleSession 12%Z
           fuel);
    first [reflexivity|discriminate|exact Hgone].
Defined.

(** X14 at [sampleState]: the colour of "Loisirs" is set to black. *)
Lemma color_change_is_read_back_witness :
  "Loisirs" ≠ "" ∧ "#000000" ≠ "" ∧ registered "Loisirs" sampleState ∧
  let st' := handleColorChange "Loisirs" "#000000" sampleState in
  getCategoryColor "Loisirs" st' = "#000000" ∧
  ∀ other, other ≠ "Loisirs" →
           getCategoryColor other st' = getCategoryColor other sampleState.
Proof.
  assert (registered "Loisirs" sampleState) as Hreg.
  { exists (mkCategory "Loisirs" "#ec4899"). split; [|reflexivity].
    right. left. }
  split_and!; [discriminate|discriminate|exact Hreg|].
  apply (color_change_is_read_back "Loisirs" "#000000" sampleState);
    [discriminate|discriminate|exact Hreg].
Defined.

(** X17 at [sampleState], with its templates, its categories and the
    ledgers of two months: the state is saved over [sampleStorage], whose
    recurring-incomes blob did not parse, and restored. *)
Lemma saved_state_is_restored_witness :
  let save := saveDataToLocalStorage sampleStringifyMonthlyData
                sampleStringifyIncomes sampleStringifyExpenses
                sampleStringifyCategories in
  let restore := initializeState sampleLocaleCompare sampleParseIncomes
                   sampleParseExpenses sampleParseCategories
                   sampleParseMonthlyData in
  sampleStringifyIncomes (recurringIncomes sampleState) ≠ "" ∧
  sampleParseIncomes (sampleStringifyIncomes (recurringIncomes sampleState))
    = ParsedValue (recurringIncomes sampleState) ∧
  sampleStringifyExpenses (recurringExpenses sampleState) ≠ "" ∧
  sampleParseExpenses (sampleStringifyExpenses (recurringExpenses sampleState))
    = ParsedValue (recurringExpenses sampleState) ∧
  sampleStringifyCategories (categories sampleState) ≠ "" ∧
  sampleParseCategories (sampleStringifyCategories (categories sampleState))
    = ParsedValue (categories sampleState) ∧
  sampleStringifyMonthlyData (monthlyData sampleState) ≠ "" ∧
  sampleParseMonthlyData (sampleStringifyMonthlyData (monthlyData sampleState))
    = ParsedValue (encodeLedger <$> monthlyData sampleState) ∧
  rs_recurringIncomes (restore (save sampleState sampleStorage))
    = recurringIncomes sampleState ∧
  rs_recurringExpenses (restore (save sampleState sampleStorage))
    = recurringExpenses sampleState ∧
  rs_categories (restore (save sampleState sampleStorage))
    = sortCategoryList sampleLocaleCompare (categories sampleState) ∧
  rs_monthlyData (restore (save sampleState sampleStorage))
    = encodeLedger <$> monthlyData sampleState ∧
  rs_storage (restore (save sampleState sampleStorage))
    = save sampleState sampleStorage.
Proof.
  intros save restore. subst save restore.
  assert (sampleStringifyIncomes (recurringIncomes sampleState) ≠ "") as NI
    by (intros E; vm_compute in E; discriminate E).
  assert (sampleStringifyExpenses (recurringExpenses sampleState) ≠ "") as NE
    by (intros E; vm_compute in E; discriminate E).
  assert (sampleStringifyCategories (categories sampleState) ≠ "") as NC
    by (intros E; vm_compute in E; discriminate E).
  assert (sampleStringifyMonthlyData (monthlyData sampleState) ≠ "") as NM
    by (intros E; vm_compute in E; discriminate E).
  assert (sampleParseIncomes (sampleStringifyIncomes (recurringIncomes sampleState))
            = ParsedValue (recurringIncomes sampleState)) as PI
    by (vm_compute; reflexivity).
  assert (sampleParseExpenses
            (sampleStringifyExpenses (recurringExpenses sampleState))
            = ParsedValue (recurringExpenses sampleState)) as PE
    by (vm_compute; reflexivity).
  assert (sampleParseCategories (sampleStringifyCategories (categories sampleState))
            = ParsedValue (categories sampleState)) as PC
    by (vm_compute; reflexivity).
  assert (sampleParseMonthlyData
            (sampleStringifyMonthlyData (monthlyData sampleState))
            = ParsedValue (encodeLedger <$> monthlyData sampleState)) as PM
    by (vm_compute; reflexivity).
  split; [exact NI|]. split; [exact PI|].
  split; [exact NE|]. split; [exact PE|].
  split; [exact NC|]. split; [exact PC|].
  split; [exact NM|]. split; [exact PM|].
  exact (saved_state_is_restored sampleLocaleCompare sampleParseIncomes
           sampleParseExpenses sampleParseCategories sampleParseMonthlyData
           sampleStringifyMonthlyData sampleStringifyIncomes
           sampleStringifyExpenses sampleStringifyCategories sampleState
           sampleStorage NI PI NE PE NC PC NM PM).
Defined.

Lemma sampleLocaleCompare_flips (a b : string) :
  (sampleLocaleCompare a b < 0)%Z ↔ (0 < sampleLocaleCompare b a)%Z.
Proof.
  unfold sampleLocaleCompare. rewrite (String.compare_antisym a b).
  destruct (String.compare b a); simpl; lia.
Qed.

(** X18 at [sampleState], whose registry is sorted. *)
Lemma sorted_registry_is_kept_witness :
  (∀ a b, (sampleLocaleCompare a b < 0)%Z ↔ (0 < sampleLocaleCompare b a)%Z) ∧
  Sorted (nameLe sampleLocaleCompare) (categories sampleState) ∧
  (Sorted (nameLe sampleLocaleCompare) (categories sampleState) →
   sortCategories sampleLocaleCompare sampleState = sampleState) ∧
  sortCategories sampleLocaleCompare
    (sortCategories sampleLocaleCompare sampleState)
  = sortCategories sampleLocaleCompare sampleState.
Proof.
  split; [exact sampleLocaleCompare_flips|].
  split; [repeat constructor; by compute|].
  apply (sorted_registry_is_kept sampleLocaleCompare sampleState).
  exact sampleLocaleCompare_flips.
Defined.

(** X19 at [legacyLedgers]: the ledger of November 2023. *)
Lemma migration_keeps_every_list_witness :
  legacyLedgers !! "2023-11" = Some legacyLedger ∧
  ∃ month', migrate legacyLedgers !! "2023-11" = Some month' ∧
    truthyProp month' "realExpenses" = true ∧
    (truthyProp legacyLedger "realExpenses" = true →
     month' !! "realExpenses" = legacyLedger !! "realExpenses") ∧
    (truthyProp legacyLedger "plannedExpenses" = true →
     month' !! "plannedExpenses" = legacyLedger !! "plannedExpenses" ∧
     month' !! "expenses" = legacyLedger !! "expenses") ∧
    (∀ v, legacyLedger !! "expenses" = Some v → truthy v = true →
       month' !! "plannedExpenses" = Some v ∨ month' !! "expenses" = Some v) ∧
    (truthyProp legacyLedger "expenses" = false →
     month' !! "plannedExpenses" = legacyLedger !! "plannedExpenses" ∧
     month' !! "expenses" = legacyLedger !! "expenses").
Proof.
  split; [reflexivity|].
  apply (migration_keeps_every_list legacyLedgers "2023-11" legacyLedger).
  reflexivity.
Defined.

(** X20 at December 2023 and January 2024. *)
Lemma month_keys_order_chronologically_witness :
  (1000 ≤ 2023 ≤ 9999)%Z ∧ (0 ≤ 11 ≤ 11)%Z ∧
  (1000 ≤ 2024 ≤ 9999)%Z ∧ (0 ≤ 0 ≤ 11)%Z ∧
  getMonthKey 2023 11 = "2023-12" ∧ getMonthKey 2024 0 = "2024-01" ∧
  (str_ge (getMonthKey 2024 0) (getMonthKey 2023 11) = true
   ↔ monthLe 2023 11 2024 0).
Proof.
  split; [lia|]. split; [lia|]. split; [lia|]. split; [lia|].
  split; [reflexivity|]. split; [reflexivity|].
  apply (month_keys_order_chronologically 2023 11 2024 0); lia.
Defined.

(** X22 at [sampleSession]: the instance 12 of the rent is edited. *)
Lemma entry_edit_keeps_identity_and_link_witness :
  monthlyData (app sampleSession) !! selectedMonth (app sampleSession)
    = Some march ∧
  (12%Z ∈ e_id <$> plannedExpenses march) ∧
  ∃ data',
    monthlyData (app (handleTransactionFormSubmit rentForm 78%Z
                        (clickEditExpense 12%Z sampleSession)))
      !! selectedMonth (app sampleSession) = Some data' ∧
    realIncome data' = realIncome march ∧
    realExpenses data' = realExpenses march ∧
    Forall2 (λ e e', e_id e' = e_id e ∧ e_isRecurring e' = e_isRecurring e ∧
                     e_recurringId e' = e_recurringId e ∧
                     (e_id e ≠ 12%Z → e' = e))
      (plannedExpenses march) (plannedExpenses data') ∧
    ∃ e', e' ∈ plannedExpenses data' ∧ e_id e' = 12%Z ∧
          e_description e' = tf_description rentForm ∧
          e_amount e' = tf_amount rentForm ∧
          e_category e' = tf_category rentForm.
Proof.
  assert (12%Z ∈ e_id <$> plannedExpenses march) as Hin by (by left).
  split; [reflexivity|]. split; [exact Hin|].
  apply (proj1 (entry_edit_keeps_identity_and_link sampleSession rentForm 78%Z
                  march eq_refl) 12%Z Hin).
Defined.

(** [sampleState] satisfies the invariants of the properties above. *)
Example sampleState_invariants :
  monthReady sampleState ∧ wellLinked sampleState ∧
  referencesResolved sampleState ∧ namesDistinct sampleToLowerCase sampleState.
Proof.
  split_and!.
  - by eexists.
  - unfold wellLinked. split_and!.
    + apply NoDup_singleton.
    + apply NoDup_singleton.
    + intros k data. unfold sampleState; simpl.
      rewrite lookup_insert_Some, lookup_singleton_Some.
      intros [[_ <-]|[_ [_ <-]]] id; unfold incomesLinkedTo, expensesLinkedTo;
        simpl; repeat (rewrite filter_cons; case_decide); simpl; lia.
  - intros c [(k & data & e & Hk & He & Hc)|[(k & data & e & Hk & He & Hc)|(e & He & Hc)]].
    + revert Hk. unfold sampleState; simpl.
      rewrite lookup_insert_Some, lookup_singleton_Some.
      intros [[_ <-]|[_ [_ <-]]]; simpl in He.
      * by apply elem_of_nil in He.
      * apply list_elem_of_singleton in He. subst e c.
        exists (mkCategory "Logement" "#ef4444"). split; [left|reflexivity].
    + revert Hk. unfold sampleState; simpl.
      rewrite lookup_insert_Some, lookup_singleton_Some.
      intros [[_ <-]|[_ [_ <-]]]; simpl in He.
      * by apply elem_of_nil in He.
      * apply list_elem_of_singleton in He. subst e c.
        exists (mkCategory "Repas" "#eab308"). split; [|reflexivity].
        right. right. left.
    + apply list_elem_of_singleton in He. subst e c.
      exists (mkCategory "Logement" "#ef4444"). split; [left|reflexivity].
  - unfold namesDistinct. simpl. apply (bool_decide_unpack _). by compute.
Qed.

End Runs.
